(* ===== verification/_CoqProject ===== *)
-Q . S2P
Prelude.v
PyString.v
Nms.v
Csv.v
Geometry.v
Counter.v
CrossingSpec.v
Tracker.v
Pipeline.v
Drive.v
Mirror.v
Video.v
Render.v
Script.v
