(* ===== verification/Prelude.v ===== *)
(** * Verification of the YOLO v3 vehicle counter ([src/vehicle_count.py])

    ** The program

    [vehicle_count.py] runs a YOLO v3 network on an image, keeps the boxes
    of four COCO classes (car, motorbike, bus, truck), gives each box a
    stable identity with the [EuclideanDistTracker] of tracker.py, and counts
    the identities whose centre crosses a horizontal line at y = 225, by
    direction and class.  Its parts, and how they call each other once per
    frame:
    - [postProcess] (lines 99-139): reads the network outputs, filters them
      by class and score, applies OpenCV's non-max suppression, appends
      every kept class name to the global [detected_classNames], and builds
      the [detection] list [[x, y, w, h, bucket]];
    - the tracker ([tracker.update(detection)], line 137; tracker.py is not
      in the repository): returns the boxes with an identity attached;
    - [count_vehicle] (lines 71-92), called on each tracked box (lines
      138-139): a per-identity state machine over the module-level lists
      [temp_up_list], [temp_down_list], [up_list], [down_list] (lines
      64-67);
    - [from_static_image] (lines 142-178): one image through the network
      and [postProcess], then the number of detections of each class so
      far, appended with [csv.writer] as a record of static-data.csv;
      [__main__] (lines 181-182) calls it once, after the module has read
      coco.names (lines 28-29) and set up its globals;
    - the drawing on the image: a label and a rectangle per kept box
      (lines 129-133), a dot at the centre of every tracked box (line 95),
      the four counts (lines 161-168) and [imshow] (line 170).
    Two library components are modelled because the program's behaviour
    depends on them: OpenCV's [cv2.dnn.NMSBoxes] (line 120) with its
    Python binding, and Python's [csv] module with the text file it
    writes to (lines 175-177).

    ** The library (files in dependency order)

    - [Prelude] (this file): the error monad [res] for Python exceptions
      ([IndexError], [ValueError], [AttributeError], and [_csv.Error] as
      [CsvError]); the Python list operations the code
      uses ([in], [append], [remove], [index], [l[i]], [l[i] = v] with
      negative indices, [int()] of a float); tactics ([inv_res], [zcmp],
      [vc_decide]); the hint database [vc]; their lemmas.
    - [PyString]: Python's [str.strip], [str.split] and [str.join] on
      characters, with the split/join round trip; CPython's index-based
      [do_strip] (two loops with fuel and the slice [s[i:j+1]]), which
      terminates and agrees with the list-based [py_strip]
      ([do_strip_terminates]).
    - [Nms]: OpenCV's [NMSBoxes] (dnn/nms.cpp, nms.inl.hpp): candidates
      above the score threshold sorted by decreasing score (a stable
      insertion sort, as [std::stable_sort]), then the greedy loop that
      keeps a box when it overlaps no kept box by more than the NMS
      threshold (intersection over union, [rectOverlap]); its indices are
      valid and distinct, the kept boxes are pairwise separated, every
      dropped candidate is covered by a kept one, and the result is empty
      exactly when no score exceeds the threshold.
    - [Csv]: [csv.writer]'s [writerow] in the excel dialect (Modules/_csv.c:
      minimal quoting, doubled quotes, CR LF), [str] of an integer, the
      newline translation of a text file, and [csv.reader]'s state machine
      [parse_process_char] fed line by line as a file opened with
      [newline=''] splits it; the round trip [csv_roundtrip] (any rows of
      any strings read back exactly), and [csv_windows_blank_rows] (with
      LF written as CR LF every row reads back followed by an empty row).
    - [Geometry]: the configuration (lines 15-34), [find_center], the
      [detection] and [box_id] records passed between the components, and
      [band_of], the band of a centre in the order of the [elif] chain of
      [count_vehicle].
    - [Counter]: [counter_state] (lines 64-67), [count_vehicle], the loop
      [count_boxes] (lines 138-139); the invariant [counter_wf]; the
      behaviour of one observation in every band, errors, monotonicity,
      accounting.
    - [CrossingSpec]: [AbsCounter], the specification of the counter with
      finite sets ([gset]) of pending identities, and the refinement
      theorems [count_vehicle_refines], [count_boxes_refines]; [PerId], the
      decomposition of a run into independent per-identity machines
      ([count_boxes_per_id]) and no-count-without-approach: an identity
      never seen in a near band can be erased from the run
      ([count_boxes_no_approach_id]); [SpecMachine], the three-state
      machine of spec.md section 4.2, and [spec_counter], the counter of
      that section over all identities with per-bucket count lists; the
      refinement of the code by it, exceptions and buckets included, on
      the runs where the spec's guard is not exercised
      ([count_boxes_refines_spec]); where the code departs from spec.md
      section 8 ([count_vehicle_both_pending], and
      [count_boxes_oscillation]: an oscillating identity is counted once
      per oscillation).
    - [Tracker]: the interface [Tracker]/[TrackerLaws] (a class: the
      invariant the tracker keeps, detections returned in order, distinct
      identities in a frame) and [Euclidean], the tracker of spec.md
      section 4.1 (modelled from the spec, since tracker.py is not in the
      repository): greedy nearest-centre matching, lower identity on ties,
      fresh identities, eviction; its theorems and its instance.
    - [Pipeline]: [np_argmax], the row filter [collect_det], the loop over
      the kept boxes [emit], the detection stage [detect] (lines 102-134)
      with [indices.flatten()] on the value the binding returns
      ([py_flatten], [cv_indices]), [postProcess] against the NMS and
      tracker interfaces, the frame loop [track_frames] of spec.md section
      5, and [postProcess] composed with OpenCV's [NMSBoxes] of [Nms].
    - [Drive]: the tracker and the counter composed over frames: a vehicle
      driving down across the line in small steps is counted exactly once
      ([vehicle_driving_down_counted]), by three phases and a step lemma.
    - [Mirror]: the reflection about the middle line; the whole run is
      symmetric, with the up and down sides of the counter exchanged
      ([track_frames_mirror]), so the upward case follows
      ([vehicle_driving_up_counted]).
    - [Video]: the frame loop of spec.md section 5 over the whole
      [postProcess] ([postProcess_frames], modelled from the spec: the
      script never reads its [VideoCapture]); a car the network sees as
      one row per frame, kept by the filter, that drives down in small
      steps is counted exactly once, end to end through suppression,
      [indices.flatten()], the loop over the kept indices, the tracker and
      the counter ([video_vehicle_counted_down]).
    - [Script]: the module level: [load_classNames] (lines 28-29), the
      globals, [from_static_image] with the OpenCV and network calls and
      [os.linesep] as section parameters, the text of static-data.csv
      written through [Csv]'s [writerow], and [main].
    - [Render]: the drawing calls ([draw_op]: circle, putText, rectangle,
      imshow) as the list of calls made on the image, in order;
      [emit_draw] and [count_and_draw], the loops of [postProcess] with
      their drawing, [postProcess_draw] and [from_static_image_draw]; the
      drawing leaves the globals and the exceptions of [postProcess]
      unchanged ([postProcess_draw_state]), and every label drawn is an
      upper-cased class name with a percentage between 20 and 100
      ([postProcess_draw_labels]).

    ** Modelling choices

    - State is passed explicitly; every operation that the Python code may
      abort with an exception returns [res], and the first exception ends
      the run, as an uncaught exception ends the script.
    - Pixel coordinates and counters are Python integers: [Z], unbounded,
      as in Python.  List indices follow Python: [-len <= i < len], a
      negative index counting from the end.
    - Network outputs are floats; they are modelled by exact rationals [Q]
      ([0.2] is [1 # 5]); comparisons and [int()] truncation are those of the
      code, rounding is not modelled.
    - Every loop of the script is a structural recursion over the list it
      iterates, so no fuel is needed and every definition computes
      ([vm_compute]); the index loops of CPython's [strip] take fuel.
    - OpenCV's [NMSBoxes], [imread], [img.shape], [blobFromImage] and the
      network's forward pass are parameters of sections ([PostProcess],
      [Script]); the generic theorems state what they assume of them
      (valid indices) and of coco.names (at least eight names; car,
      motorbike, bus, truck at indices 2, 3, 5, 7).  [NMSBoxes] is then
      instantiated with the model of [Nms], modelled from OpenCV's C++
      source with [eta = 1] and [top_k = 0] as [cv2.dnn.NMSBoxes] passes
      them; the binding returns the empty tuple for an empty result.  The
      text of coco.names is an input; Python strings are lists of
      characters (Latin-1 code points, [string] in [Csv]).
    - static-data.csv is its text: opened in append mode, it grows by the
      record [writerow] produces, after the text layer's translation of
      LF to [os.linesep] (a parameter: LF on POSIX, CR LF on Windows).
    - Not modelled: video decoding and the unused [VideoCapture] (line 11),
      which the script opens and never reads; the network itself
      ([readNetFromDarknet], the CUDA backend, [blobFromImage], [forward]),
      a library whose outputs are the inputs of the model; the values of
      the random [colors] (a parameter, one row per class name); the
      pixels the drawing calls change, the window of [imshow], [waitKey]
      and [print], which are output only: the drawing is modelled as the
      sequence of calls and their arguments.  The reader of [Csv] is not
      called by the script: it states what the file holds.

    ** What the theorems show

    - the crossing counter counts exactly the far-band observations of
      identities pending on the other side, once, in their class bucket;
      it keeps its invariant, never raises on valid class buckets, and its
      counters only grow, by at most one per approach;
    - the list-based code implements a set-based specification, runs
      decompose into independent per-identity runs, an identity never
      seen in a near band contributes nothing, and the spec's counter is
      implemented, bucket by bucket, on the runs its guard does not
      affect; an identity seen in both near bands is pending on both
      sides, and an oscillating identity is counted once per oscillation,
      by the code as by the spec's machine;
    - the tracker matches greedily to the nearest unclaimed object within
      25 pixels (ties to the lower identity), never repeats an identity in a
      frame, evicts unmatched objects and never reissues an identity;
    - a vehicle driving across the line, down or up, in steps of at most
      14 pixels within the tracker's 25 pixels, keeps its identity and is
      counted exactly once in its direction (liveness), while a car moving
      21 pixels per frame can jump over a near band and is never counted,
      so the bound is needed; the whole run is symmetric about the middle
      line; the same holds end to end, from the network's outputs through
      [postProcess] frame after frame;
    - [postProcess] raises no [IndexError] or [ValueError] under the
      stated assumptions on its collaborators and hands the tracker
      detections with class buckets in [0, 4); it raises [IndexError]
      exactly when a kept box has a class id beyond the end of coco.names; with OpenCV's [NMSBoxes] it
      raises [AttributeError] exactly on a frame without any vehicle scored
      above 0.2 (the script crashes on such an image), the detections it
      hands on overlap pairwise by at most 0.2, every vehicle candidate is
      reported or covered by a reported box, and a duplicate detection of
      one car is reported once;
    - static-data.csv stays a file of one [csv.writer] record per call,
      which [csv.reader] reads back exactly on POSIX, while on Windows
      (LF written as CR LF) every record reads back followed by an empty
      row; the script, one image, can never produce a crossing count;
      the row [from_static_image] reports is, class by class, the number of
      names detected so far, so a second call reports both images and can
      count a crossing between them; coco.names is read back exactly when
      its names are trimmed and on lines of their own; the boxes computed
      from network fractions are no larger than the image, but may have
      width or height 0, and such a box is tracked, not rejected; the
      three-frame scenario of spec.md section 8 moves the centre 30 pixels,
      beyond the tracker's threshold, and counts nothing;
    - the drawing changes nothing the counts depend on, and every label
      shows a whole percentage between 20 and 100 when the network's
      class scores are at most 1;
    - CPython's [strip] loop terminates on the text of coco.names and
      computes the [py_strip] the model of line 29 uses.

    ** Bounds and fuel

    Every loop of the script iterates a list and is a structural
    recursion, so every definition terminates and computes.  The two
    index loops of CPython's [do_strip] ([strip_left_loop],
    [strip_right_loop]) advance or retreat one character per step, so
    any fuel larger than the length of the string is enough: each loop
    makes at most [length s + 1] steps ([do_strip_terminates]).  The liveness
    theorems bound the step of the vehicle per frame by 14 pixels, the
    width of a near band, so no near band can be skipped, and by the
    tracker's 25 pixels, so the identity is kept.  The CSV reader is a
    structural recursion over the characters of the file, the line
    splitting keeping one character of look-behind (a pending CR) in its
    state; the NMS loop recurses over the sorted candidates. *)

From stdpp Require Import base list decidable option numbers sets.
From Stdlib Require Import ZArith QArith Lia.

(** ** Python exceptions and the error monad

    An uncaught exception in [vehicle_count.py] ends the script, so an
    operation that may raise is modelled as returning [res A]: either the
    value or the exception that the Python code raises.  The monad is
    stdpp's ([MRet], [MBind]), so [x ← m; k] reads like the code. *)

(** [CsvError] is [_csv.Error], raised by [csv.reader] on malformed input. *)
Inductive py_exc := IndexError | ValueError | AttributeError | CsvError.

Inductive res (A : Type) : Type :=
| Ok (a : A)
| Err (e : py_exc).
Arguments Ok {A} a.
Arguments Err {A} e.

#[export] Instance res_ret : MRet res := λ A a, Ok a.
#[export] Instance res_bind : MBind res :=
  λ A B f m, match m with Ok a => f a | Err e => Err e end.
#[export] Instance res_fmap : FMap res :=
  λ A B f m, match m with Ok a => Ok (f a) | Err e => Err e end.

(** Two results related: both [Ok] with related values, or the same
    exception. *)
Definition res_rel {A B} (R : A → B → Prop) (m1 : res A) (m2 : res B) : Prop :=
  match m1, m2 with
  | Ok a, Ok b => R a b
  | Err e1, Err e2 => e1 = e2
  | _, _ => False
  end.

Definition is_ok {A} (m : res A) : bool :=
  match m with Ok _ => true | Err _ => false end.

Declare Scope vc_scope.
Delimit Scope vc_scope with vc.
Open Scope vc_scope.

(** ** Python lists of integers used as sets: [in], [append], [remove] *)

Section PyList.
Context {A : Type} `{EqDecision A}.

(** [x in l] *)
Definition py_in (x : A) (l : list A) : bool := bool_decide (x ∈ l).

(** [l.append(x)] *)
Definition py_append (l : list A) (x : A) : list A := l ++ [x].

(** [l.remove(x)]: removes the first occurrence, raises [ValueError] when
    [x] is absent. *)
Fixpoint py_remove (l : list A) (x : A) : res (list A) :=
  match l with
  | [] => Err ValueError
  | y :: ys => if decide (y = x) then Ok ys else (y ::.) <$> py_remove ys x
  end.

(** [l.index(x)]: the position of the first occurrence, [ValueError]
    when [x] is absent. *)
Fixpoint py_index (l : list A) (x : A) : res Z :=
  match l with
  | [] => Err ValueError
  | y :: ys => if decide (y = x) then Ok 0%Z else Z.succ <$> py_index ys x
  end.
End PyList.

(** ** Python indexing: [l[i]] and [l[i] = v]

    Python accepts [-len l <= i < len l]; a negative index counts from the
    end; anything else raises [IndexError]. *)

Definition py_norm_index (len i : Z) : option nat :=
  if decide (0 <= i < len)%Z then Some (Z.to_nat i)
  else if decide (- len <= i < 0)%Z then Some (Z.to_nat (len + i))
  else None.

Definition py_getitem {A} (l : list A) (i : Z) : res A :=
  match py_norm_index (Z.of_nat (length l)) i with
  | Some n => match l !! n with Some v => Ok v | None => Err IndexError end
  | None => Err IndexError
  end.

Definition py_setitem {A} (l : list A) (i : Z) (v : A) : res (list A) :=
  match py_norm_index (Z.of_nat (length l)) i with
  | Some n => Ok (<[n := v]> l)
  | None => Err IndexError
  end.

Notation "l '.[' i ']'" := (py_getitem l i) (at level 1, i at level 200, format "l .[ i ]") : vc_scope.

(** [int(q)] of a Python float, truncating toward zero.  Floats are
    modelled by exact rationals [Q]. *)
Definition py_int (q : Q) : Z := Z.quot (Qnum q) (Zpos (Qden q)).

(** [a > b] on floats. *)
Definition Qgtb (a b : Q) : bool := negb (Qle_bool a b).

(** ** Tactics *)

(** Invert equations between results. *)
Ltac inv_res :=
  repeat match goal with
  | H : Ok _ = Ok _ |- _ => injection H; clear H; intros; subst
  | H : Err _ = Ok _ |- _ => discriminate H
  | H : Ok _ = Err _ |- _ => discriminate H
  | H : Err _ = Err _ |- _ => injection H; clear H; intros; subst
  | H : Some _ = Some _ |- _ => injection H; clear H; intros; subst
  | H : None = Some _ |- _ => discriminate H
  | H : (_, _) = (_, _) |- _ => injection H; clear H; intros; subst
  end.

(** Case on every integer comparison of the goal. *)
Ltac zcmp :=
  repeat match goal with
  | |- context [Z.gtb ?a ?b] => rewrite (Z.gtb_ltb a b)
  | |- context [Z.ltb ?a ?b] => destruct (Z.ltb_spec a b)
  | |- context [Z.leb ?a ?b] => destruct (Z.leb_spec a b)
  | |- context [Z.eqb ?a ?b] => destruct (Z.eqb_spec a b)
  end; simpl.

(** Prove a decidable proposition about concrete data by evaluation. *)
Ltac vc_decide := apply (bool_decide_unpack _); vm_compute; reflexivity.

Create HintDb vc discriminated.
Create Rewrite HintDb vc.

(** ** Lemmas on the error monad *)

Lemma res_bind_Ok {A B} (m : res A) (f : A → res B) (b : B) :
  (m ≫= f) = Ok b ↔ ∃ a, m = Ok a ∧ f a = Ok b.
Proof.
  destruct m as [a|e]; simpl; split.
  - eauto.
  - by intros (? & [= ->] & ?).
  - discriminate.
  - by intros (? & ? & ?).
Qed.

Lemma res_fmap_Ok {A B} (f : A → B) (m : res A) (b : B) :
  f <$> m = Ok b ↔ ∃ a, m = Ok a ∧ b = f a.
Proof.
  destruct m as [a|e]; simpl; split.
  - intros [= <-]. eauto.
  - by intros (? & [= ->] & ->).
  - discriminate.
  - by intros (? & ? & ?).
Qed.

(** ** Lemmas on the Python list operations *)

Section PyListLemmas.
Context {A : Type} `{EqDecision A}.
Implicit Types (l : list A) (x y : A).

Lemma py_in_true x l : py_in x l = true ↔ x ∈ l.
Proof. unfold py_in. apply bool_decide_eq_true. Qed.

Lemma py_in_false x l : py_in x l = false ↔ x ∉ l.
Proof. unfold py_in. apply bool_decide_eq_false. Qed.

Lemma elem_of_py_append x y l : y ∈ py_append l x ↔ y ∈ l ∨ y = x.
Proof. unfold py_append. set_solver. Qed.

Lemma NoDup_py_append x l : x ∉ l → NoDup l → NoDup (py_append l x).
Proof.
  intros Hx Hl. unfold py_append. apply NoDup_app. split; [done|].
  split; [set_solver|]. apply NoDup_singleton.
Qed.

(** [remove] succeeds exactly when the element is present, and then drops
    its first occurrence. *)
Lemma py_remove_split x l :
  x ∈ l → ∃ l1 l2, (l = l1 ++ x :: l2) ∧ x ∉ l1 ∧ py_remove l x = Ok (l1 ++ l2).
Proof.
  induction l as [|y l IH]; intros Hx; [set_solver|]. simpl.
  case_decide as Hy.
  - subst. exists [], l. split_and!; [done|set_solver|done].
  - destruct IH as (l1 & l2 & -> & Hn & ->); [set_solver|].
    exists (y :: l1), l2. split_and!; [done|set_solver|done].
Qed.

Lemma py_remove_absent x l : x ∉ l → py_remove l x = Err ValueError.
Proof.
  induction l as [|y l IH]; intros Hx; [done|]. simpl.
  case_decide; [set_solver|]. rewrite IH; [done|set_solver].
Qed.

Lemma py_remove_Ok_elem_of x l l' :
  py_remove l x = Ok l' → x ∈ l.
Proof.
  intros H. destruct (decide (x ∈ l)) as [|Hn]; [done|].
  by rewrite py_remove_absent in H.
Qed.

(** On a list without duplicates, [remove] deletes the element for good. *)
Lemma py_remove_NoDup x l l' :
  NoDup l → py_remove l x = Ok l' →
  NoDup l' ∧ (∀ y, y ∈ l' ↔ y ∈ l ∧ y ≠ x) ∧ length l = S (length l').
Proof.
  intros Hnd H.
  destruct (py_remove_split x l) as (l1 & l2 & -> & _ & Hr);
    [by eapply py_remove_Ok_elem_of|].
  rewrite Hr in H. inv_res.
  apply NoDup_app in Hnd as (Hnd1 & Hdis & Hnd2).
  apply NoDup_cons in Hnd2 as [Hx2 Hnd2].
  split_and!.
  - apply NoDup_app. split_and!; [done| |done]. set_solver.
  - intros y. split.
    + intros Hy. split; [set_solver|]. intros ->.
      apply elem_of_app in Hy as [Hy|Hy]; [|done].
      by apply (Hdis x Hy); left.
    + set_solver.
  - rewrite !length_app. simpl. lia.
Qed.

Lemma py_index_Ok x l i :
  py_index l x = Ok i → (0 <= i)%Z ∧ l !! Z.to_nat i = Some x.
Proof.
  revert i. induction l as [|y l IH]; intros i H; simpl in H; [done|].
  case_decide; [inv_res; split; [lia|done]|].
  apply res_fmap_Ok in H as (j & Hj & ->). destruct (IH j Hj) as [Hj0 Hl].
  split; [lia|]. rewrite Z2Nat.inj_succ by lia. done.
Qed.

Lemma py_index_elem_of x l : x ∈ l → is_ok (py_index l x) = true.
Proof.
  induction l as [|y l IH]; intros Hx; [set_solver|]. simpl.
  case_decide; [done|]. destruct (py_index l x) eqn:E; [done|].
  simpl. apply IH. set_solver.
Qed.
End PyListLemmas.

(** ** Lemmas on Python indexing *)

Lemma py_norm_index_Some len i n :
  py_norm_index len i = Some n ↔
  ((0 <= i < len)%Z ∧ n = Z.to_nat i) ∨ ((- len <= i < 0)%Z ∧ n = Z.to_nat (len + i)).
Proof.
  unfold py_norm_index. repeat case_decide; split; intros Hs; inv_res;
    try (destruct Hs as [[? ->]|[? ->]]); done || lia.
Qed.

Lemma py_norm_index_bound len i n :
  py_norm_index len i = Some n → (Z.of_nat n < len)%Z.
Proof. intros [[? ->]|[? ->]]%py_norm_index_Some; lia. Qed.

Lemma py_norm_index_None len i :
  py_norm_index len i = None ↔ ¬ (- len <= i < len)%Z.
Proof. unfold py_norm_index. repeat case_decide; split; intros; done || lia. Qed.

Lemma py_setitem_Ok {A} (l : list A) i v l' :
  py_setitem l i v = Ok l' ↔
  ∃ n, py_norm_index (Z.of_nat (length l)) i = Some n ∧ l' = <[n := v]> l.
Proof.
  unfold py_setitem. destruct (py_norm_index _ _); split; intros H;
    inv_res; naive_solver.
Qed.

Lemma py_setitem_in_range {A} (l : list A) i v :
  (- Z.of_nat (length l) <= i < Z.of_nat (length l))%Z →
  ∃ n, (n < length l)%nat ∧ py_norm_index (Z.of_nat (length l)) i = Some n ∧
       py_setitem l i v = Ok (<[n := v]> l).
Proof.
  intros Hi. unfold py_setitem.
  destruct (py_norm_index _ i) as [n|] eqn:E.
  - exists n. apply py_norm_index_bound in E as Hb. split_and!; [lia|done|done].
  - apply py_norm_index_None in E. lia.
Qed.

Lemma py_getitem_Ok {A} (l : list A) i n :
  py_norm_index (Z.of_nat (length l)) i = Some n →
  ∃ v, l !! n = Some v ∧ py_getitem l i = Ok v.
Proof.
  intros E. unfold py_getitem. rewrite E.
  apply py_norm_index_bound in E.
  destruct (l !! n) as [v|] eqn:Hv; [by eauto|].
  apply lookup_ge_None in Hv. lia.
Qed.

Lemma py_getitem_nonneg {A} (l : list A) i :
  (0 <= i < Z.of_nat (length l))%Z → ∃ v, l !! Z.to_nat i = Some v ∧ py_getitem l i = Ok v.
Proof.
  intros Hi. apply py_getitem_Ok. apply py_norm_index_Some. left. split; [lia|done].
Qed.

Lemma py_getitem_lookup {A} (l : list A) (k : nat) v :
  l !! k = Some v → py_getitem l (Z.of_nat k) = Ok v.
Proof.
  intros Hk. destruct (py_getitem_nonneg l (Z.of_nat k)) as (v' & Hv' & ->).
  - apply lookup_lt_Some in Hk. lia.
  - rewrite Nat2Z.id in Hv'. congruence.
Qed.

(** [int(q * W)] of a fraction [q] in [[0, 1]] of a non-negative size [W]
    lies in [[0, W]]. *)
Lemma py_int_scale_bound q (W : Z) :
  (0 <= q <= 1)%Q → (0 <= W)%Z → (0 <= py_int (q * inject_Z W) <= W)%Z.
Proof.
  intros [H0 H1] HW. destruct q as [n d]. unfold Qle in H0, H1. simpl in H0, H1.
  unfold py_int, Qmult, inject_Z. simpl. rewrite Pos.mul_1_r.
  rewrite Z.quot_div_nonneg by nia.
  split; [apply Z.div_pos; lia|apply Z.div_le_upper_bound; nia].
Qed.

(** A non-negative index that does not raise reads the list at that index. *)
Lemma py_getitem_nonneg_inv {A} (l : list A) i v :
  (0 <= i)%Z → py_getitem l i = Ok v → l !! Z.to_nat i = Some v.
Proof.
  intros Hi. unfold py_getitem.
  destruct (py_norm_index _ i) as [n|] eqn:En; [|done].
  apply py_norm_index_Some in En as [[_ ->]|[? _]]; [|lia].
  destruct (l !! _); intros; by inv_res.
Qed.

Lemma py_getitem_out {A} (l : list A) i :
  ¬ (- Z.of_nat (length l) <= i < Z.of_nat (length l))%Z →
  py_getitem l i = Err IndexError.
Proof.
  intros Hi. unfold py_getitem.
  apply py_norm_index_None in Hi as ->. done.
Qed.

(** Two lists of the same length raise the same exception at the same
    index. *)
Lemma py_getitem_same_length {A B} (l1 : list A) (l2 : list B) i e :
  length l1 = length l2 → py_getitem l1 i = Err e → py_getitem l2 i = Err e.
Proof.
  intros Hl. unfold py_getitem. rewrite Hl.
  destruct (py_norm_index _ i) as [n|]; intros H; [|by injection H as <-].
  destruct (l1 !! n) eqn:E1; [discriminate|]. injection H as <-.
  apply lookup_ge_None in E1.
  destruct (l2 !! n) eqn:E2; [apply lookup_lt_Some in E2; lia|reflexivity].
Qed.

(** [int(q)] of a rational above an integer [m >= 0] is at least [m]. *)
Lemma py_getitem_same_length_Ok {A B} (l1 : list A) (l2 : list B) i a :
  length l1 = length l2 → py_getitem l1 i = Ok a → ∃ b, py_getitem l2 i = Ok b.
Proof.
  intros Hl. unfold py_getitem. rewrite Hl.
  destruct (py_norm_index _ i) as [n|]; [|discriminate].
  destruct (l1 !! n) eqn:E1; [|discriminate]. intros _.
  apply lookup_lt_Some in E1. destruct (lookup_lt_is_Some_2 l2 n) as [b ->]; [lia|eauto].
Qed.

(** What an index reads is an element of the list. *)
Lemma py_getitem_elem_of {A} (l : list A) i a : py_getitem l i = Ok a → a ∈ l.
Proof.
  unfold py_getitem. destruct (py_norm_index _ i) as [n|]; [|discriminate].
  destruct (l !! n) eqn:E; intros; inv_res. by eapply list_elem_of_lookup_2.
Qed.

(** [int(q)] of a float above a non-negative integer [m] is at least [m],
    and of a non-negative float at most [m] is at most [m]. *)
Lemma py_int_lower q m : (0 <= m)%Z → (inject_Z m < q)%Q → (m <= py_int q)%Z.
Proof.
  intros Hm Hq. destruct q as [n d]. unfold Qlt in Hq. simpl in Hq. unfold py_int. simpl.
  rewrite Z.quot_div_nonneg by nia. apply Z.div_le_lower_bound; lia.
Qed.

(** [int(q)] of a rational at most an integer [m] is at most [m]. *)
Lemma py_int_upper q m : (0 <= q)%Q → (q <= inject_Z m)%Q → (py_int q <= m)%Z.
Proof.
  intros H0 Hq. destruct q as [n d]. unfold Qle in H0, Hq. simpl in H0, Hq. unfold py_int. simpl.
  rewrite Z.quot_div_nonneg by nia. apply Z.div_le_upper_bound; lia.
Qed.

Lemma forallb_false_elem_of {A} (f : A → bool) (l : list A) :
  forallb f l = false → ∃ x, x ∈ l ∧ f x = false.
Proof.
  induction l as [|x l IH]; simpl; [done|].
  destruct (f x) eqn:Hx; simpl; [|intros _; exists x; split; [left|done]].
  intros (y & Hy & Hf)%IH. exists y. split; [by right|done].
Qed.

Lemma last_fmap {A B} (f : A → B) (l : list A) : last (f <$> l) = f <$> last l.
Proof. by rewrite !last_lookup, list_lookup_fmap, length_fmap. Qed.

#[export] Hint Resolve NoDup_py_append : vc.
#[export] Hint Rewrite @py_in_true @py_in_false @elem_of_py_append : vc.
