(* ===== verification/PyString.v ===== *)
(** * Python's [str.strip], [str.split] and [str.join]

    [vehicle_count.py] reads the class names with
    [open(classesFile).read().strip().split('\n')] (line 29).  A Python
    [str] is a sequence of characters; it is modelled as [list ascii], the
    characters read as Latin-1 code points, so that the list lemmas of
    stdpp apply.  The file is read in text mode: the newline translation
    of [read()] ([\r\n] to [\n]) is not modelled, the contents are the
    decoded text.

    [py_split] and [py_join] are inverse to each other ([py_join_split],
    [py_split_join]); [py_strip] leaves a text without surrounding
    whitespace unchanged and drops trailing whitespace.  CPython computes
    [strip()] with two index loops and a slice ([do_strip] in
    Objects/unicodeobject.c); [do_strip] models them with fuel, and
    [do_strip_terminates] shows that they terminate and agree with
    [py_strip]. *)

From stdpp Require Import base list decidable sets strings.
From Stdlib Require Import Ascii String ZArith Lia.
From S2P Require Import Prelude.

(** [c.isspace()] for a code point below 256: tab, line feed, vertical
    tab, form feed, carriage return, the four separators [\x1c]-[\x1f],
    space, [\x85] and no-break space [\xa0]. *)
Definition py_isspace (c : ascii) : bool :=
  let n := nat_of_ascii c in
  bool_decide (9 <= n <= 13)%nat || bool_decide (28 <= n <= 32)%nat ||
  bool_decide (n = 133)%nat || bool_decide (n = 160)%nat.
Arguments py_isspace : simpl never.

(** The leading whitespace removed. *)
Fixpoint py_lstrip (s : list ascii) : list ascii :=
  match s with
  | [] => []
  | c :: s' => if py_isspace c then py_lstrip s' else s
  end.

(** [s.strip()]: leading and trailing whitespace removed. *)
Definition py_strip (s : list ascii) : list ascii :=
  reverse (py_lstrip (reverse (py_lstrip s))).

(** [s.rstrip()]: trailing whitespace removed. *)
Definition py_rstrip (s : list ascii) : list ascii := reverse (py_lstrip (reverse s)).

(** CPython's [do_strip] (Objects/unicodeobject.c) computes [strip()]
    with two while loops over indices:
    [i = 0; while (i < len && isspace(s[i])) i++;] then
    [j = len - 1; while (j >= i && isspace(s[j])) j--;] and returns the
    substring [s[i:j+1]].  Each loop is a [Fixpoint] over a [fuel]
    bounding its iterations; [None] is the fuel running out. *)
Fixpoint strip_left_loop (fuel : nat) (s : list ascii) (i : nat) : option nat :=
  match fuel with
  | O => None
  | S fuel' =>
      match s !! i with
      | Some c => if py_isspace c then strip_left_loop fuel' s (S i) else Some i
      | None => Some i
      end
  end.

Fixpoint strip_right_loop (fuel : nat) (s : list ascii) (i : nat) (j : Z) : option Z :=
  match fuel with
  | O => None
  | S fuel' =>
      if (Z.of_nat i <=? j)%Z then
        match s !! Z.to_nat j with
        | Some c => if py_isspace c then strip_right_loop fuel' s i (j - 1)%Z else Some j
        | None => Some j
        end
      else Some j
  end.

Definition do_strip (fuel : nat) (s : list ascii) : option (list ascii) :=
  i ← strip_left_loop fuel s 0;
  j ← strip_right_loop fuel s i (Z.of_nat (List.length s) - 1)%Z;
  Some (take (Z.to_nat (j + 1) - i) (drop i s)).

(** [s.split(sep)] for a one-character separator: the pieces between the
    separators, empty pieces included; [''.split(sep)] is [['']]. *)
Fixpoint py_split (sep : ascii) (s : list ascii) : list (list ascii) :=
  match s with
  | [] => [[]]
  | c :: s' =>
      let ws := py_split sep s' in
      if decide (c = sep) then [] :: ws
      else match ws with
           | w :: ws' => (c :: w) :: ws'
           | [] => [[c]]
           end
  end.

(** [sep.join(ws)] *)
Fixpoint py_join (sep : ascii) (ws : list (list ascii)) : list ascii :=
  match ws with
  | [] => []
  | [w] => w
  | w :: ws' => w ++ sep :: py_join sep ws'
  end.

(** A text starts and ends with a character that is not whitespace. *)
Definition trimmed (s : list ascii) : bool :=
  negb (default false (py_isspace <$> head s)) && negb (default false (py_isspace <$> last s)).

(** ** Lemmas *)

Lemma py_split_cons_not_sep sep c s :
  c ≠ sep → ∃ w ws, py_split sep s = w :: ws ∧ py_split sep (c :: s) = (c :: w) :: ws.
Proof.
  intros Hc. simpl. rewrite decide_False by done.
  destruct s as [|c' s]; simpl; [by eauto|].
  destruct (decide (c' = sep)); [by eauto|].
  destruct (py_split sep s) as [|w ws]; eauto.
Qed.

Lemma py_split_nonnil sep s : py_split sep s ≠ [].
Proof.
  destruct s as [|c s]; simpl; [done|].
  case_decide; [done|]. by destruct (py_split sep s).
Qed.

Lemma py_split_app_sep sep w s :
  sep ∉ w → py_split sep (w ++ sep :: s) = w :: py_split sep s.
Proof.
  induction w as [|c w IH]; intros Hw; simpl; [by rewrite decide_True|].
  rewrite decide_False by set_solver. rewrite IH by set_solver. done.
Qed.

Lemma py_split_no_sep sep w : sep ∉ w → py_split sep w = [w].
Proof.
  induction w as [|c w IH]; intros Hw; simpl; [done|].
  rewrite decide_False by set_solver. rewrite IH by set_solver. done.
Qed.

(** Splitting a joined list gives the list back, when no piece holds the
    separator. *)
Lemma py_split_join sep ws :
  ws ≠ [] → Forall (λ w, sep ∉ w) ws → py_split sep (py_join sep ws) = ws.
Proof.
  induction ws as [|w [|w' ws] IH]; intros Hne Hws; [done| |].
  - apply Forall_inv in Hws. simpl. by apply py_split_no_sep.
  - apply Forall_cons in Hws as [Hw Hws].
    change (py_join sep (w :: w' :: ws)) with (w ++ sep :: py_join sep (w' :: ws)).
    by rewrite py_split_app_sep, IH.
Qed.

(** Joining the pieces of a split gives the text back. *)
Lemma py_join_split sep s : py_join sep (py_split sep s) = s.
Proof.
  induction s as [|c s IH]; [done|].
  destruct (decide (c = sep)) as [->|Hc].
  - simpl. rewrite decide_True by done.
    destruct (py_split sep s) as [|w ws] eqn:E; [by apply py_split_nonnil in E|].
    simpl in IH |- *. by rewrite IH.
  - destruct (py_split_cons_not_sep sep c s Hc) as (w & ws & E & ->).
    rewrite E in IH. destruct ws; simpl in *; by rewrite IH.
Qed.

Lemma py_lstrip_id c s : py_isspace c = false → py_lstrip (c :: s) = c :: s.
Proof. simpl. by intros ->. Qed.

Lemma py_lstrip_app_spaces t s :
  Forall (λ c, py_isspace c = true) t → py_lstrip (t ++ s) = py_lstrip s.
Proof. induction 1 as [|c t Hc _ IH]; simpl; [done|]. by rewrite Hc. Qed.

(** [strip()] of a trimmed text followed by whitespace is the text. *)
Lemma py_strip_trailing s t :
  trimmed s = true → Forall (λ c, py_isspace c = true) t → py_strip (s ++ t) = s.
Proof.
  intros Hs Ht. unfold py_strip. destruct s as [|c s'].
  - rewrite app_nil_l, <- (app_nil_r t), py_lstrip_app_spaces by done. done.
  - unfold trimmed in Hs. apply andb_true_iff in Hs as [Hc Hl].
    apply negb_true_iff in Hc, Hl. simpl in Hc.
    rewrite <- app_comm_cons, py_lstrip_id, app_comm_cons by done.
    rewrite reverse_app, py_lstrip_app_spaces by (by apply Forall_reverse).
    destruct (exists_last (l:=c :: s')) as (init & x & Hx); [done|].
    rewrite Hx in Hl |- *. rewrite last_snoc in Hl. simpl in Hl.
    rewrite reverse_snoc, py_lstrip_id by done.
    by rewrite reverse_cons, reverse_involutive.
Qed.

(** Each piece followed by the separator is the joined text followed by
    the separator. *)
Lemma concat_terminated_join sep ws :
  ws ≠ [] → List.concat ((λ w, w ++ [sep]) <$> ws) = py_join sep ws ++ [sep].
Proof.
  induction ws as [|w [|w' ws] IH]; intros Hne; [done|simpl; by rewrite app_nil_r|].
  change (py_join sep (w :: w' :: ws)) with (w ++ sep :: py_join sep (w' :: ws)).
  simpl in *. rewrite IH by done. by rewrite <- !app_assoc.
Qed.

Lemma head_py_join sep w ws : w ≠ [] → head (py_join sep (w :: ws)) = head w.
Proof. destruct w, ws; done. Qed.

Lemma last_py_join sep ws w : w ≠ [] → last (py_join sep (ws ++ [w])) = last w.
Proof.
  intros Hw. induction ws as [|w1 [|w2 ws] IH]; [done| |].
  - simpl. rewrite last_app, last_cons. destruct (last w) eqn:E; [done|].
    by apply last_None in E.
  - change (py_join sep ((w1 :: w2 :: ws) ++ [w])) with (w1 ++ sep :: py_join sep ((w2 :: ws) ++ [w])).
    rewrite last_app, last_cons, IH. destruct (last w) eqn:E; [done|]. by apply last_None in E.
Qed.

(** Joining non-empty trimmed pieces gives a trimmed text. *)
Lemma trimmed_py_join sep ws :
  Forall (λ w, w ≠ [] ∧ trimmed w = true) ws → trimmed (py_join sep ws) = true.
Proof.
  intros Hws. destruct ws as [|w ws]; [done|].
  destruct (exists_last (l:=w :: ws)) as (init & x & Hx); [done|].
  pose proof (Forall_inv Hws) as [Hw Htw]. rewrite Hx in Hws.
  apply Forall_app in Hws as [_ [Hx' Htx]%Forall_singleton].
  unfold trimmed in *. apply andb_true_iff in Htw as [Hh _], Htx as [_ Hl].
  rewrite head_py_join by done. rewrite Hx, last_py_join by done.
  by rewrite Hh, Hl.
Qed.

#[export] Hint Rewrite py_split_join py_join_split : vc.

(** ** CPython's [do_strip] *)

Lemma py_rstrip_snoc v c :
  py_rstrip (v ++ [c]) = if py_isspace c then py_rstrip v else v ++ [c].
Proof.
  unfold py_rstrip. rewrite reverse_snoc. simpl.
  destruct (py_isspace c); [done|]. by rewrite reverse_cons, reverse_involutive.
Qed.

(** [rstrip()] keeps a prefix. *)
Lemma py_rstrip_prefix v :
  (List.length (py_rstrip v) <= List.length v)%nat ∧ take (List.length (py_rstrip v)) v = py_rstrip v.
Proof.
  induction v as [|c v IH] using rev_ind; [done|]. rewrite py_rstrip_snoc.
  destruct IH as [Hl Ht]. destruct (py_isspace c); rewrite ?length_app; simpl.
  - split; [lia|]. by rewrite take_app_le, Ht by lia.
  - split; [lia|]. by rewrite take_ge by (rewrite length_app; simpl; lia).
Qed.

(** The first loop stops at the first character that is not whitespace,
    within [len - i + 1] iterations. *)
Lemma strip_left_loop_spec fuel s i :
  (i <= List.length s)%nat → (List.length s - i < fuel)%nat →
  ∃ i', strip_left_loop fuel s i = Some i' ∧ (i <= i' <= List.length s)%nat ∧ py_lstrip (drop i s) = drop i' s.
Proof.
  revert i. induction fuel as [|fuel IH]; intros i Hi Hf; [lia|]. simpl.
  destruct (s !! i) as [c|] eqn:Hc.
  - pose proof (lookup_lt_Some _ _ _ Hc) as Hlt. rewrite (drop_S _ _ _ Hc). simpl.
    destruct (py_isspace c).
    + destruct (IH (S i)) as (i' & -> & Hb & Hd); [lia|lia|]. exists i'. split_and!; [done|lia|lia|done].
    + exists i. split_and!; [done|lia|lia|]. by rewrite (drop_S _ _ _ Hc).
  - apply lookup_ge_None in Hc. exists i. rewrite drop_ge by lia. split_and!; [done|lia|lia|done].
Qed.

(** The second loop, started at [i + k - 1], stops after the last
    character of [s[i:i+k]] that is not whitespace, within [k + 1]
    iterations. *)
Lemma strip_right_loop_spec fuel s i k :
  (i + k <= List.length s)%nat → (k < fuel)%nat →
  strip_right_loop fuel s i (Z.of_nat (i + k) - 1) =
    Some (Z.of_nat (i + List.length (py_rstrip (take k (drop i s)))) - 1)%Z.
Proof.
  revert fuel. induction k as [|k IH]; intros fuel Hk Hf; destruct fuel as [|fuel]; try lia; simpl.
  - rewrite (proj2 (Z.leb_gt _ _)) by lia. done.
  - rewrite (proj2 (Z.leb_le _ _)) by lia.
    replace (Z.to_nat (Z.of_nat (i + S k) - 1)) with (i + k)%nat by lia.
    destruct (s !! (i + k)%nat) as [c|] eqn:Hc; [|apply lookup_ge_None in Hc; lia].
    rewrite (take_S_r _ _ c) by (by rewrite lookup_drop). rewrite py_rstrip_snoc.
    destruct (py_isspace c).
    + replace (Z.of_nat (i + S k) - 1 - 1)%Z with (Z.of_nat (i + k) - 1)%Z by lia. apply IH; lia.
    + rewrite length_app, length_take, length_drop. simpl. f_equal. lia.
Qed.

(** CPython's index-based [strip()] terminates and agrees with the
    list-based [py_strip] used for line 29: given more fuel than the
    length of the text, both while loops exit, and the substring they
    delimit is [py_strip s]. *)
Theorem do_strip_terminates s fuel :
  (List.length s < fuel)%nat → do_strip fuel s = Some (py_strip s).
Proof.
  intros Hf. unfold do_strip.
  destruct (strip_left_loop_spec fuel s 0) as (i & -> & Hi & Hd); [lia|lia|]. simpl.
  rewrite drop_0 in Hd.
  replace (Z.of_nat (List.length s) - 1)%Z with (Z.of_nat (i + List.length (drop i s)) - 1)%Z
    by (rewrite length_drop; lia).
  rewrite strip_right_loop_spec by (rewrite length_drop; lia). simpl.
  rewrite (take_ge (drop i s) (List.length (drop i s))) by lia.
  destruct (py_rstrip_prefix (drop i s)) as [Hl Ht].
  replace (Z.to_nat (Z.of_nat (i + List.length (py_rstrip (drop i s))) - 1 + 1) - i)%nat
    with (List.length (py_rstrip (drop i s))) by lia.
  rewrite Ht. unfold py_strip. by rewrite Hd.
Qed.

Lemma do_strip_terminates_witness :
  do_strip 8 (list_ascii_of_string "  car  ") = Some (py_strip (list_ascii_of_string "  car  ")).
Proof. apply do_strip_terminates. vm_compute. lia. Defined.
