(* ===== verification/Nms.v ===== *)
(** * OpenCV's non-max suppression, [cv2.dnn.NMSBoxes]

    [postProcess] calls [cv2.dnn.NMSBoxes(boxes, confidence_scores,
    confThreshold, nmsThreshold)] (line 120).  OpenCV is not part of the
    repository; this file models its algorithm ([NMSFast_] with
    [eta = 1] and [top_k = 0], the defaults the script uses), from OpenCV's
    source:
    - [GetMaxScoreIndex]: the indices whose score exceeds the score
      threshold, stably sorted by decreasing score;
    - the greedy loop: a candidate is kept when its overlap with every box
      kept so far is at most the NMS threshold;
    - [rectOverlap]: intersection over union of two [cv::Rect]s, 1 when
      both areas are 0.
    Scores and overlaps are exact rationals (OpenCV computes in [float]);
    the bindings' size check ([CV_Assert]) is not modelled: [postProcess]
    always passes as many scores as boxes.

    The theorems: every returned index is the index of a box, at most
    once; no two kept boxes overlap by more than the threshold; every
    candidate above the score threshold that is not kept overlaps a kept
    box by more than the threshold; and the result is empty exactly when
    no score exceeds the score threshold. *)

From stdpp Require Import base list numbers sets.
From Stdlib Require Import ZArith QArith Lia.
From S2P Require Import Prelude.

Open Scope Z_scope.

(** A [cv::Rect] built from a box [[x, y, w, h]]. *)
Record rect := mk_rect { rx : Z; ry : Z; rw : Z; rh : Z }.

Definition rect_of (b : list Z) : rect :=
  mk_rect (b !!! 0%nat) (b !!! 1%nat) (b !!! 2%nat) (b !!! 3%nat).

Definition rect_area (r : rect) : Z := rw r * rh r.

(** [(a & b).area()]: the intersection, empty when it has no width or no
    height. *)
Definition inter_area (a b : rect) : Z :=
  let x1 := Z.max (rx a) (rx b) in
  let y1 := Z.max (ry a) (ry b) in
  let w := Z.min (rx a + rw a) (rx b + rw b) - x1 in
  let h := Z.min (ry a + rh a) (ry b + rh b) - y1 in
  if (w <=? 0) || (h <=? 0) then 0 else w * h.

(** [rectOverlap(a, b) = 1 - jaccardDistance(a, b)]. *)
Definition rect_overlap (a b : rect) : Q :=
  let Aa := rect_area a in
  let Ab := rect_area b in
  if Aa + Ab <=? 0 then 1
  else let Aab := inter_area a b in inject_Z Aab / inject_Z (Aa + Ab - Aab).

(** The scores with their indices. *)
Fixpoint score_pairs (scores : list Q) (i : nat) : list (Q * nat) :=
  match scores with
  | [] => []
  | s :: ss => (s, i) :: score_pairs ss (S i)
  end.

(** Insertion into a list sorted by decreasing score, after the pairs of
    equal score: [std::stable_sort] with [a.first > b.first]. *)
Fixpoint insert_desc (p : Q * nat) (l : list (Q * nat)) : list (Q * nat) :=
  match l with
  | [] => [p]
  | q :: l' => if Qgtb p.1 q.1 then p :: l else q :: insert_desc p l'
  end.

(** [GetMaxScoreIndex(scores, threshold, top_k = 0)]. *)
Definition max_score_index (scores : list Q) (threshold : Q) : list (Q * nat) :=
  foldl (λ acc p, insert_desc p acc) []
    (filter (λ p, Qgtb p.1 threshold = true) (score_pairs scores 0)).

(** The loop of [NMSFast_] over the sorted candidates. *)
Fixpoint nms_loop (boxes : list (list Z)) (nms_threshold : Q) (cands : list (Q * nat))
    (indices : list nat) : list nat :=
  match cands with
  | [] => indices
  | (_, idx) :: rest =>
      let keep := forallb (λ k, Qle_bool (rect_overlap (rect_of (boxes !!! idx)) (rect_of (boxes !!! k)))
                                         nms_threshold) indices in
      nms_loop boxes nms_threshold rest (if keep then indices ++ [idx] else indices)
  end.

(** [cv2.dnn.NMSBoxes(boxes, scores, score_threshold, nms_threshold)]. *)
Definition NMSBoxes (boxes : list (list Z)) (scores : list Q) (score_threshold nms_threshold : Q)
    : list Z :=
  Z.of_nat <$> nms_loop boxes nms_threshold (max_score_index scores score_threshold) [].

(** ** Lemmas *)

Lemma rect_overlap_comm a b : rect_overlap a b = rect_overlap b a.
Proof.
  unfold rect_overlap, inter_area.
  rewrite (Z.max_comm (rx a)), (Z.max_comm (ry a)), (Z.min_comm (rx a + _)),
    (Z.min_comm (ry a + _)), (Z.add_comm (rect_area a)). done.
Qed.

Lemma elem_of_score_pairs p scores n :
  p ∈ score_pairs scores n ↔ (n <= p.2)%nat ∧ scores !! (p.2 - n)%nat = Some p.1.
Proof.
  revert n. induction scores as [|s ss IH]; intros n; simpl.
  { split; [set_solver|]. intros [_ ?]. by rewrite lookup_nil in *. }
  rewrite elem_of_cons, IH. destruct p as [q i]; simpl. split.
  - intros [[= -> ->]|[Hi Hl]]; [by rewrite Nat.sub_diag|].
    split; [lia|]. by replace (i - n)%nat with (S (i - S n)) by lia.
  - intros [Hi Hl]. destruct (decide (i = n)) as [->|Hne].
    + rewrite Nat.sub_diag in Hl. simpl in Hl. left. congruence.
    + right. split; [lia|]. by replace (i - n)%nat with (S (i - S n)) in Hl by lia.
Qed.

Lemma NoDup_score_pairs_snd scores n : NoDup (snd <$> score_pairs scores n).
Proof.
  revert n. induction scores as [|s ss IH]; intros n; simpl; constructor; [|apply IH].
  intros (p & -> & Hp)%list_elem_of_fmap. apply elem_of_score_pairs in Hp. lia.
Qed.

Lemma insert_desc_perm p l : insert_desc p l ≡ₚ p :: l.
Proof.
  induction l as [|q l IH]; simpl; [done|].
  destruct (Qgtb _ _); [done|]. rewrite IH. apply perm_swap.
Qed.

Lemma foldl_insert_perm acc l : foldl (λ acc p, insert_desc p acc) acc l ≡ₚ l ++ acc.
Proof.
  revert acc. induction l as [|p l IH]; intros acc; simpl; [done|].
  rewrite IH, insert_desc_perm. by rewrite Permutation_middle.
Qed.

Lemma max_score_index_perm scores threshold :
  max_score_index scores threshold ≡ₚ filter (λ p, Qgtb p.1 threshold = true) (score_pairs scores 0).
Proof. unfold max_score_index. by rewrite foldl_insert_perm, app_nil_r. Qed.

(** The loop only appends, and what it appends is a subsequence of the
    candidates' indices. *)
Lemma nms_loop_sublist boxes t cands indices :
  ∃ extra, nms_loop boxes t cands indices = indices ++ extra ∧ extra `sublist_of` (snd <$> cands).
Proof.
  revert indices. induction cands as [|[s idx] cands IH]; intros indices; simpl.
  { exists []. by rewrite app_nil_r. }
  destruct (forallb _ _).
  - destruct (IH (indices ++ [idx])) as (extra & -> & Hs).
    exists (idx :: extra). rewrite <- app_assoc. split; [done|]. by apply sublist_skip.
  - destruct (IH indices) as (extra & -> & Hs). exists extra. split; [done|]. by apply sublist_cons.
Qed.

(** The indices the loop can append: candidates above the threshold. *)
Lemma elem_of_nms_extra boxes scores st nt i :
  i ∈ nms_loop boxes nt (max_score_index scores st) [] →
  ∃ s, scores !! i = Some s ∧ Qgtb s st = true.
Proof.
  destruct (nms_loop_sublist boxes nt (max_score_index scores st) []) as (extra & -> & Hs).
  intros Hi. apply sublist_subseteq in Hs. apply Hs in Hi.
  apply list_elem_of_fmap in Hi as ([s j] & -> & Hp).
  rewrite (max_score_index_perm scores st), list_elem_of_filter, elem_of_score_pairs in Hp.
  destruct Hp as [Hgt [_ Hl]]. simpl in *. rewrite Nat.sub_0_r in Hl. eauto.
Qed.

Lemma NoDup_nms boxes scores st nt : NoDup (nms_loop boxes nt (max_score_index scores st) []).
Proof.
  destruct (nms_loop_sublist boxes nt (max_score_index scores st) []) as (extra & -> & Hs).
  simpl. eapply sublist_NoDup; [|exact Hs].
  rewrite (max_score_index_perm scores st).
  eapply sublist_NoDup; [apply (NoDup_score_pairs_snd scores 0)|]. apply fmap_sublist, sublist_filter.
Qed.

(** The boxes kept so far pairwise overlap by at most the threshold. *)
Definition separated (boxes : list (list Z)) (nt : Q) (indices : list nat) : Prop :=
  ∀ a b, a ∈ indices → b ∈ indices → a ≠ b →
    (rect_overlap (rect_of (boxes !!! a)) (rect_of (boxes !!! b)) <= nt)%Q.

Lemma nms_loop_separated boxes nt cands indices :
  separated boxes nt indices → separated boxes nt (nms_loop boxes nt cands indices).
Proof.
  revert indices. induction cands as [|[s idx] cands IH]; intros indices Hsep; simpl; [done|].
  apply IH. destruct (forallb _ _) eqn:Hk; [|done].
  rewrite forallb_forall in Hk.
  assert (Hle : ∀ k, k ∈ indices → (rect_overlap (rect_of (boxes !!! idx)) (rect_of (boxes !!! k)) <= nt)%Q).
  { intros k Hk'. apply Qle_bool_iff, Hk. by apply list_elem_of_In. }
  intros a b Ha Hb Hab. rewrite elem_of_app, list_elem_of_singleton in Ha, Hb.
  destruct Ha as [Ha| ->], Hb as [Hb| ->]; [by apply Hsep|by rewrite rect_overlap_comm; apply Hle
    |by apply Hle|done].
Qed.

(** A candidate that is not kept overlaps a kept box by more than the
    threshold. *)
Lemma nms_loop_suppressed boxes nt cands indices p :
  p ∈ cands → p.2 ∉ nms_loop boxes nt cands indices →
  ∃ k, k ∈ nms_loop boxes nt cands indices ∧
    (nt < rect_overlap (rect_of (boxes !!! p.2)) (rect_of (boxes !!! k)))%Q.
Proof.
  revert indices. induction cands as [|[s idx] cands IH]; intros indices Hp Hn; [set_solver|].
  apply elem_of_cons in Hp as [->|Hp]; [|by apply IH]. simpl in Hn |- *.
  destruct (forallb _ indices) eqn:Hk.
  - destruct (nms_loop_sublist boxes nt cands (indices ++ [idx])) as (extra & Hext & _).
    rewrite Hext in Hn. set_solver.
  - destruct (nms_loop_sublist boxes nt cands indices) as (extra & Hext & _).
    rewrite Hext in Hn |- *. apply forallb_false_elem_of in Hk as (k & Hk & Hov).
    exists k. split; [set_solver|]. apply Qnot_le_lt. intros Hle%Qle_bool_iff. congruence.
Qed.

Lemma filter_score_pairs_nil st scores n :
  filter (λ p, Qgtb p.1 st = true) (score_pairs scores n) = [] ↔ Forall (λ s, Qgtb s st = false) scores.
Proof.
  revert n. induction scores as [|s ss IH]; intros n; simpl; [split; by constructor|].
  rewrite filter_cons, Forall_cons. simpl. case_decide as Hs.
  - split; [done|]. intros [Hf _]. congruence.
  - rewrite IH. apply not_true_iff_false in Hs. naive_solver.
Qed.

Lemma max_score_index_nil scores st :
  max_score_index scores st = [] ↔ Forall (λ s, Qgtb s st = false) scores.
Proof.
  rewrite <- (filter_score_pairs_nil st scores 0). split.
  - intros H. apply Permutation_nil_r. by rewrite <- max_score_index_perm, H.
  - intros H. apply Permutation_nil_r. by rewrite max_score_index_perm, H.
Qed.

Lemma nms_loop_nonempty boxes nt cands : cands ≠ [] → nms_loop boxes nt cands [] ≠ [].
Proof.
  destruct cands as [|[s idx] cands]; [done|]. intros _. simpl.
  destruct (nms_loop_sublist boxes nt cands [idx]) as (extra & -> & _). done.
Qed.

Lemma NMSBoxes_valid_indices' boxes scores st nt :
  NoDup (NMSBoxes boxes scores st nt) ∧
  Forall (λ i, 0 <= i < Z.of_nat (length scores) ∧
               ∃ s, scores !! Z.to_nat i = Some s ∧ Qgtb s st = true) (NMSBoxes boxes scores st nt).
Proof.
  unfold NMSBoxes. split; [apply NoDup_fmap_2; [apply _|apply NoDup_nms]|].
  rewrite Forall_fmap, Forall_forall. intros i (s & Hl & Hg)%elem_of_nms_extra. simpl.
  rewrite Nat2Z.id. split; [apply lookup_lt_Some in Hl; lia|eauto].
Qed.

(** [NMSBoxes] returns indices of the input, each at most once, each
    with a score above the score threshold. *)
Theorem NMSBoxes_valid_indices boxes scores st nt :
  NoDup (NMSBoxes boxes scores st nt) ∧
  Forall (λ i, 0 <= i < Z.of_nat (length scores) ∧
               ∃ s, scores !! Z.to_nat i = Some s ∧ Qgtb s st = true) (NMSBoxes boxes scores st nt).
Proof. apply NMSBoxes_valid_indices'. Qed.

(** No two boxes [NMSBoxes] keeps overlap by more than the NMS
    threshold (intersection over union). *)
Theorem NMSBoxes_separated boxes scores st nt a b :
  a ∈ NMSBoxes boxes scores st nt → b ∈ NMSBoxes boxes scores st nt → a ≠ b →
  (rect_overlap (rect_of (boxes !!! Z.to_nat a)) (rect_of (boxes !!! Z.to_nat b)) <= nt)%Q.
Proof.
  unfold NMSBoxes. intros (a' & -> & Ha)%list_elem_of_fmap (b' & -> & Hb)%list_elem_of_fmap Hab.
  rewrite !Nat2Z.id. apply (nms_loop_separated boxes nt (max_score_index scores st) []);
    [intros ?? Hx; by apply not_elem_of_nil in Hx|done|done|congruence].
Qed.

(** A box whose score is above the score threshold and that
    [NMSBoxes] does not keep overlaps a kept box by more than the NMS
    threshold. *)
Theorem NMSBoxes_suppressed boxes scores st nt i s :
  scores !! i = Some s → Qgtb s st = true → Z.of_nat i ∉ NMSBoxes boxes scores st nt →
  ∃ k, k ∈ NMSBoxes boxes scores st nt ∧
    (nt < rect_overlap (rect_of (boxes !!! i)) (rect_of (boxes !!! Z.to_nat k)))%Q.
Proof.
  intros Hs Hg Hn. unfold NMSBoxes in *.
  assert (Hp : (s, i) ∈ max_score_index scores st).
  { rewrite (max_score_index_perm scores st), list_elem_of_filter, elem_of_score_pairs. simpl.
    rewrite Nat.sub_0_r. split_and!; [done|lia|done]. }
  destruct (nms_loop_suppressed boxes nt _ [] (s, i) Hp) as (k & Hk & Hov).
  { intros Hi. apply Hn. apply list_elem_of_fmap. by exists i. }
  exists (Z.of_nat k). rewrite Nat2Z.id. split; [|done]. apply list_elem_of_fmap. by exists k.
Qed.

Lemma NMSBoxes_nil_iff' boxes scores st nt :
  NMSBoxes boxes scores st nt = [] ↔ Forall (λ s, Qgtb s st = false) scores.
Proof.
  unfold NMSBoxes. rewrite <- max_score_index_nil. split.
  - intros H%fmap_nil_inv. destruct (max_score_index scores st) eqn:E; [done|].
    exfalso. by apply (nms_loop_nonempty boxes nt (max_score_index scores st)); rewrite ?E.
  - intros ->. done.
Qed.

(** [NMSBoxes] returns nothing exactly when no score exceeds the score
    threshold: the best candidate is always kept. *)
Theorem NMSBoxes_nil_iff boxes scores st nt :
  NMSBoxes boxes scores st nt = [] ↔ Forall (λ s, Qgtb s st = false) scores.
Proof. apply NMSBoxes_nil_iff'. Qed.

(** ** Witnesses *)

(** Three boxes: the second overlaps the first (IoU 0.68), the third is
    apart from both. *)
Definition three_boxes : list (list Z) := [[0; 0; 10; 10]; [1; 1; 10; 10]; [50; 50; 10; 10]].
Definition three_scores : list Q := [9#10; 4#5; 7#10]%Q.

Lemma NMSBoxes_separated_witness :
  (rect_overlap (rect_of (three_boxes !!! Z.to_nat 0)) (rect_of (three_boxes !!! Z.to_nat 2)) <= 1#5)%Q.
Proof. apply (NMSBoxes_separated three_boxes three_scores (1#5) (1#5) 0 2); [vc_decide|vc_decide|lia]. Defined.

Lemma NMSBoxes_suppressed_witness :
  ∃ k, k ∈ NMSBoxes three_boxes three_scores (1#5) (1#5) ∧
    (1#5 < rect_overlap (rect_of (three_boxes !!! 1%nat)) (rect_of (three_boxes !!! Z.to_nat k)))%Q.
Proof. apply (NMSBoxes_suppressed three_boxes three_scores (1#5) (1#5) 1 (4#5)); [reflexivity|reflexivity|vc_decide]. Defined.
