(* ===== verification/Csv.v ===== *)
(** * static-data.csv: Python's [csv.writer] and [csv.reader]

    Lines 175-177 of [vehicle_count.py] open static-data.csv in append
    mode and write one row with [csv.writer] in its default dialect,
    [excel]: fields separated by [,], quoted with the double quote only when they hold
    a separator, a quote or a line break (QUOTE_MINIMAL), quotes doubled
    inside quoted fields, each row ended by CR LF.  The integers of the row
    are written with [str].

    The writer ([writerow]) follows [join_append_data] and [writerow] of
    CPython's Modules/_csv.c; the reader ([read_csv]) is the state machine
    [parse_process_char] of the same file, fed line by line as
    [Reader_iternext] does, the lines split as a file opened with
    [newline=''] splits them (at LF, CR LF or a lone CR), each line followed
    by the end-of-line mark [EOL].  The script never reads the file back;
    the reader is modelled to state what the file holds.

    Text files: the script opens the file without [newline=''], so on
    Windows every LF it writes becomes CR LF ([translate_newlines]). *)

From stdpp Require Import base list.
From Stdlib Require Import Ascii String Bool ZArith DecimalString.
From S2P Require Import Prelude.

Local Notation "s1 +s+ s2" := (String.append s1 s2) (at level 60, right associativity).

Definition LF : ascii := "010".
Definition CR : ascii := "013".
Definition quotechar : ascii := "034".
Definition delimiter : ascii := ",".
Definition lineterminator : string := String CR (String LF EmptyString).

(** [str] of a Python [int]. *)
Definition py_str (z : Z) : string := NilZero.string_of_int (Z.to_int z).

Fixpoint string_mem (c : ascii) (s : string) : bool :=
  match s with
  | EmptyString => false
  | String c' s' => (c =? c')%char || string_mem c s'
  end.

Fixpoint string_existsb (f : ascii → bool) (s : string) : bool :=
  match s with
  | EmptyString => false
  | String c s' => f c || string_existsb f s'
  end.

(** ** The writer *)

(** A field is quoted when it holds the delimiter, the quote character or
    a character of the line terminator ([join_append_data]). *)
Definition needs_quote (c : ascii) : bool :=
  (c =? delimiter)%char || (c =? quotechar)%char || string_mem c lineterminator.

(** Quotes inside a quoted field are doubled ([doublequote = True]). *)
Fixpoint escape (s : string) : string :=
  match s with
  | EmptyString => EmptyString
  | String c s' =>
      if (c =? quotechar)%char then String quotechar (String quotechar (escape s'))
      else String c (escape s')
  end.

Definition quote (s : string) : string := String quotechar (escape s +s+ String quotechar EmptyString).

Definition csv_field (s : string) : string :=
  if string_existsb needs_quote s then quote s else s.

Fixpoint join_fields (fs : list string) : string :=
  match fs with
  | [] => EmptyString
  | [f] => csv_field f
  | f :: fs' => csv_field f +s+ String delimiter (join_fields fs')
  end.

(** The record of a row ([writerow] before the line terminator): a row
    of fields that join to nothing, that is of one empty field, is written
    as two quotes ([quote EmptyString]), so that it reads back as a field
    and not as an empty row. *)
Definition record_of (fs : list string) : string :=
  let rec := join_fields fs in
  if negb (bool_decide (fs = [])) && String.eqb rec EmptyString then quote EmptyString else rec.

Definition writerow (fs : list string) : string := record_of fs +s+ lineterminator.

(** The text of a file holding the rows, written one after the other. *)
Definition csv_text (rows : list (list string)) : string :=
  foldr String.append EmptyString (writerow <$> rows).

(** A text file opened without [newline=''] writes [linesep] (CR LF on
    Windows, LF elsewhere) for every LF. *)
Fixpoint translate_newlines (linesep : string) (s : string) : string :=
  match s with
  | EmptyString => EmptyString
  | String c s' =>
      if (c =? LF)%char then linesep +s+ translate_newlines linesep s'
      else String c (translate_newlines linesep s')
  end.

(** The [os.linesep] of POSIX systems and of Windows. *)
Definition linesep_posix : string := String LF EmptyString.
Definition linesep_windows : string := String CR (String LF EmptyString).

(** ** The reader *)

Inductive pstate :=
  START_RECORD | START_FIELD | IN_FIELD | IN_QUOTED_FIELD | QUOTE_IN_QUOTED_FIELD | EAT_CRNL.

#[export] Instance pstate_eq_dec : EqDecision pstate.
Proof. solve_decision. Defined.

(** A character of a line, or the end-of-line mark fed after each line. *)
Inductive token := Chr (c : ascii) | EOL.

(** The parser of one record: its state, the field being read and the
    fields read so far. *)
Record parser := mk_parser { state : pstate; field : string; fields : list string }.

Definition parse_save_field (p : parser) (st : pstate) : parser :=
  mk_parser st EmptyString (fields p ++ [field p]).

Definition parse_add_char (p : parser) (st : pstate) (c : ascii) : parser :=
  mk_parser st (field p +s+ String c EmptyString) (fields p).

Definition is_nl (c : ascii) : bool := (c =? LF)%char || (c =? CR)%char.

Definition start_field (p : parser) (t : token) : parser :=
  match t with
  | EOL => parse_save_field p START_RECORD
  | Chr c =>
      if is_nl c then parse_save_field p EAT_CRNL
      else if (c =? quotechar)%char then mk_parser IN_QUOTED_FIELD (field p) (fields p)
      else if (c =? delimiter)%char then parse_save_field p START_FIELD
      else parse_add_char p IN_FIELD c
  end.

(** [parse_process_char] for the excel dialect (no escape character,
    [doublequote], not [strict], [skipinitialspace] off). *)
Definition parse_process_char (p : parser) (t : token) : res parser :=
  match state p, t with
  | START_RECORD, EOL => Ok p
  | START_RECORD, Chr c =>
      if is_nl c then Ok (mk_parser EAT_CRNL (field p) (fields p)) else Ok (start_field p t)
  | START_FIELD, _ => Ok (start_field p t)
  | IN_FIELD, EOL => Ok (parse_save_field p START_RECORD)
  | IN_FIELD, Chr c =>
      if is_nl c then Ok (parse_save_field p EAT_CRNL)
      else if (c =? delimiter)%char then Ok (parse_save_field p START_FIELD)
      else Ok (parse_add_char p IN_FIELD c)
  | IN_QUOTED_FIELD, EOL => Ok p
  | IN_QUOTED_FIELD, Chr c =>
      if (c =? quotechar)%char then Ok (mk_parser QUOTE_IN_QUOTED_FIELD (field p) (fields p))
      else Ok (parse_add_char p IN_QUOTED_FIELD c)
  | QUOTE_IN_QUOTED_FIELD, EOL => Ok (parse_save_field p START_RECORD)
  | QUOTE_IN_QUOTED_FIELD, Chr c =>
      if (c =? quotechar)%char then Ok (parse_add_char p IN_QUOTED_FIELD c)
      else if (c =? delimiter)%char then Ok (parse_save_field p START_FIELD)
      else if is_nl c then Ok (parse_save_field p EAT_CRNL)
      else Ok (parse_add_char p IN_FIELD c)
  | EAT_CRNL, EOL => Ok (mk_parser START_RECORD (field p) (fields p))
  | EAT_CRNL, Chr c => if is_nl c then Ok p else Err CsvError
  end.

Definition parse_reset : parser := mk_parser START_RECORD EmptyString [].

(** The reader: the parser and the rows returned so far. *)
Record reader := mk_reader { rd_parser : parser; rd_rows : list (list string) }.

(** One token; after an end of line that leaves the parser at
    [START_RECORD], the record is returned and the parser reset. *)
Definition read_token (r : reader) (t : token) : res reader :=
  p ← parse_process_char (rd_parser r) t;
  match t, state p with
  | EOL, START_RECORD => Ok (mk_reader parse_reset (rd_rows r ++ [fields p]))
  | _, _ => Ok (mk_reader p (rd_rows r))
  end.

Fixpoint read_tokens (r : reader) (ts : list token) : res reader :=
  match ts with
  | [] => Ok r
  | t :: ts' => r' ← read_token r t; read_tokens r' ts'
  end.

(** Where the line splitting is: at the start of a line, inside one, or
    just after a CR (which ends the line unless an LF follows). *)
Inductive line_pos := LineStart | InLine | AfterCR.

Definition step_line (lp : line_pos) (c : ascii) : list token * line_pos :=
  let fresh :=
    if (c =? LF)%char then ([Chr c; EOL], LineStart)
    else if (c =? CR)%char then ([Chr c], AfterCR)
    else ([Chr c], InLine) in
  match lp with
  | AfterCR => if (c =? LF)%char then ([Chr c; EOL], LineStart) else (EOL :: fresh.1, fresh.2)
  | _ => fresh
  end.

(** The characters of the file fed to the reader. *)
Fixpoint feed (r : reader) (lp : line_pos) (s : string) : res (reader * line_pos) :=
  match s with
  | EmptyString => Ok (r, lp)
  | String c s' =>
      let '(ts, lp') := step_line lp c in
      r' ← read_tokens r ts; feed r' lp' s'
  end.

(** At the end of the input: the last line, when it has no line break,
    gets its end-of-line mark; a field still open (a quoted field not
    closed) makes a last row. *)
Definition finish (r : reader) : list (list string) :=
  let p := rd_parser r in
  if negb (String.eqb (field p) EmptyString) || bool_decide (state p = IN_QUOTED_FIELD)
  then rd_rows r ++ [fields p ++ [field p]] else rd_rows r.

Definition read_csv (text : string) : res (list (list string)) :=
  '(r, lp) ← feed (mk_reader parse_reset []) LineStart text;
  r' ← read_tokens r (match lp with LineStart => [] | _ => [EOL] end);
  Ok (finish r').

(** ** Lemmas *)

Lemma string_app_assoc (a b c : string) : (a +s+ b) +s+ c = a +s+ (b +s+ c).
Proof. induction a as [|x a IH]; simpl; [done|by rewrite IH]. Qed.

Lemma string_app_nil_r (a : string) : a +s+ EmptyString = a.
Proof. induction a as [|x a IH]; simpl; [done|by rewrite IH]. Qed.

(** Feeding a text in two parts. *)
Lemma feed_app r lp a b r1 lp1 :
  feed r lp a = Ok (r1, lp1) → feed r lp (a +s+ b) = feed r1 lp1 b.
Proof.
  revert r lp. induction a as [|c a IH]; intros r lp H; simpl in *; [by injection H as <- <-|].
  destruct (step_line lp c) as [ts lp']. destruct (read_tokens r ts) as [r'|]; simpl in *; [|done].
  by apply IH.
Qed.

Lemma needs_quote_false c :
  needs_quote c = false →
  (c =? delimiter)%char = false ∧ (c =? quotechar)%char = false ∧
  (c =? CR)%char = false ∧ (c =? LF)%char = false.
Proof. unfold needs_quote. simpl. rewrite !orb_false_iff. naive_solver. Qed.

Lemma string_existsb_cons f c s :
  string_existsb f (String c s) = false ↔ f c = false ∧ string_existsb f s = false.
Proof. simpl. apply orb_false_iff. Qed.

Definition rd (st : pstate) (f : string) (fs : list string) (rows : list (list string)) : reader :=
  mk_reader (mk_parser st f fs) rows.
Arguments rd : simpl never.

(** The four characters the dialect distinguishes are distinct. *)
Create Rewrite HintDb csv_chars.
Lemma eqb_LF_CR : (LF =? CR)%char = false. Proof. reflexivity. Qed.
Lemma eqb_LF_Q : (LF =? quotechar)%char = false. Proof. reflexivity. Qed.
Lemma eqb_LF_D : (LF =? delimiter)%char = false. Proof. reflexivity. Qed.
Lemma eqb_CR_LF : (CR =? LF)%char = false. Proof. reflexivity. Qed.
Lemma eqb_CR_Q : (CR =? quotechar)%char = false. Proof. reflexivity. Qed.
Lemma eqb_CR_D : (CR =? delimiter)%char = false. Proof. reflexivity. Qed.
Lemma eqb_Q_LF : (quotechar =? LF)%char = false. Proof. reflexivity. Qed.
Lemma eqb_Q_CR : (quotechar =? CR)%char = false. Proof. reflexivity. Qed.
Lemma eqb_Q_D : (quotechar =? delimiter)%char = false. Proof. reflexivity. Qed.
Lemma eqb_D_LF : (delimiter =? LF)%char = false. Proof. reflexivity. Qed.
Lemma eqb_D_CR : (delimiter =? CR)%char = false. Proof. reflexivity. Qed.
Lemma eqb_D_Q : (delimiter =? quotechar)%char = false. Proof. reflexivity. Qed.
#[export] Hint Rewrite eqb_LF_CR eqb_LF_Q eqb_LF_D eqb_CR_LF eqb_CR_Q eqb_CR_D eqb_Q_LF eqb_Q_CR eqb_Q_D eqb_D_LF eqb_D_CR eqb_D_Q Ascii.eqb_refl : csv_chars.

(** Runs the reader on concrete tokens. *)
Ltac rd_simpl :=
  unfold rd; cbn [feed read_tokens read_token step_line fst snd];
  unfold read_token, parse_process_char, start_field, parse_save_field, parse_add_char, is_nl,
    mbind, res_bind;
  cbn [state field fields rd_parser rd_rows fst snd].

(** Rewrites the known comparisons of characters. *)
Ltac rd_eqb :=
  repeat match goal with
  | H : (?a =? ?b)%char = _ |- context [(?a =? ?b)%char] => rewrite H
  end.

Ltac rd_run :=
  repeat progress (
    unfold rd, read_token, parse_process_char, start_field, parse_save_field, parse_add_char, is_nl, parse_reset, lineterminator,
      mbind, res_bind;
    cbn [feed read_tokens step_line state field fields rd_parser rd_rows fst snd orb andb];
    rd_eqb; autorewrite with csv_chars).

(** The line position before a field: a field never follows a lone CR. *)
Definition line_ok (lp : line_pos) : Prop := lp = LineStart ∨ lp = InLine.

(** The parser is ready for a field: at the start of a field, or at the
    start of a record with no field read. *)
Definition before_field (p : parser) : Prop :=
  field p = EmptyString ∧ (state p = START_FIELD ∨ state p = START_RECORD ∧ fields p = []).

(** The parser has read field [f] after the fields [fs0], and the next
    character decides whether the field ends there. *)
Definition after_field (p : parser) (lp : line_pos) (fs0 : list string) (f : string) : Prop :=
  fields p = fs0 ∧ field p = f ∧ line_ok lp ∧
  (state p = IN_FIELD ∨ state p = QUOTE_IN_QUOTED_FIELD ∨
   f = EmptyString ∧ (state p = START_FIELD ∨ state p = START_RECORD ∧ fs0 = [])).

(** Inside a quoted field, every character but the quote is taken as it
    is, line breaks included, wherever the lines are split. *)
Lemma in_quoted_char f fs rows lp c :
  (c =? quotechar)%char = false →
  read_tokens (rd IN_QUOTED_FIELD f fs rows) (step_line lp c).1 =
    Ok (rd IN_QUOTED_FIELD (f +s+ String c EmptyString) fs rows).
Proof.
  intros Hq. destruct lp; unfold step_line;
    destruct (c =? LF)%char, (c =? CR)%char; simpl; rd_simpl; rewrite ?Hq; reflexivity.
Qed.

Lemma step_line_lp lp c : (c =? quotechar)%char = true → (step_line lp c).2 = InLine.
Proof. intros ->%Ascii.eqb_eq. by destruct lp. Qed.

Lemma escape_feed s f fs rows lp :
  ∃ lp', feed (rd IN_QUOTED_FIELD f fs rows) lp (escape s) = Ok (rd IN_QUOTED_FIELD (f +s+ s) fs rows, lp').
Proof.
  revert f lp. induction s as [|c s IH]; intros f lp; simpl.
  { rewrite string_app_nil_r. by exists lp. }
  destruct (c =? quotechar)%char eqn:Hq.
  - apply Ascii.eqb_eq in Hq as ->. simpl.
    destruct (IH (f +s+ String quotechar EmptyString) InLine) as (lp' & Hf).
    rewrite string_app_assoc in Hf. simpl in Hf. unfold rd in Hf.
    exists lp'. destruct lp; rd_simpl; exact Hf.
  - pose proof (in_quoted_char f fs rows lp c Hq) as Hc.
    cbn [feed]. destruct (step_line lp c) as [ts lp1]. simpl in Hc. rewrite Hc. simpl.
    destruct (IH (f +s+ String c EmptyString) lp1) as (lp' & Hf).
    rewrite string_app_assoc in Hf. by exists lp'.
Qed.

Lemma plain_in_field s f fs rows :
  string_existsb needs_quote s = false →
  feed (rd IN_FIELD f fs rows) InLine s = Ok (rd IN_FIELD (f +s+ s) fs rows, InLine).
Proof.
  revert f. induction s as [|c s IH]; intros f Hs.
  { by rewrite string_app_nil_r. }
  apply string_existsb_cons in Hs as [(Hd & Hq & Hcr & Hlf)%needs_quote_false Hs].
  rd_run.
  pose proof (IH (f +s+ String c EmptyString) Hs) as Hf. unfold rd in Hf.
  rewrite Hf, string_app_assoc. done.
Qed.

(** Reading one field as the writer writes it. *)
Lemma field_body f p rows lp :
  before_field p → line_ok lp →
  ∃ p' lp', feed (mk_reader p rows) lp (csv_field f) = Ok (mk_reader p' rows, lp') ∧
    after_field p' lp' (fields p) f.
Proof.
  intros Hb Hlp. unfold csv_field. destruct (string_existsb needs_quote f) eqn:Hn.
  - destruct (escape_feed f EmptyString (fields p) rows InLine) as (lp1 & Hesc).
    exists (mk_parser QUOTE_IN_QUOTED_FIELD f (fields p)), InLine. split.
    + unfold quote. unfold rd in Hesc.
      destruct p as [st fld fs0], Hb as [Hf [Hs|[Hs Hfs]]], Hlp as [-> | ->]; simpl in *; subst;
        rd_run; rewrite (feed_app _ _ _ _ _ _ Hesc); destruct lp1; rd_run; reflexivity.
    + split_and!; [done|done|by right|by right; left].
  - destruct f as [|c f].
    { exists p, lp. destruct p as [st fld fs0], Hb as [Hf Hs]. simpl in *. subst.
      split; [done|]. split_and!; [done|done|done|]. right; right. naive_solver. }
    apply string_existsb_cons in Hn as [(Hd & Hq & Hcr & Hlf)%needs_quote_false Hn].
    pose proof (plain_in_field f (String c EmptyString) (fields p) rows Hn) as Hf.
    exists (mk_parser IN_FIELD (String c f) (fields p)), InLine. split.
    + destruct p as [st fld fs0], Hb as [Hfl [Hs|[Hs Hfs]]], Hlp as [-> | ->]; simpl in *; subst;
        rd_simpl; rewrite ?Hlf, ?Hcr; rd_simpl; rewrite ?Hlf, ?Hcr, ?Hq, ?Hd; simpl; exact Hf.
    + split_and!; [done|done|by right|by left].
Qed.

Lemma field_delim p lp fs0 f rows :
  after_field p lp fs0 f →
  feed (mk_reader p rows) lp (String delimiter EmptyString) = Ok (rd START_FIELD EmptyString (fs0 ++ [f]) rows, InLine).
Proof.
  destruct p as [st fld fs']. intros (Hfs & Hf & [-> | ->] & Hs); simpl in *; subst;
    destruct Hs as [->|[->|(-> & [-> | [-> ->]])]]; rd_run; reflexivity.
Qed.

(** The reader after the record of a row: the last field read, or
    nothing read for the empty row. *)
Definition after_record (p : parser) (lp : line_pos) (r : list string) : Prop :=
  (∃ fs0 f, r = fs0 ++ [f] ∧ after_field p lp fs0 f ∧ state p ≠ START_RECORD) ∨
  (r = [] ∧ p = parse_reset ∧ lp = LineStart).

Lemma record_crlf p lp r rows :
  after_record p lp r →
  feed (mk_reader p rows) lp lineterminator = Ok (mk_reader parse_reset (rows ++ [r]), LineStart).
Proof.
  intros [(fs0 & f & -> & (Hfs & Hf & Hlp & Hs) & Hne)|(-> & -> & ->)]; [|rd_run; reflexivity].
  destruct p as [st fld fs']. simpl in *. subst. destruct Hlp as [-> | ->];
    destruct Hs as [->|[->|(-> & [-> | [-> ->]])]]; try done; rd_run; reflexivity.
Qed.

(** On Windows the terminator is written CR CR LF: the lone CR ends the
    line, and the reader returns an empty row after each row. *)
Lemma record_crcrlf p lp r rows :
  after_record p lp r →
  feed (mk_reader p rows) lp (String CR lineterminator) =
    Ok (mk_reader parse_reset (rows ++ [r; []]), LineStart).
Proof.
  intros [(fs0 & f & -> & (Hfs & Hf & Hlp & Hs) & Hne)|(-> & -> & ->)]; [|rd_run; by rewrite <- app_assoc].
  destruct p as [st fld fs']. simpl in *. subst. destruct Hlp as [-> | ->];
    destruct Hs as [->|[->|(-> & [-> | [-> ->]])]]; try done; rd_run; by rewrite <- app_assoc.
Qed.

Lemma join_body f fs p rows lp :
  before_field p → line_ok lp →
  ∃ p' lp' fs0 f', feed (mk_reader p rows) lp (join_fields (f :: fs)) = Ok (mk_reader p' rows, lp') ∧
    f :: fs = fs0 ++ [f'] ∧ after_field p' lp' (fields p ++ fs0) f'.
Proof.
  revert f p lp. induction fs as [|g fs IH]; intros f p lp Hb Hlp.
  { destruct (field_body f p rows lp Hb Hlp) as (p' & lp' & Hf & Ha).
    exists p', lp', [], f. by rewrite app_nil_r. }
  destruct (field_body f p rows lp Hb Hlp) as (p1 & lp1 & Hf & Ha).
  pose proof (field_delim p1 lp1 (fields p) f rows Ha) as Hd.
  destruct (IH g (mk_parser START_FIELD EmptyString (fields p ++ [f])) InLine) as (p' & lp' & fs0 & f' & Hj & Heq & Ha');
    [split; [done|by left]|by right|].
  exists p', lp', (f :: fs0), f'. split_and!; [|by rewrite Heq|simpl in Ha'; by rewrite <- app_assoc in Ha'].
  change (join_fields (f :: g :: fs)) with (csv_field f +s+ (String delimiter EmptyString +s+ join_fields (g :: fs))).
  rewrite (feed_app _ _ _ _ _ _ Hf), (feed_app _ _ _ _ _ _ Hd). exact Hj.
Qed.

Lemma csv_field_nil f : csv_field f = EmptyString → f = EmptyString.
Proof. unfold csv_field. by destruct (string_existsb _ _). Qed.

Lemma record_body r rows :
  ∃ p lp, feed (mk_reader parse_reset rows) LineStart (record_of r) = Ok (mk_reader p rows, lp) ∧
    after_record p lp r.
Proof.
  unfold record_of. destruct r as [|f fs]; [exists parse_reset, LineStart; split; [done|by right]|].
  rewrite bool_decide_false by done. cbn [negb andb].
  destruct (String.eqb (join_fields (f :: fs)) EmptyString) eqn:E.
  - apply String.eqb_eq in E. destruct fs as [|g fs].
    + apply csv_field_nil in E as ->. unfold quote. simpl. rd_run.
      eexists _, _. split; [reflexivity|]. left. exists [], EmptyString. split; [done|].
      split; [split_and!; [done|done|by right|by right; left]|done].
    + simpl in E. by destruct (csv_field f).
  - destruct (join_body f fs parse_reset rows LineStart) as (p & lp & fs0 & f' & Hj & Heq & Ha);
      [split; [done|by right]|by left|].
    unfold parse_reset in Ha. simpl in Ha.
    exists p, lp. split; [exact Hj|]. left. exists fs0, f'. split_and!; [done|done|].
    destruct Ha as (_ & _ & _ & Hs). intros Hst.
    destruct Hs as [Hs|[Hs|(-> & [Hs|[_ ->]])]]; try (rewrite Hst in Hs; done).
    injection Heq as -> ->. done.
Qed.

Lemma writerow_feed r rows :
  feed (mk_reader parse_reset rows) LineStart (writerow r) =
    Ok (mk_reader parse_reset (rows ++ [r]), LineStart).
Proof.
  destruct (record_body r rows) as (p & lp & Hb & Ha). unfold writerow.
  rewrite (feed_app _ _ _ _ _ _ Hb). by apply record_crlf.
Qed.

Lemma feed_csv_text rows acc :
  feed (mk_reader parse_reset acc) LineStart (csv_text rows) =
    Ok (mk_reader parse_reset (acc ++ rows), LineStart).
Proof.
  revert acc. induction rows as [|r rows IH]; intros acc; [by rewrite app_nil_r|].
  change (csv_text (r :: rows)) with (writerow r +s+ csv_text rows).
  rewrite (feed_app _ _ _ _ _ _ (writerow_feed r acc)), IH. by rewrite <- app_assoc.
Qed.

(** ** Line breaks in a text file *)

Lemma string_mem_app c a b : string_mem c (a +s+ b) = string_mem c a || string_mem c b.
Proof. induction a as [|x a IH]; simpl; [done|by rewrite IH, orb_assoc]. Qed.

Lemma translate_app ls a b :
  translate_newlines ls (a +s+ b) = translate_newlines ls a +s+ translate_newlines ls b.
Proof.
  induction a as [|x a IH]; simpl; [done|]. rewrite IH.
  destruct (x =? LF)%char; [by rewrite string_app_assoc|done].
Qed.

Lemma translate_no_lf ls s : string_mem LF s = false → translate_newlines ls s = s.
Proof.
  induction s as [|x s IH]; cbn [translate_newlines string_mem]; [done|].
  rewrite orb_false_iff, Ascii.eqb_sym.
  intros [-> Hs]. by rewrite IH.
Qed.

Lemma string_mem_escape s : string_mem LF (escape s) = string_mem LF s.
Proof.
  induction s as [|x s IH]; cbn [escape string_mem]; [done|].
  destruct (x =? quotechar)%char eqn:Hx; cbn [string_mem]; rewrite IH; [|done].
  apply Ascii.eqb_eq in Hx as ->. by rewrite eqb_LF_Q.
Qed.

Lemma string_mem_csv_field f : string_mem LF (csv_field f) = string_mem LF f.
Proof.
  unfold csv_field, quote. destruct (string_existsb _ _); [|done]. simpl.
  by rewrite string_mem_app, string_mem_escape, orb_false_r.
Qed.

Lemma string_mem_record fs :
  Forall (λ f, string_mem LF f = false) fs → string_mem LF (record_of fs) = false.
Proof.
  intros Hfs. unfold record_of. destruct (_ && _); [done|].
  induction Hfs as [|f fs Hf Hfs IH]; [done|]. destruct fs as [|g fs]; simpl.
  - by rewrite string_mem_csv_field.
  - rewrite string_mem_app, string_mem_csv_field, Hf. simpl. exact IH.
Qed.

Lemma translate_writerow fs :
  Forall (λ f, string_mem LF f = false) fs →
  translate_newlines linesep_windows (writerow fs) = record_of fs +s+ String CR lineterminator.
Proof.
  intros Hfs. unfold writerow. rewrite translate_app, translate_no_lf by by apply string_mem_record.
  reflexivity.
Qed.

Lemma feed_windows rows acc :
  Forall (Forall (λ f, string_mem LF f = false)) rows →
  feed (mk_reader parse_reset acc) LineStart (translate_newlines linesep_windows (csv_text rows)) =
    Ok (mk_reader parse_reset (acc ++ List.concat ((λ r, [r; []]) <$> rows)), LineStart).
Proof.
  intros Hrows. revert acc. induction Hrows as [|r rows Hr Hrows IH]; intros acc; [by rewrite app_nil_r|].
  change (csv_text (r :: rows)) with (writerow r +s+ csv_text rows).
  rewrite translate_app, translate_writerow by done.
  destruct (record_body r acc) as (p & lp & Hb & Ha).
  rewrite string_app_assoc, (feed_app _ _ _ _ _ _ Hb), (feed_app _ _ _ _ _ _ (record_crcrlf p lp r acc Ha)), IH.
  by rewrite <- app_assoc.
Qed.

Lemma csv_text_app a b : csv_text (a ++ b) = csv_text a +s+ csv_text b.
Proof.
  induction a as [|r a IH]; [done|].
  change (csv_text ((r :: a) ++ b)) with (writerow r +s+ csv_text (a ++ b)).
  change (csv_text (r :: a)) with (writerow r +s+ csv_text a). by rewrite IH, string_app_assoc.
Qed.

Lemma read_csv_csv_text rows : read_csv (csv_text rows) = Ok rows.
Proof. unfold read_csv. rewrite feed_csv_text. reflexivity. Qed.

(** Reading back what [csv.writer] writes gives the rows written:
    for every list of rows of any strings (separators, quotes and line
    breaks included, empty rows and rows of one empty field included), the
    reader, fed the file's lines as a file opened with [newline=''] gives
    them, returns exactly these rows. *)
Theorem csv_roundtrip rows : read_csv (csv_text rows) = Ok rows.
Proof. apply read_csv_csv_text. Qed.

Lemma read_csv_windows rows :
  Forall (Forall (λ f, string_mem LF f = false)) rows →
  read_csv (translate_newlines linesep_windows (csv_text rows)) = Ok (List.concat ((λ r, [r; []]) <$> rows)).
Proof. intros Hrows. unfold read_csv. rewrite (feed_windows rows [] Hrows). reflexivity. Qed.

Lemma translate_posix s : translate_newlines linesep_posix s = s.
Proof.
  induction s as [|c s IH]; cbn [translate_newlines]; [done|]. rewrite IH.
  destruct (c =? LF)%char eqn:Hc; [|done]. by apply Ascii.eqb_eq in Hc as ->.
Qed.

(** [str] of an integer is made of digits and a minus sign. *)
Lemma py_str_no_lf z : string_mem LF (py_str z) = false.
Proof.
  assert (Hu : ∀ d, string_mem LF (NilEmpty.string_of_uint d) = false) by (induction d; simpl; auto).
  unfold py_str, NilZero.string_of_int, NilZero.string_of_uint.
  destruct (Z.to_int z) as [d|d]; destruct d; simpl; auto.
Qed.

(** When the rows are written through a text file that turns LF into
    CR LF, as the script's file on Windows does, each record ends with
    CR CR LF and the reader returns an empty row after every row written
    (for fields without line breaks). *)
Theorem csv_windows_blank_rows rows :
  Forall (Forall (λ f, string_mem LF f = false)) rows →
  read_csv (translate_newlines linesep_windows (csv_text rows)) = Ok (List.concat ((λ r, [r; []]) <$> rows)).
Proof. apply read_csv_windows. Qed.

(** ** Witnesses *)

Lemma csv_windows_blank_rows_witness :
  read_csv (translate_newlines linesep_windows (csv_text [["a.jpg"; "1"; "0"; "0"; "0"]; ["b,c.jpg"; "2"]]%string)) =
    Ok (List.concat ((λ r, [r; []]) <$> [["a.jpg"; "1"; "0"; "0"; "0"]; ["b,c.jpg"; "2"]]%string)).
Proof. apply csv_windows_blank_rows. repeat constructor. Defined.
