(* ===== verification/Geometry.v ===== *)
(** * Configuration and geometry of [src/vehicle_count.py]

    The reference lines (lines 22-25), the COCO class indices kept by the
    detector (line 34), [find_center] (lines 55-60), and the band of the
    frame a centre falls in, following the [if]/[elif] chain of
    [count_vehicle] (lines 79-89). *)

From stdpp Require Import base list numbers.
From Stdlib Require Import ZArith QArith Lia.
From S2P Require Import Prelude.

Open Scope Z_scope.

Module Config.

(** [middle_line_position = 225] and the two lines 15 pixels away. *)
Definition middle_line_position : Z := 225.
Definition up_line_position : Z := middle_line_position - 15.
Definition down_line_position : Z := middle_line_position + 15.

(** [required_class_index = [2, 3, 5, 7]]: car, motorbike, bus, truck in
    coco.names. *)
Definition required_class_index : list Z := [2; 3; 5; 7].

End Config.
Export Config.

(** [find_center(x, y, w, h)]: [int(w / 2)] truncates the float quotient
    toward zero. *)
Definition find_center (x y w h : Z) : Z * Z :=
  let x1 := py_int (w # 2) in
  let y1 := py_int (h # 2) in
  let cx := x + x1 in
  let cy := y + y1 in
  (cx, cy).

(** A detection handed to the tracker, [[x, y, w, h, index]] (line 134). *)
Record detection := mk_det {
  d_x : Z; d_y : Z; d_w : Z; d_h : Z; d_index : Z
}.

(** A tracked box returned by the tracker, [[x, y, w, h, id, index]]
    (line 72). *)
Record box_id := mk_box_id {
  bi_x : Z; bi_y : Z; bi_w : Z; bi_h : Z; bi_id : Z; bi_index : Z
}.

(** The detection a tracked box was made from. *)
Definition box_detection (b : box_id) : detection :=
  mk_det (bi_x b) (bi_y b) (bi_w b) (bi_h b) (bi_index b).

(** The position of a centre relative to the three lines, in the order in
    which [count_vehicle] tests them.  [OnLine] is the case where none of
    the four conditions holds. *)
Inductive band := NearUp | NearDown | FarUp | FarDown | OnLine.

#[export] Instance band_eq_dec : EqDecision band.
Proof. solve_decision. Defined.

Definition band_of (iy : Z) : band :=
  if (iy >? up_line_position) && (iy <? middle_line_position) then NearUp
  else if (iy <? down_line_position) && (iy >? middle_line_position) then NearDown
  else if iy <? up_line_position then FarUp
  else if iy >? down_line_position then FarDown
  else OnLine.

(** The y coordinate of the centre of a tracked box. *)
Definition center_y (b : box_id) : Z :=
  snd (find_center (bi_x b) (bi_y b) (bi_w b) (bi_h b)).

(** ** Lemmas *)

Ltac unfold_lines :=
  unfold up_line_position, down_line_position, middle_line_position in *.

Lemma find_center_eq x y w h :
  find_center x y w h = (x + Z.quot w 2, y + Z.quot h 2).
Proof. reflexivity. Qed.

(** The band of a centre, in terms of the three lines. *)
Lemma band_of_NearUp iy : band_of iy = NearUp ↔ up_line_position < iy < middle_line_position.
Proof. unfold band_of. unfold_lines. zcmp; split; intros; done || lia. Qed.

Lemma band_of_NearDown iy : band_of iy = NearDown ↔ middle_line_position < iy < down_line_position.
Proof. unfold band_of. unfold_lines. zcmp; split; intros; done || lia. Qed.

Lemma band_of_FarUp iy : band_of iy = FarUp ↔ iy < up_line_position.
Proof. unfold band_of. unfold_lines. zcmp; split; intros; done || lia. Qed.

Lemma band_of_FarDown iy : band_of iy = FarDown ↔ down_line_position < iy.
Proof. unfold band_of. unfold_lines. zcmp; split; intros; done || lia. Qed.

Lemma band_of_OnLine iy :
  band_of iy = OnLine ↔ iy = up_line_position ∨ iy = middle_line_position ∨ iy = down_line_position.
Proof. unfold band_of. unfold_lines. zcmp; split; intros; done || lia. Qed.

Lemma required_class_index_bound k : k ∈ required_class_index → 2 <= k <= 7.
Proof. unfold required_class_index. rewrite !elem_of_cons, elem_of_nil. lia. Qed.

(** [required_class_index.index(k)] of a vehicle class is a class bucket. *)
Lemma py_index_required k :
  k ∈ required_class_index → ∃ i, py_index required_class_index k = Ok i ∧ 0 <= i < 4.
Proof.
  intros Hk. pose proof (py_index_elem_of k required_class_index Hk) as Hok.
  destruct (py_index _ _) as [i|] eqn:Hi; [|done].
  exists i. split; [done|]. apply py_index_Ok in Hi as [Hi0 Hl].
  apply lookup_lt_Some in Hl. simpl in Hl. lia.
Qed.
