(* ===== verification/Counter.v ===== *)
(** * The crossing counter: [count_vehicle] of [src/vehicle_count.py]

    The module-level lists of lines 64-67 ([temp_up_list],
    [temp_down_list], [up_list], [down_list]) become the record
    [counter_state]; [count_vehicle] (lines 71-95) becomes a function from a
    [box_id] and a state to the new state or the exception the code raises;
    the loop of lines 138-139 that calls it on every tracked box is
    [count_boxes].  Drawing the centre (line 95) has no effect on the state
    and is not modelled.

    Theorems: the well-formedness invariant and its preservation, the
    absence of [IndexError]/[ValueError] on valid class buckets, the effect
    of one observation in every band, monotonicity of the counters, the
    one-count-per-pending-entry accounting, the per-identity decomposition
    of a run, and the refinement of the spec's three-state machine
    together with the traces on which the code departs from it. *)

From stdpp Require Import base list numbers sets.
From Stdlib Require Import ZArith QArith Lia.
From S2P Require Import Prelude Geometry.

Open Scope Z_scope.

(** Lines 64-67. *)
Record counter_state := mk_counter {
  temp_up_list : list Z;
  temp_down_list : list Z;
  up_list : list Z;
  down_list : list Z
}.

Definition counter_init : counter_state :=
  mk_counter [] [] [0; 0; 0; 0] [0; 0; 0; 0].

(** [list[index] = list[index] + 1] (lines 88 and 92): the read, then the
    write, each raising [IndexError] out of range. *)
Definition py_incr (l : list Z) (index : Z) : res (list Z) :=
  c ← l.[index];
  py_setitem l index (c + 1).

(** [count_vehicle(box_id, img)], lines 71-92. *)
Definition count_vehicle (b : box_id) (s : counter_state) : res counter_state :=
  let id := bi_id b in
  let index := bi_index b in
  let '(ix, iy) := find_center (bi_x b) (bi_y b) (bi_w b) (bi_h b) in
  let '(mk_counter tul tdl ul dl) := s in
  if (iy >? up_line_position) && (iy <? middle_line_position) then
    if negb (py_in id tul) then Ok (mk_counter (py_append tul id) tdl ul dl)
    else Ok s
  else if (iy <? down_line_position) && (iy >? middle_line_position) then
    if negb (py_in id tdl) then Ok (mk_counter tul (py_append tdl id) ul dl)
    else Ok s
  else if iy <? up_line_position then
    if py_in id tdl then
      tdl' ← py_remove tdl id;
      ul' ← py_incr ul index;
      Ok (mk_counter tul tdl' ul' dl)
    else Ok s
  else if iy >? down_line_position then
    if py_in id tul then
      tul' ← py_remove tul id;
      dl' ← py_incr dl index;
      Ok (mk_counter tul' tdl ul dl')
    else Ok s
  else Ok s.

(** [for box_id in boxes_ids: count_vehicle(box_id, img)], lines 138-139:
    the first exception ends the loop. *)
Fixpoint count_boxes (bs : list box_id) (s : counter_state) : res counter_state :=
  match bs with
  | [] => Ok s
  | b :: bs' => s' ← count_vehicle b s; count_boxes bs' s'
  end.


(** ** Well-formedness

    The pending lists never hold an identity twice (the code appends only
    after [id not in ...]), and the two counter lists keep one entry per
    class bucket of [required_class_index], all non-negative. *)
Definition counter_wf (s : counter_state) : Prop :=
  NoDup (temp_up_list s) ∧ NoDup (temp_down_list s) ∧
  length (up_list s) = length required_class_index ∧
  length (down_list s) = length required_class_index ∧
  Forall (λ c, 0 <= c) (up_list s) ∧ Forall (λ c, 0 <= c) (down_list s).

#[export] Instance counter_wf_dec s : Decision (counter_wf s).
Proof. unfold counter_wf. apply _. Defined.

(** The crossing condition of lines 86 and 90: the centre is past one of
    the outer lines and the identity is pending on the other side. *)
Definition crossing_fires (b : box_id) (s : counter_state) : Prop :=
  (band_of (center_y b) = FarUp ∧ bi_id b ∈ temp_down_list s) ∨
  (band_of (center_y b) = FarDown ∧ bi_id b ∈ temp_up_list s).

(** ** Helper lemmas *)

(** [count_vehicle] by the band of the centre. *)
Lemma count_vehicle_eq b s :
  count_vehicle b s =
  match band_of (center_y b) with
  | NearUp =>
      if negb (py_in (bi_id b) (temp_up_list s))
      then Ok (mk_counter (py_append (temp_up_list s) (bi_id b)) (temp_down_list s)
                 (up_list s) (down_list s))
      else Ok s
  | NearDown =>
      if negb (py_in (bi_id b) (temp_down_list s))
      then Ok (mk_counter (temp_up_list s) (py_append (temp_down_list s) (bi_id b))
                 (up_list s) (down_list s))
      else Ok s
  | FarUp =>
      if py_in (bi_id b) (temp_down_list s) then
        tdl' ← py_remove (temp_down_list s) (bi_id b);
        ul' ← py_incr (up_list s) (bi_index b);
        Ok (mk_counter (temp_up_list s) tdl' ul' (down_list s))
      else Ok s
  | FarDown =>
      if py_in (bi_id b) (temp_up_list s) then
        tul' ← py_remove (temp_up_list s) (bi_id b);
        dl' ← py_incr (down_list s) (bi_index b);
        Ok (mk_counter tul' (temp_down_list s) (up_list s) dl')
      else Ok s
  | OnLine => Ok s
  end.
Proof.
  unfold count_vehicle, band_of, center_y.
  destruct (find_center _ _ _ _) as [ix iy]. destruct s as [tul tdl ul dl]. simpl.
  repeat match goal with |- context [if ?c then _ else _] => destruct c end; done.
Qed.

Lemma py_incr_Ok l i l' :
  py_incr l i = Ok l' ↔
  ∃ n, py_norm_index (Z.of_nat (length l)) i = Some n ∧ l' = <[n := l !!! n + 1]> l.
Proof.
  unfold py_incr. split.
  - intros (c & Hc & Hs)%res_bind_Ok. unfold py_getitem in Hc.
    destruct (py_norm_index _ i) as [n|] eqn:E; [|done].
    destruct (l !! n) as [v|] eqn:Hv; inv_res.
    apply py_setitem_Ok in Hs as (n' & E' & ->). rewrite E in E'. inv_res.
    exists n'. split; [done|]. by rewrite (list_lookup_total_correct _ _ _ Hv).
  - intros (n & E & ->). destruct (py_getitem_Ok l i n E) as (v & Hv & ->). simpl.
    apply py_setitem_Ok. exists n. rewrite (list_lookup_total_correct _ _ _ Hv). done.
Qed.

Lemma py_incr_Err l i e :
  py_incr l i = Err e ↔ e = IndexError ∧ ¬ (- Z.of_nat (length l) <= i < Z.of_nat (length l)).
Proof.
  split.
  - intros H. destruct (decide (- Z.of_nat (length l) <= i < Z.of_nat (length l))) as [Hi|Hi].
    + destruct (py_setitem_in_range l i 0 Hi) as (n & _ & E & _).
      destruct (py_getitem_Ok l i n E) as (v & _ & Hg).
      unfold py_incr in H. rewrite Hg in H. simpl in H. unfold py_setitem in H.
      rewrite E in H. done.
    + unfold py_incr in H. rewrite py_getitem_out in H by done. simpl in H. inv_res. by split.
  - intros [-> Hi]. unfold py_incr. by rewrite py_getitem_out.
Qed.

Lemma length_py_incr l i l' : py_incr l i = Ok l' → length l' = length l.
Proof. intros (n & _ & ->)%py_incr_Ok. apply length_insert. Qed.

Lemma Forall_nonneg_py_incr l i l' :
  Forall (λ c, 0 <= c) l → py_incr l i = Ok l' → Forall (λ c, 0 <= c) l'.
Proof.
  intros Hl (n & E & ->)%py_incr_Ok. apply Forall_insert; [done|].
  apply py_norm_index_bound in E.
  rewrite Forall_lookup in Hl.
  destruct (lookup_lt_is_Some_2 l n) as [v Hv]; [lia|].
  rewrite (list_lookup_total_correct _ _ _ Hv). specialize (Hl n v Hv). lia.
Qed.

Lemma py_incr_nonneg l i :
  0 <= i < Z.of_nat (length l) →
  py_incr l i = Ok (<[Z.to_nat i := l !!! Z.to_nat i + 1]> l).
Proof.
  intros Hi. apply py_incr_Ok. exists (Z.to_nat i). split; [|done].
  apply py_norm_index_Some. left. split; [lia|done].
Qed.

#[export] Hint Resolve length_py_incr Forall_nonneg_py_incr : vc.

(** The two crossing branches, once [remove] is known to succeed. *)
Lemma count_vehicle_far_up_pending b s :
  band_of (center_y b) = FarUp → bi_id b ∈ temp_down_list s →
  ∃ tdl', py_remove (temp_down_list s) (bi_id b) = Ok tdl' ∧
    count_vehicle b s =
    (λ ul', mk_counter (temp_up_list s) tdl' ul' (down_list s)) <$> py_incr (up_list s) (bi_index b).
Proof.
  intros Hb Hin. rewrite count_vehicle_eq, Hb.
  apply py_in_true in Hin as Hin'. rewrite Hin'.
  destruct (py_remove_split _ _ (proj1 (py_in_true _ _) Hin')) as (l1 & l2 & _ & _ & ->).
  eexists. split; [done|]. simpl. by destruct (py_incr _ _).
Qed.

Lemma count_vehicle_far_down_pending b s :
  band_of (center_y b) = FarDown → bi_id b ∈ temp_up_list s →
  ∃ tul', py_remove (temp_up_list s) (bi_id b) = Ok tul' ∧
    count_vehicle b s =
    (λ dl', mk_counter tul' (temp_down_list s) (up_list s) dl') <$> py_incr (down_list s) (bi_index b).
Proof.
  intros Hb Hin. rewrite count_vehicle_eq, Hb.
  apply py_in_true in Hin as Hin'. rewrite Hin'.
  destruct (py_remove_split _ _ (proj1 (py_in_true _ _) Hin')) as (l1 & l2 & _ & _ & ->).
  eexists. split; [done|]. simpl. by destruct (py_incr _ _).
Qed.

(** Outside the two crossing branches, the state changes only by arming. *)
Lemma count_vehicle_no_crossing b s :
  ¬ crossing_fires b s →
  count_vehicle b s =
  match band_of (center_y b) with
  | NearUp =>
      Ok (if py_in (bi_id b) (temp_up_list s) then s
          else mk_counter (py_append (temp_up_list s) (bi_id b)) (temp_down_list s)
                 (up_list s) (down_list s))
  | NearDown =>
      Ok (if py_in (bi_id b) (temp_down_list s) then s
          else mk_counter (temp_up_list s) (py_append (temp_down_list s) (bi_id b))
                 (up_list s) (down_list s))
  | _ => Ok s
  end.
Proof.
  unfold crossing_fires. intros Hn. rewrite count_vehicle_eq.
  destruct (band_of _) eqn:Hb;
    repeat match goal with |- context [py_in ?x ?l] => destruct (py_in x l) eqn:? end;
    rewrite ?py_in_true in *; naive_solver.
Qed.

(** ** Order on counter states: every counter is at least as large *)

Definition counts_le (s s' : counter_state) : Prop :=
  Forall2 Z.le (up_list s) (up_list s') ∧ Forall2 Z.le (down_list s) (down_list s').

#[export] Instance counts_le_preorder : PreOrder counts_le.
Proof.
  split.
  - intros s. split; reflexivity.
  - intros s1 s2 s3 [H1 H2] [H3 H4]. split; etrans; eauto.
Qed.

Lemma Forall2_le_incr (l : list Z) n :
  Forall2 Z.le l (<[n := l !!! n + 1]> l).
Proof.
  revert n. induction l as [|c l IH]; intros [|n]; simpl; constructor;
    try done; try lia; try reflexivity; apply IH.
Qed.

Lemma Forall2_le_py_incr l i l' : py_incr l i = Ok l' → Forall2 Z.le l l'.
Proof. intros (n & _ & ->)%py_incr_Ok. apply Forall2_le_incr. Qed.

(** ** Behaviour of one observation *)

(** C1: an identity pending on the down side and seen beyond the upper
    line is counted once as an upward crossing: it leaves [temp_down_list],
    [up_list] grows by one at its class bucket, nothing else changes. *)
Theorem count_vehicle_counts_up b s :
  counter_wf s → band_of (center_y b) = FarUp → bi_id b ∈ temp_down_list s →
  0 <= bi_index b < 4 →
  ∃ s', count_vehicle b s = Ok s' ∧
    temp_up_list s' = temp_up_list s ∧
    (∀ j, j ∈ temp_down_list s' ↔ j ∈ temp_down_list s ∧ j ≠ bi_id b) ∧
    up_list s' = <[Z.to_nat (bi_index b) := up_list s !!! Z.to_nat (bi_index b) + 1]> (up_list s) ∧
    down_list s' = down_list s.
Proof.
  intros (_ & Hnd & Hlen & _) Hb Hin Hi.
  destruct (count_vehicle_far_up_pending b s Hb Hin) as (tdl' & Hr & ->).
  destruct (py_remove_NoDup _ _ _ Hnd Hr) as (_ & Hmem & _).
  rewrite py_incr_nonneg by (rewrite Hlen; simpl; lia).
  eexists. split; [done|]. simpl. split_and!; done.
Qed.

(** C2: symmetrically, an identity pending on the up side and seen
    beyond the lower line is counted once as a downward crossing. *)
Theorem count_vehicle_counts_down b s :
  counter_wf s → band_of (center_y b) = FarDown → bi_id b ∈ temp_up_list s →
  0 <= bi_index b < 4 →
  ∃ s', count_vehicle b s = Ok s' ∧
    (∀ j, j ∈ temp_up_list s' ↔ j ∈ temp_up_list s ∧ j ≠ bi_id b) ∧
    temp_down_list s' = temp_down_list s ∧
    up_list s' = up_list s ∧
    down_list s' = <[Z.to_nat (bi_index b) := down_list s !!! Z.to_nat (bi_index b) + 1]> (down_list s).
Proof.
  intros (Hnd & _ & _ & Hlen & _) Hb Hin Hi.
  destruct (count_vehicle_far_down_pending b s Hb Hin) as (tul' & Hr & ->).
  destruct (py_remove_NoDup _ _ _ Hnd Hr) as (_ & Hmem & _).
  rewrite py_incr_nonneg by (rewrite Hlen; simpl; lia).
  eexists. split; [done|]. simpl. split_and!; done.
Qed.

(** C11: A centre strictly between the upper and the middle line makes
    the identity pending on the up side (once), and touches neither the
    down-side pending list nor any counter. *)
Theorem count_vehicle_arms_up b s :
  up_line_position < center_y b < middle_line_position →
  ∃ s', count_vehicle b s = Ok s' ∧
    (∀ j, j ∈ temp_up_list s' ↔ j ∈ temp_up_list s ∨ j = bi_id b) ∧
    (NoDup (temp_up_list s) → NoDup (temp_up_list s')) ∧
    temp_down_list s' = temp_down_list s ∧ up_list s' = up_list s ∧ down_list s' = down_list s.
Proof.
  intros Hb%band_of_NearUp. rewrite count_vehicle_eq, Hb.
  destruct (py_in _ _) eqn:Hin; simpl; eexists; (split; [done|]); simpl;
    rewrite ?py_in_true, ?py_in_false in Hin; split_and!; auto with vc;
    intros j; rewrite ?elem_of_py_append; naive_solver.
Qed.

(** C12: Symmetrically for a centre strictly between the middle and the
    lower line. *)
Theorem count_vehicle_arms_down b s :
  middle_line_position < center_y b < down_line_position →
  ∃ s', count_vehicle b s = Ok s' ∧
    temp_up_list s' = temp_up_list s ∧
    (∀ j, j ∈ temp_down_list s' ↔ j ∈ temp_down_list s ∨ j = bi_id b) ∧
    (NoDup (temp_down_list s) → NoDup (temp_down_list s')) ∧
    up_list s' = up_list s ∧ down_list s' = down_list s.
Proof.
  intros Hb%band_of_NearDown. rewrite count_vehicle_eq, Hb.
  destruct (py_in _ _) eqn:Hin; simpl; eexists; (split; [done|]); simpl;
    rewrite ?py_in_true, ?py_in_false in Hin; split_and!; auto with vc;
    intros j; rewrite ?elem_of_py_append; naive_solver.
Qed.

Lemma count_vehicle_on_line' b s :
  center_y b = up_line_position ∨ center_y b = middle_line_position ∨
  center_y b = down_line_position →
  count_vehicle b s = Ok s.
Proof. intros Hb%band_of_OnLine. by rewrite count_vehicle_eq, Hb. Qed.

(** C36: a centre exactly on one of the three lines (y = 210, 225 or 240)
    falls in no band: the observation is ignored, whatever the state. *)
Theorem count_vehicle_on_line b s :
  center_y b = up_line_position ∨ center_y b = middle_line_position ∨
  center_y b = down_line_position →
  count_vehicle b s = Ok s.
Proof. apply count_vehicle_on_line'. Qed.

(** An identity that is pending on neither side and is seen beyond
    an outer line (it was never seen approaching) leaves the state
    unchanged: no count. *)
Theorem count_vehicle_no_approach b s :
  bi_id b ∉ temp_up_list s → bi_id b ∉ temp_down_list s →
  center_y b < up_line_position ∨ down_line_position < center_y b →
  count_vehicle b s = Ok s.
Proof.
  intros Hu Hd Hb. rewrite count_vehicle_no_crossing.
  - destruct Hb as [Hb%band_of_FarUp|Hb%band_of_FarDown]; by rewrite Hb.
  - unfold crossing_fires. naive_solver.
Qed.

(** ** Invariant, errors and monotonicity *)

Lemma count_vehicle_wf' b s s' :
  counter_wf s → count_vehicle b s = Ok s' → counter_wf s'.
Proof.
  intros Hwf. destruct (decide (crossing_fires b s)) as [Hc|Hc].
  - destruct Hwf as (Hu & Hd & Hl1 & Hl2 & Hp1 & Hp2).
    destruct Hc as [[Hb Hin]|[Hb Hin]].
    + destruct (count_vehicle_far_up_pending b s Hb Hin) as (tdl' & Hr & ->).
      intros (ul' & Hi & ->)%res_fmap_Ok.
      destruct (py_remove_NoDup _ _ _ Hd Hr) as (? & _ & _).
      repeat split; simpl; eauto with vc. by rewrite (length_py_incr _ _ _ Hi), ?Hl1, ?Hl2.
    + destruct (count_vehicle_far_down_pending b s Hb Hin) as (tul' & Hr & ->).
      intros (dl' & Hi & ->)%res_fmap_Ok.
      destruct (py_remove_NoDup _ _ _ Hu Hr) as (? & _ & _).
      repeat split; simpl; eauto with vc. by rewrite (length_py_incr _ _ _ Hi), ?Hl1, ?Hl2.
  - rewrite count_vehicle_no_crossing by done.
    destruct Hwf as (Hu & Hd & Hl).
    destruct (band_of _); intros; inv_res; try done;
      destruct (py_in _ _) eqn:Hin; try done;
      rewrite ?py_in_false in Hin; repeat split; simpl; auto with vc; apply Hl.
Qed.

(** C13: [count_vehicle] preserves well-formedness: no identity is
    pending twice on one side, and the counters keep four non-negative
    entries. *)
Theorem count_vehicle_wf b s s' :
  counter_wf s → count_vehicle b s = Ok s' → counter_wf s'.
Proof. apply count_vehicle_wf'. Qed.

Lemma count_vehicle_error' b s e :
  counter_wf s →
  count_vehicle b s = Err e ↔
  e = IndexError ∧ crossing_fires b s ∧ ¬ (-4 <= bi_index b < 4).
Proof.
  intros (Hu & Hd & Hl1 & Hl2 & _). destruct (decide (crossing_fires b s)) as [Hc|Hc].
  - destruct Hc as [[Hb Hin]|[Hb Hin]].
    + destruct (count_vehicle_far_up_pending b s Hb Hin) as (tdl' & Hr & ->).
      destruct (py_incr _ _) as [l|e'] eqn:Hi; simpl.
      * apply py_incr_Ok in Hi as (n & E & _). apply py_norm_index_bound in E as Hn.
        apply py_norm_index_Some in E. rewrite Hl1 in E. simpl in E.
        split; [done|]. intros (_ & _ & Hr'). lia.
      * apply py_incr_Err in Hi as [-> Hi]. rewrite Hl1 in Hi. simpl in Hi.
        unfold crossing_fires. split; [intros; inv_res; naive_solver|].
        intros (-> & _ & _). done.
    + destruct (count_vehicle_far_down_pending b s Hb Hin) as (tul' & Hr & ->).
      destruct (py_incr _ _) as [l|e'] eqn:Hi; simpl.
      * apply py_incr_Ok in Hi as (n & E & _).
        apply py_norm_index_Some in E. rewrite Hl2 in E. simpl in E.
        split; [done|]. intros (_ & _ & Hr'). lia.
      * apply py_incr_Err in Hi as [-> Hi]. rewrite Hl2 in Hi. simpl in Hi.
        unfold crossing_fires. split; [intros; inv_res; naive_solver|].
        intros (-> & _ & _). done.
  - rewrite count_vehicle_no_crossing by done.
    split; [|naive_solver]. by destruct (band_of _).
Qed.

(** C14: on a well-formed state, [count_vehicle] raises an exception
    exactly when a crossing fires for a class bucket outside Python's
    index range of the four counters, and the exception is then an
    [IndexError]: the [remove] of lines 87 and 91 never raises. *)
Theorem count_vehicle_error b s e :
  counter_wf s →
  count_vehicle b s = Err e ↔
  e = IndexError ∧ crossing_fires b s ∧ ¬ (-4 <= bi_index b < 4).
Proof. apply count_vehicle_error'. Qed.

(** Counters only grow under one observation. *)
Lemma count_vehicle_counts_le b s s' :
  count_vehicle b s = Ok s' → counts_le s s'.
Proof.
  destruct (decide (crossing_fires b s)) as [[[Hb Hin]|[Hb Hin]]|Hc].
  - destruct (count_vehicle_far_up_pending b s Hb Hin) as (tdl' & Hr & ->).
    intros (ul' & Hi & ->)%res_fmap_Ok. split; simpl; [|reflexivity].
    by eapply Forall2_le_py_incr.
  - destruct (count_vehicle_far_down_pending b s Hb Hin) as (tul' & Hr & ->).
    intros (dl' & Hi & ->)%res_fmap_Ok. split; simpl; [reflexivity|].
    by eapply Forall2_le_py_incr.
  - rewrite count_vehicle_no_crossing by done.
    destruct (band_of _); intros; inv_res; try reflexivity;
      destruct (py_in _ _); try reflexivity; split; simpl; reflexivity.
Qed.

Lemma count_boxes_monotone' bs s s' :
  count_boxes bs s = Ok s' → counts_le s s'.
Proof.
  revert s. induction bs as [|b bs IH]; intros s H; simpl in H; [by inv_res|].
  apply res_bind_Ok in H as (s1 & H1 & H2).
  etrans; [by eapply count_vehicle_counts_le|by apply IH].
Qed.

(** C27: over any run of observations (the loop of lines 138-139, and any
    sequence of frames), every entry of [up_list] and of [down_list] is
    non-decreasing. *)
Theorem count_boxes_monotone bs s s' :
  count_boxes bs s = Ok s' → counts_le s s'.
Proof. apply count_boxes_monotone'. Qed.

Lemma count_boxes_wf bs s s' :
  counter_wf s → count_boxes bs s = Ok s' → counter_wf s'.
Proof.
  revert s. induction bs as [|b bs IH]; intros s Hwf H; simpl in H; [by inv_res|].
  apply res_bind_Ok in H as (s1 & H1 & H2). eauto using count_vehicle_wf'.
Qed.

Lemma count_boxes_single b s : count_boxes [b] s = count_vehicle b s.
Proof. simpl. by destruct (count_vehicle b s). Qed.

Lemma counter_init_wf : counter_wf counter_init.
Proof. repeat split; repeat constructor; try set_solver; lia. Qed.

#[export] Hint Resolve count_boxes_wf counter_init_wf : vc.

(** ** Runs of observations *)

Lemma count_boxes_safe' bs s :
  counter_wf s → Forall (λ b, -4 <= bi_index b < 4) bs →
  ∃ s', count_boxes bs s = Ok s' ∧ counter_wf s'.
Proof.
  revert s. induction bs as [|b bs IH]; intros s Hwf Hbs; simpl; [by eauto|].
  apply Forall_cons in Hbs as [Hb Hbs].
  destruct (count_vehicle b s) as [s1|e] eqn:Hs; simpl.
  - apply IH; [by eapply count_vehicle_wf'|done].
  - apply count_vehicle_error' in Hs as (_ & _ & Hn); [|done]. lia.
Qed.

(** C15: on a well-formed state, a run of observations whose class
    buckets are valid Python indices of the four counters never raises:
    the loop of lines 138-139 always completes. *)
Theorem count_boxes_safe bs s :
  counter_wf s → Forall (λ b, -4 <= bi_index b < 4) bs →
  ∃ s', count_boxes bs s = Ok s' ∧ counter_wf s'.
Proof. apply count_boxes_safe'. Qed.

(** A run in which every observation is beyond an outer line or on
    a line, of identities pending on neither side, changes nothing: an
    identity never seen in a near band is never counted. *)
Theorem count_boxes_no_approach bs s :
  Forall (λ b, bi_id b ∉ temp_up_list s ∧ bi_id b ∉ temp_down_list s ∧
               (center_y b <= up_line_position ∨ down_line_position <= center_y b ∨
                center_y b = middle_line_position)) bs →
  count_boxes bs s = Ok s.
Proof.
  induction bs as [|b bs IH]; intros Hbs; simpl; [done|].
  apply Forall_cons in Hbs as [(Hu & Hd & Hb) Hbs].
  assert (count_vehicle b s = Ok s) as ->; [|by apply IH].
  destruct (decide (center_y b = up_line_position ∨ center_y b = middle_line_position ∨
                    center_y b = down_line_position)) as [Hl|Hl].
  - by apply count_vehicle_on_line'.
  - apply count_vehicle_no_approach; [done|done|lia].
Qed.

(** ** Accounting: every count consumes one earlier approach *)

Definition zsum (l : list Z) : Z := foldr Z.add 0 l.

Definition total_counts (s : counter_state) : Z :=
  zsum (up_list s) + zsum (down_list s).

Definition pending_count (s : counter_state) : Z :=
  Z.of_nat (length (temp_up_list s) + length (temp_down_list s)).

(** Whether the observation makes its identity newly pending. *)
Definition arms (b : box_id) (s : counter_state) : bool :=
  match band_of (center_y b) with
  | NearUp => negb (py_in (bi_id b) (temp_up_list s))
  | NearDown => negb (py_in (bi_id b) (temp_down_list s))
  | _ => false
  end.

(** The number of observations of a run in a near band. *)
Definition near_observations (bs : list box_id) : Z :=
  Z.of_nat (length (filter (λ b, band_of (center_y b) = NearUp ∨ band_of (center_y b) = NearDown) bs)).

Lemma zsum_incr (l : list Z) n :
  (n < length l)%nat → zsum (<[n := l !!! n + 1]> l) = zsum l + 1.
Proof.
  revert n. induction l as [|c l IH]; intros [|n] Hn; simpl in *; try lia.
  rewrite IH by lia. lia.
Qed.

Lemma zsum_py_incr l i l' : py_incr l i = Ok l' → zsum l' = zsum l + 1.
Proof.
  intros (n & E & ->)%py_incr_Ok. apply py_norm_index_bound in E.
  apply zsum_incr. lia.
Qed.

Lemma count_vehicle_potential b s s' :
  counter_wf s → count_vehicle b s = Ok s' →
  total_counts s' + pending_count s' =
  total_counts s + pending_count s + (if arms b s then 1 else 0).
Proof.
  intros (Hu & Hd & _). unfold arms, total_counts, pending_count.
  destruct (decide (crossing_fires b s)) as [[[Hb Hin]|[Hb Hin]]|Hc].
  - destruct (count_vehicle_far_up_pending b s Hb Hin) as (tdl' & Hr & ->).
    intros (ul' & Hi & ->)%res_fmap_Ok. rewrite Hb. simpl.
    destruct (py_remove_NoDup _ _ _ Hd Hr) as (_ & _ & Hl).
    rewrite (zsum_py_incr _ _ _ Hi). lia.
  - destruct (count_vehicle_far_down_pending b s Hb Hin) as (tul' & Hr & ->).
    intros (dl' & Hi & ->)%res_fmap_Ok. rewrite Hb. simpl.
    destruct (py_remove_NoDup _ _ _ Hu Hr) as (_ & _ & Hl).
    rewrite (zsum_py_incr _ _ _ Hi). lia.
  - rewrite count_vehicle_no_crossing by done.
    destruct (band_of _); intros; inv_res; try lia;
      destruct (py_in _ _); simpl; unfold py_append; rewrite ?length_app; simpl; lia.
Qed.

(** C28: over a run from a well-formed state, the counters grow by at
    most the number of identities pending at the start plus the number of
    near-band observations of the run; in particular, from the initial
    state, no more vehicles are counted than near-band observations were
    made. *)
Theorem count_boxes_counts_le_approaches bs s s' :
  counter_wf s → count_boxes bs s = Ok s' →
  total_counts s' + pending_count s' <=
  total_counts s + pending_count s + near_observations bs.
Proof.
  revert s. induction bs as [|b bs IH]; intros s Hwf H; simpl in H.
  - inv_res. unfold near_observations. simpl. lia.
  - apply res_bind_Ok in H as (s1 & H1 & H2).
    pose proof (count_vehicle_potential b s s1 Hwf H1) as Hp.
    pose proof (IH s1 (count_vehicle_wf' b s s1 Hwf H1) H2) as Hr.
    unfold near_observations in *. rewrite filter_cons.
    unfold arms in Hp. destruct (band_of (center_y b)); simpl in *;
      repeat case_decide; simpl in *; try destruct (py_in _ _); simpl in *; lia.
Qed.

(** ** Observations of identities that are not pending *)

Lemma count_vehicle_not_pending b s s' :
  bi_id b ∉ temp_up_list s → bi_id b ∉ temp_down_list s → count_vehicle b s = Ok s' →
  up_list s' = up_list s ∧ down_list s' = down_list s ∧
  (∀ j, j ∈ temp_up_list s' → j ∈ temp_up_list s ∨ j = bi_id b) ∧
  (∀ j, j ∈ temp_down_list s' → j ∈ temp_down_list s ∨ j = bi_id b).
Proof.
  intros Hu Hd. rewrite count_vehicle_no_crossing by (unfold crossing_fires; naive_solver).
  destruct (band_of _); intros; inv_res; try (split_and!; auto; fail);
    destruct (py_in _ _); simpl; split_and!; auto; intros j; rewrite elem_of_py_append; auto.
Qed.

(** A run in which no identity is pending at the start and no identity is
    observed twice leaves the counters unchanged. *)
Lemma count_boxes_fresh_ids bs s s' :
  count_boxes bs s = Ok s' → NoDup (bi_id <$> bs) →
  Forall (λ b, bi_id b ∉ temp_up_list s ∧ bi_id b ∉ temp_down_list s) bs →
  up_list s' = up_list s ∧ down_list s' = down_list s.
Proof.
  revert s. induction bs as [|b bs IH]; intros s H Hnd Hf; simpl in H; [by inv_res|].
  apply res_bind_Ok in H as (s1 & H1 & H2).
  rewrite fmap_cons in Hnd. apply NoDup_cons in Hnd as [Hb Hnd].
  apply Forall_cons in Hf as [[Hu Hd] Hf].
  destruct (count_vehicle_not_pending b s s1 Hu Hd H1) as (Hup & Hdn & Hu1 & Hd1).
  rewrite <- Hup, <- Hdn. apply (IH s1 H2 Hnd). rewrite Forall_forall in Hf |- *. intros b' Hb'.
  destruct (Hf b' Hb') as [Hu' Hd'].
  assert (bi_id b' ≠ bi_id b) as Hne.
  { intros Heq. apply Hb. rewrite <- Heq. by apply list_elem_of_fmap_2. }
  split; intros Hin; [destruct (Hu1 _ Hin)|destruct (Hd1 _ Hin)]; auto.
Qed.

(** ** Witnesses *)

(** Identity 1 pending down, seen at height 200 beyond the upper line. *)
Lemma count_vehicle_counts_up_witness :
  ∃ s', count_vehicle (mk_box_id 90 190 20 20 1 0) (mk_counter [] [1] [0; 0; 0; 0] [0; 0; 0; 0]) = Ok s' ∧
    up_list s' = [1; 0; 0; 0] ∧ temp_down_list s' = [].
Proof.
  destruct (count_vehicle_counts_up (mk_box_id 90 190 20 20 1 0) (mk_counter [] [1] [0; 0; 0; 0] [0; 0; 0; 0]))
    as (s' & Hs & _); [vc_decide|reflexivity|vc_decide|simpl; lia|].
  exists s'. rewrite Hs. vm_compute in Hs. inv_res. split_and!; reflexivity.
Defined.

(** Identity 1 pending up, seen at height 250 beyond the lower line. *)
Lemma count_vehicle_counts_down_witness :
  ∃ s', count_vehicle (mk_box_id 90 240 20 20 1 2) (mk_counter [1] [] [0; 0; 0; 0] [0; 0; 0; 0]) = Ok s' ∧
    down_list s' = [0; 0; 1; 0] ∧ temp_up_list s' = [].
Proof.
  destruct (count_vehicle_counts_down (mk_box_id 90 240 20 20 1 2) (mk_counter [1] [] [0; 0; 0; 0] [0; 0; 0; 0]))
    as (s' & Hs & _); [vc_decide|reflexivity|vc_decide|simpl; lia|].
  exists s'. rewrite Hs. vm_compute in Hs. inv_res. split_and!; reflexivity.
Defined.

(** Identity 5 seen at height 213, between the upper and the middle line. *)
Lemma count_vehicle_arms_up_witness :
  ∃ s', count_vehicle (mk_box_id 90 203 20 20 5 0) counter_init = Ok s' ∧ temp_up_list s' = [5].
Proof.
  destruct (count_vehicle_arms_up (mk_box_id 90 203 20 20 5 0) counter_init) as (s' & Hs & _);
    [vm_compute; split; reflexivity|].
  exists s'. rewrite Hs. vm_compute in Hs. inv_res. split; reflexivity.
Defined.

(** Identity 5 seen at height 233, between the middle and the lower line. *)
Lemma count_vehicle_arms_down_witness :
  ∃ s', count_vehicle (mk_box_id 90 223 20 20 5 0) counter_init = Ok s' ∧ temp_down_list s' = [5].
Proof.
  destruct (count_vehicle_arms_down (mk_box_id 90 223 20 20 5 0) counter_init) as (s' & Hs & _);
    [vm_compute; split; reflexivity|].
  exists s'. rewrite Hs. vm_compute in Hs. inv_res. split; reflexivity.
Defined.

(** A centre exactly on the middle line, for an identity pending up. *)
Lemma count_vehicle_on_line_witness :
  count_vehicle (mk_box_id 90 215 20 20 1 0) (mk_counter [1] [] [0; 0; 0; 0] [0; 0; 0; 0]) =
    Ok (mk_counter [1] [] [0; 0; 0; 0] [0; 0; 0; 0]).
Proof. apply count_vehicle_on_line. right; left. reflexivity. Defined.

(** A new identity first seen beyond the upper line. *)
Lemma count_vehicle_no_approach_witness :
  count_vehicle (mk_box_id 90 190 20 20 9 0) (mk_counter [1] [2] [0; 0; 0; 0] [0; 0; 0; 0]) =
    Ok (mk_counter [1] [2] [0; 0; 0; 0] [0; 0; 0; 0]).
Proof. apply count_vehicle_no_approach; [vc_decide|vc_decide|left; vm_compute; reflexivity]. Defined.

Lemma count_vehicle_wf_witness :
  counter_wf (mk_counter [] [] [0; 0; 0; 0] [0; 1; 0; 0]).
Proof.
  apply (count_vehicle_wf (mk_box_id 90 240 20 20 1 1) (mk_counter [1] [] [0; 0; 0; 0] [0; 0; 0; 0]));
    [vc_decide|vm_compute; reflexivity].
Defined.

(** A crossing with class bucket 4, out of range of the four counters. *)
Lemma count_vehicle_error_witness :
  count_vehicle (mk_box_id 90 190 20 20 1 4) (mk_counter [] [1] [0; 0; 0; 0] [0; 0; 0; 0]) = Err IndexError.
Proof.
  apply (count_vehicle_error (mk_box_id 90 190 20 20 1 4) (mk_counter [] [1] [0; 0; 0; 0] [0; 0; 0; 0]));
    [vc_decide|]. split_and!; [done|left; split; [reflexivity|vc_decide]|simpl; lia].
Defined.

Lemma count_boxes_monotone_witness :
  counts_le counter_init (mk_counter [] [] [0; 0; 0; 0] [1; 0; 0; 0]).
Proof.
  apply (count_boxes_monotone [mk_box_id 90 214 20 20 1 0; mk_box_id 90 231 20 20 1 0]).
  vm_compute. reflexivity.
Defined.

Lemma count_boxes_safe_witness :
  ∃ s', count_boxes [mk_box_id 90 214 20 20 1 0; mk_box_id 90 231 20 20 1 (-1)] counter_init = Ok s' ∧
    counter_wf s'.
Proof. apply count_boxes_safe; vc_decide. Defined.

Lemma count_boxes_no_approach_witness :
  count_boxes [mk_box_id 90 190 20 20 1 0; mk_box_id 90 240 20 20 2 0; mk_box_id 90 215 20 20 3 0]
    (mk_counter [4] [5] [0; 0; 0; 0] [0; 0; 0; 0]) = Ok (mk_counter [4] [5] [0; 0; 0; 0] [0; 0; 0; 0]).
Proof. apply count_boxes_no_approach. vc_decide. Defined.

Lemma count_boxes_counts_le_approaches_witness :
  total_counts (mk_counter [] [] [0; 0; 0; 0] [1; 0; 0; 0]) +
  pending_count (mk_counter [] [] [0; 0; 0; 0] [1; 0; 0; 0]) <=
  total_counts counter_init + pending_count counter_init +
  near_observations [mk_box_id 90 214 20 20 1 0; mk_box_id 90 231 20 20 1 0].
Proof.
  apply count_boxes_counts_le_approaches; [vc_decide|vm_compute; reflexivity].
Defined.
