(* ===== verification/CrossingSpec.v ===== *)
(** * Abstract specification of the crossing counter

    [AbsCounter]: the pending lists of [count_vehicle] seen as two finite
    sets of identities ([gset Z]); [abs_observe] is the specification
    of one observation, and [count_vehicle_refines] shows that the
    list-based code implements it (the lists are an implementation of sets
    because they never hold duplicates).

    [PerId]: the same machine seen from one identity, a pair of pending
    flags, and the decomposition of a run into independent per-identity
    runs.

    [PerId] also shows no-count-without-approach: an identity never seen
    in a near band can be erased from a run.

    [SpecMachine]: the three-state machine of spec.md section 4.2
    (UNSEEN, PENDING_UP, PENDING_DOWN) and [spec_counter], the counter of
    that section over all identities (a [gmap] of states and the two
    per-bucket count lists); the refinement of the code by it, exceptions
    and buckets included, on the runs where the spec's guard "not already
    pending in either direction" is never exercised; and where the code
    departs from spec.md section 8: both flags set on a cross-arming
    observation, and an oscillating identity counted once per
    oscillation. *)

From stdpp Require Import base list numbers sets gmap.
From Stdlib Require Import ZArith QArith Lia.
From S2P Require Import Prelude Geometry Counter.

Open Scope Z_scope.

Module AbsCounter.

Record abs_counter := mk_abs {
  pend_up : gset Z;
  pend_down : gset Z;
  ups : list Z;
  downs : list Z
}.

(** The abstraction of a code state. *)
Definition abstract (s : counter_state) : abs_counter :=
  mk_abs (list_to_set (temp_up_list s)) (list_to_set (temp_down_list s))
    (up_list s) (down_list s).

(** The specification of one observation. *)
Definition abs_observe (b : box_id) (a : abs_counter) : res abs_counter :=
  let id := bi_id b in
  match band_of (center_y b) with
  | NearUp => Ok (mk_abs ({[id]} ∪ pend_up a) (pend_down a) (ups a) (downs a))
  | NearDown => Ok (mk_abs (pend_up a) ({[id]} ∪ pend_down a) (ups a) (downs a))
  | FarUp =>
      if decide (id ∈ pend_down a) then
        u ← py_incr (ups a) (bi_index b);
        Ok (mk_abs (pend_up a) (pend_down a ∖ {[id]}) u (downs a))
      else Ok a
  | FarDown =>
      if decide (id ∈ pend_up a) then
        d ← py_incr (downs a) (bi_index b);
        Ok (mk_abs (pend_up a ∖ {[id]}) (pend_down a) (ups a) d)
      else Ok a
  | OnLine => Ok a
  end.

Fixpoint abs_run (bs : list box_id) (a : abs_counter) : res abs_counter :=
  match bs with
  | [] => Ok a
  | b :: bs' => a' ← abs_observe b a; abs_run bs' a'
  end.

Lemma list_to_set_py_append (l : list Z) x :
  list_to_set (py_append l x) = ({[x]} ∪ list_to_set l : gset Z).
Proof. unfold py_append. set_solver. Qed.

Lemma list_to_set_py_remove (l l' : list Z) x :
  NoDup l → py_remove l x = Ok l' →
  list_to_set l' = (list_to_set l ∖ {[x]} : gset Z).
Proof.
  intros Hnd Hr. destruct (py_remove_NoDup _ _ _ Hnd Hr) as (_ & Hm & _).
  apply set_eq. intros y. rewrite elem_of_list_to_set, elem_of_difference,
    elem_of_list_to_set, Hm. set_solver.
Qed.

Lemma list_to_set_absorb (l : list Z) x :
  x ∈ l → ({[x]} ∪ list_to_set l : gset Z) = list_to_set l.
Proof. set_solver. Qed.

Lemma count_vehicle_refines' b s :
  NoDup (temp_up_list s) → NoDup (temp_down_list s) →
  abstract <$> count_vehicle b s = abs_observe b (abstract s).
Proof.
  intros Hu Hd. rewrite count_vehicle_eq. unfold abs_observe, abstract. simpl.
  destruct (band_of _).
  - destruct (py_in _ _) eqn:Hin; simpl; [|by rewrite list_to_set_py_append].
    apply py_in_true in Hin. by rewrite list_to_set_absorb.
  - destruct (py_in _ _) eqn:Hin; simpl; [|by rewrite list_to_set_py_append].
    apply py_in_true in Hin. by rewrite list_to_set_absorb.
  - destruct (py_in _ _) eqn:Hin.
    + apply py_in_true in Hin as Hin'.
      rewrite decide_True by (by apply elem_of_list_to_set).
      destruct (py_remove_split _ _ Hin') as (l1 & l2 & _ & _ & Hr). rewrite Hr. simpl.
      destruct (py_incr _ _); simpl; [|done].
      by rewrite (list_to_set_py_remove _ _ _ Hd Hr).
    + apply py_in_false in Hin.
      rewrite decide_False by (by rewrite elem_of_list_to_set). done.
  - destruct (py_in _ _) eqn:Hin.
    + apply py_in_true in Hin as Hin'.
      rewrite decide_True by (by apply elem_of_list_to_set).
      destruct (py_remove_split _ _ Hin') as (l1 & l2 & _ & _ & Hr). rewrite Hr. simpl.
      destruct (py_incr _ _); simpl; [|done].
      by rewrite (list_to_set_py_remove _ _ _ Hu Hr).
    + apply py_in_false in Hin.
      rewrite decide_False by (by rewrite elem_of_list_to_set). done.
  - done.
Qed.

(** C6: refinement: on states whose pending lists hold no duplicate,
    [count_vehicle] implements the set-based specification [abs_observe]:
    the abstraction of its result (value or exception) is the result of the
    specification on the abstraction. *)
Theorem count_vehicle_refines b s :
  NoDup (temp_up_list s) → NoDup (temp_down_list s) →
  abstract <$> count_vehicle b s = abs_observe b (abstract s).
Proof. apply count_vehicle_refines'. Qed.

Lemma count_boxes_refines' bs s :
  counter_wf s → abstract <$> count_boxes bs s = abs_run bs (abstract s).
Proof.
  revert s. induction bs as [|b bs IH]; intros s Hwf; [done|]. simpl.
  pose proof (count_vehicle_refines' b s (proj1 Hwf) (proj1 (proj2 Hwf))) as Hr.
  destruct (count_vehicle b s) as [s1|e] eqn:E; simpl in *; rewrite <- Hr; [|done].
  apply IH. by eapply count_vehicle_wf'.
Qed.

(** The refinement extends to runs: from a well-formed state, the
    abstraction of the result of the loop of lines 138-139 is the result
    of the specification run on the abstraction. *)
Theorem count_boxes_refines bs s :
  counter_wf s → abstract <$> count_boxes bs s = abs_run bs (abstract s).
Proof. apply count_boxes_refines'. Qed.

End AbsCounter.

Module PerId.
Import AbsCounter.

Inductive direction := Up | Down.

(** The pending flags (pending up, pending down) of one identity. *)
Definition flags (a : abs_counter) (j : Z) : bool * bool :=
  (bool_decide (j ∈ pend_up a), bool_decide (j ∈ pend_down a)).

(** One observation of the identity, in a band: the new flags and the
    crossing it counts, if any. *)
Definition id_step (p : bool * bool) (bd : band) : (bool * bool) * option direction :=
  match bd, p with
  | NearUp, (_, d) => ((true, d), None)
  | NearDown, (u, _) => ((u, true), None)
  | FarUp, (u, true) => ((u, false), Some Up)
  | FarDown, (true, d) => ((false, d), Some Down)
  | _, _ => (p, None)
  end.

Fixpoint id_run (p : bool * bool) (ys : list band) : (bool * bool) * list direction :=
  match ys with
  | [] => (p, [])
  | y :: ys' =>
      let '(p1, e) := id_step p y in
      let '(p2, es) := id_run p1 ys' in
      (p2, option_list e ++ es)
  end.

(** The bands in which one identity is observed along a run. *)
Definition id_trace (j : Z) (bs : list box_id) : list band :=
  (λ b, band_of (center_y b)) <$> filter (λ b, bi_id b = j) bs.

Definition abs_total (a : abs_counter) : Z := zsum (ups a) + zsum (downs a).

(** One specification step, seen from every identity. *)
Lemma abs_observe_flags b a a' :
  abs_observe b a = Ok a' →
  (∀ j, j ≠ bi_id b → flags a' j = flags a j) ∧
  let '(p, e) := id_step (flags a (bi_id b)) (band_of (center_y b)) in
  flags a' (bi_id b) = p ∧ abs_total a' = abs_total a + Z.of_nat (length (option_list e)).
Proof.
  unfold abs_observe, flags, abs_total. intros H.
  destruct (band_of _); simpl.
  - inv_res. simpl. split; [intros j Hj; f_equal; apply bool_decide_ext; set_solver|].
    rewrite bool_decide_true by set_solver. simpl. split; [done|lia].
  - inv_res. simpl. split; [intros j Hj; f_equal; apply bool_decide_ext; set_solver|].
    rewrite (bool_decide_true (_ ∈ {[_]} ∪ _)) by set_solver. simpl. split; [done|lia].
  - case_decide as Hin.
    + apply res_bind_Ok in H as (l & Hl & H). inv_res. simpl.
      split; [intros j Hj; f_equal; apply bool_decide_ext; set_solver|].
      rewrite (bool_decide_true (_ ∈ pend_down a)) by done. simpl.
      rewrite (bool_decide_false (_ ∈ _ ∖ _)) by set_solver.
      rewrite (zsum_py_incr _ _ _ Hl). simpl. split; [done|lia].
    + injection H as <-. split; [done|]. rewrite (bool_decide_false (_ ∈ pend_down a)) by done.
      destruct (bool_decide _); simpl; split; done || lia.
  - case_decide as Hin.
    + apply res_bind_Ok in H as (l & Hl & H). inv_res. simpl.
      split; [intros j Hj; f_equal; apply bool_decide_ext; set_solver|].
      rewrite (bool_decide_true (_ ∈ pend_up a)) by done. simpl.
      rewrite (bool_decide_false (_ ∈ _ ∖ _)) by set_solver.
      rewrite (zsum_py_incr _ _ _ Hl). simpl. split; [done|lia].
    + injection H as <-. split; [done|]. rewrite (bool_decide_false (_ ∈ pend_up a)) by done.
      destruct (bool_decide _); simpl; split; done || lia.
  - inv_res. split; [done|].
    destruct (bool_decide _), (bool_decide _); simpl; split; done || lia.
Qed.

Lemma id_trace_cons j b bs :
  id_trace j (b :: bs) =
  if decide (bi_id b = j) then band_of (center_y b) :: id_trace j bs else id_trace j bs.
Proof. unfold id_trace. rewrite filter_cons. by case_decide. Qed.

Lemma id_run_cons p y ys :
  fst (id_run p (y :: ys)) = fst (id_run (fst (id_step p y)) ys) ∧
  length (snd (id_run p (y :: ys))) =
  (length (option_list (snd (id_step p y))) + length (snd (id_run (fst (id_step p y)) ys)))%nat.
Proof.
  simpl. destruct (id_step p y) as [p1 e]. simpl.
  destruct (id_run p1 ys) as [p2 es]. simpl. split; [done|]. by rewrite length_app.
Qed.

Lemma sum_list_with_ext_in (f g : Z → nat) (ids : list Z) :
  (∀ j, j ∈ ids → f j = g j) → sum_list_with f ids = sum_list_with g ids.
Proof.
  induction ids as [|y ids IH]; intros H; simpl; [done|].
  rewrite H, IH; set_solver.
Qed.

Lemma sum_list_with_zero (f : Z → nat) (ids : list Z) :
  (∀ j, f j = 0%nat) → sum_list_with f ids = 0%nat.
Proof. intros H. induction ids as [|y ids IH]; simpl; [done|]. rewrite H, IH. done. Qed.

(** A sum over distinct identities in which one term grows by [k]. *)
Lemma sum_list_with_update (f g : Z → nat) (ids : list Z) x k :
  NoDup ids → x ∈ ids → (∀ j, j ≠ x → f j = g j) → f x = (g x + k)%nat →
  sum_list_with f ids = (sum_list_with g ids + k)%nat.
Proof.
  intros Hnd Hx Hfg Hx'. induction Hnd as [|y ids Hy Hnd IH]; [set_solver|]. simpl.
  apply elem_of_cons in Hx as [->|Hx].
  - rewrite Hx'. assert (sum_list_with f ids = sum_list_with g ids) as ->; [|lia].
    apply sum_list_with_ext_in. intros j Hj. apply Hfg. set_solver.
  - rewrite IH by done. rewrite Hfg; [lia|]. set_solver.
Qed.

(** A run of the specification decomposes into independent runs of the
    per-identity machine: each identity's flags follow its own
    observations only, and the counters grow by the sum of the crossings
    of every identity. *)
Lemma abs_run_decomposes bs a a' ids :
  abs_run bs a = Ok a' → NoDup ids → Forall (λ b, bi_id b ∈ ids) bs →
  (∀ j, flags a' j = fst (id_run (flags a j) (id_trace j bs))) ∧
  abs_total a' = abs_total a +
    Z.of_nat (sum_list_with (λ j, length (snd (id_run (flags a j) (id_trace j bs)))) ids).
Proof.
  revert a. induction bs as [|b bs IH]; intros a H Hnd Hids; simpl in H.
  - inv_res. split; [done|]. unfold id_trace. simpl.
    rewrite sum_list_with_zero; [lia|done].
  - apply res_bind_Ok in H as (a1 & H1 & H2). apply Forall_cons in Hids as [Hb Hids].
    destruct (IH a1 H2 Hnd Hids) as [IHf IHt].
    pose proof (abs_observe_flags b a a1 H1) as [Hne Hid].
    destruct (id_step (flags a (bi_id b)) (band_of (center_y b))) as [p e] eqn:Hst.
    destruct Hid as [Hp Ht]. split.
    + intros j. rewrite IHf, id_trace_cons. case_decide as Hj.
      * subst j. rewrite (proj1 (id_run_cons _ _ _)), Hst. simpl. by rewrite Hp.
      * by rewrite Hne by congruence.
    + rewrite IHt, Ht.
      rewrite (sum_list_with_update
        (λ j, length (snd (id_run (flags a j) (id_trace j (b :: bs)))))
        (λ j, length (snd (id_run (flags a1 j) (id_trace j bs)))) ids (bi_id b)
        (length (option_list e))); [lia|done|done| |].
      * intros j Hj. rewrite id_trace_cons, decide_False by congruence.
        by rewrite Hne by congruence.
      * rewrite id_trace_cons, decide_True by done.
        rewrite (proj2 (id_run_cons _ _ _)), Hst. simpl. rewrite Hp. lia.
Qed.

(** The pending flags of an identity in a code state. *)
Definition code_flags (s : counter_state) (j : Z) : bool * bool :=
  (bool_decide (j ∈ temp_up_list s), bool_decide (j ∈ temp_down_list s)).

Lemma flags_abstract s j : flags (abstract s) j = code_flags s j.
Proof.
  unfold flags, code_flags, abstract. simpl.
  f_equal; apply bool_decide_ext; apply elem_of_list_to_set.
Qed.

(** One observation, seen from every identity: only the observed
    identity's flags move, by [id_step]. *)
Lemma count_vehicle_flags b s s' :
  counter_wf s → count_vehicle b s = Ok s' →
  (∀ j, j ≠ bi_id b → code_flags s' j = code_flags s j) ∧
  code_flags s' (bi_id b) = fst (id_step (code_flags s (bi_id b)) (band_of (center_y b))).
Proof.
  intros Hwf H. pose proof (count_vehicle_refines' b s (proj1 Hwf) (proj1 (proj2 Hwf))) as Hr.
  rewrite H in Hr. simpl in Hr. symmetry in Hr.
  destruct (abs_observe_flags b (abstract s) (abstract s') Hr) as [Hne Hid].
  split; [intros j Hj; rewrite <- !flags_abstract; by apply Hne|].
  rewrite <- !flags_abstract. destruct (id_step _ _) as [p e]. by destruct Hid as [-> _].
Qed.

Lemma count_boxes_per_id' bs s s' ids :
  counter_wf s → count_boxes bs s = Ok s' →
  NoDup ids → Forall (λ b, bi_id b ∈ ids) bs →
  (∀ j, code_flags s' j = fst (id_run (code_flags s j) (id_trace j bs))) ∧
  total_counts s' = total_counts s +
    Z.of_nat (sum_list_with (λ j, length (snd (id_run (code_flags s j) (id_trace j bs)))) ids).
Proof.
  intros Hwf H Hnd Hids.
  pose proof (count_boxes_refines' bs s Hwf) as Hr. rewrite H in Hr. simpl in Hr.
  destruct (abs_run_decomposes bs (abstract s) (abstract s') ids) as [Hf Ht]; [done|done|done|].
  split.
  - intros j. rewrite <- !flags_abstract. apply Hf.
  - unfold abs_total in Ht. simpl in Ht. unfold total_counts. rewrite Ht. do 2 f_equal.
    apply sum_list_with_ext_in. intros j _. by rewrite flags_abstract.
Qed.

(** C7: the counter is a product of independent per-identity machines:
    after a run of [count_vehicle] from a well-formed state, the pending
    flags of every identity are those of [id_run] on the bands in which
    that identity alone was observed, and the counters have grown by the
    sum over identities of the crossings of their own runs. *)
Theorem count_boxes_per_id bs s s' ids :
  counter_wf s → count_boxes bs s = Ok s' →
  NoDup ids → Forall (λ b, bi_id b ∈ ids) bs →
  (∀ j, code_flags s' j = fst (id_run (code_flags s j) (id_trace j bs))) ∧
  total_counts s' = total_counts s +
    Z.of_nat (sum_list_with (λ j, length (snd (id_run (code_flags s j) (id_trace j bs)))) ids).
Proof. apply count_boxes_per_id'. Qed.
(** An identity pending on neither side, observed in a far band or on a
    line, changes nothing. *)
Lemma count_vehicle_far_unpending b s :
  bi_id b ∉ temp_up_list s → bi_id b ∉ temp_down_list s →
  band_of (center_y b) ≠ NearUp → band_of (center_y b) ≠ NearDown →
  count_vehicle b s = Ok s.
Proof.
  intros Hu Hd H1 H2. rewrite count_vehicle_eq. unfold py_in.
  destruct (band_of _); try congruence; try (rewrite bool_decide_false by assumption); reflexivity.
Qed.

(** C38: No-count-without-approach (spec.md section 8), in its strongest
    form: an identity that is pending on neither side and is never
    observed in a near band contributes nothing to the run: the code
    behaves as on the run without its observations, counters, pending
    lists and exceptions included. *)
Theorem count_boxes_no_approach_id j bs s :
  counter_wf s → j ∉ temp_up_list s → j ∉ temp_down_list s →
  Forall (λ b, bi_id b = j → band_of (center_y b) ≠ NearUp ∧ band_of (center_y b) ≠ NearDown) bs →
  count_boxes bs s = count_boxes (filter (λ b, bi_id b ≠ j) bs) s.
Proof.
  revert s. induction bs as [|b bs IH]; intros s Hwf Hu Hd Hbs; [done|].
  apply Forall_cons in Hbs as [Hb Hbs]. rewrite filter_cons.
  case_decide as Hj; cbn [count_boxes].
  - destruct (count_vehicle b s) as [s1|] eqn:Hs; [|done]. cbn [count_boxes mbind res_bind].
    destruct (count_vehicle_flags b s s1 Hwf Hs) as [Hne _].
    specialize (Hne j (λ e, Hj (eq_sym e))). unfold code_flags in Hne. injection Hne as Hu1 Hd1.
    apply IH; [by eapply count_vehicle_wf'| | |done].
    + intros Hin. apply Hu. apply (bool_decide_eq_true_1 (j ∈ temp_up_list s)).
      rewrite <- Hu1. by apply bool_decide_eq_true_2.
    + intros Hin. apply Hd. apply (bool_decide_eq_true_1 (j ∈ temp_down_list s)).
      rewrite <- Hd1. by apply bool_decide_eq_true_2.
  - assert (bi_id b = j) as Heq by (destruct (decide (bi_id b = j)); tauto).
    destruct (Hb Heq) as [H1 H2]. subst j.
    rewrite count_vehicle_far_unpending by done. by apply IH.
Qed.

End PerId.

Module SpecMachine.
Import AbsCounter PerId.

(** The per-identity states of spec.md section 4.2. *)
Inductive zone := UNSEEN | PENDING_UP | PENDING_DOWN.

(** The transitions of spec.md section 4.2; every other observation is a
    no-op that keeps the pending state. *)
Definition spec_step (z : zone) (bd : band) : zone * option direction :=
  match z, bd with
  | UNSEEN, NearUp => (PENDING_UP, None)
  | UNSEEN, NearDown => (PENDING_DOWN, None)
  | PENDING_DOWN, FarUp => (UNSEEN, Some Up)
  | PENDING_UP, FarDown => (UNSEEN, Some Down)
  | _, _ => (z, None)
  end.

Fixpoint spec_run (z : zone) (ys : list band) : zone * list direction :=
  match ys with
  | [] => (z, [])
  | y :: ys' =>
      let '(z1, e) := spec_step z y in
      let '(z2, es) := spec_run z1 ys' in
      (z2, option_list e ++ es)
  end.

(** A spec state as the code's pair of flags. *)
Definition embed (z : zone) : bool * bool :=
  match z with
  | UNSEEN => (false, false)
  | PENDING_UP => (true, false)
  | PENDING_DOWN => (false, true)
  end.

(** The observations on which the spec's guard "if not already pending in
    either direction" matters: a near band on the side opposite to the
    pending one. *)
Definition cross_arm (z : zone) (bd : band) : bool :=
  match z, bd with
  | PENDING_UP, NearDown | PENDING_DOWN, NearUp => true
  | _, _ => false
  end.

Fixpoint guard_free (z : zone) (ys : list band) : bool :=
  match ys with
  | [] => true
  | y :: ys' => negb (cross_arm z y) && guard_free (fst (spec_step z y)) ys'
  end.

(** The counter of spec.md section 4.2 over all identities: the state of
    every identity ([UNSEEN] when never recorded), and the two per-bucket
    count lists, updated at the bucket of the resolving observation (with
    Python's indexing, as the counters are lists). *)
Record spec_counter := mk_spec {
  zones : gmap Z zone;
  sups : list Z;
  sdowns : list Z
}.

Definition zone_of (st : spec_counter) (j : Z) : zone := default UNSEEN (zones st !! j).

Definition spec_init : spec_counter := mk_spec ∅ [0; 0; 0; 0] [0; 0; 0; 0].

(** One observation [(id, y, classBucket)]. *)
Definition spec_observe (b : box_id) (st : spec_counter) : res spec_counter :=
  let j := bi_id b in
  let '(z', e) := spec_step (zone_of st j) (band_of (center_y b)) in
  let zs := <[j := z']> (zones st) in
  match e with
  | None => Ok (mk_spec zs (sups st) (sdowns st))
  | Some Up => u ← py_incr (sups st) (bi_index b); Ok (mk_spec zs u (sdowns st))
  | Some Down => d ← py_incr (sdowns st) (bi_index b); Ok (mk_spec zs (sups st) d)
  end.

Fixpoint spec_counter_run (bs : list box_id) (st : spec_counter) : res spec_counter :=
  match bs with
  | [] => Ok st
  | b :: bs' => st' ← spec_observe b st; spec_counter_run bs' st'
  end.

(** The runs on which the spec's guard "if not already pending in either
    direction" is never exercised: no identity is observed in the near
    band opposite to the side it is pending on. *)
Fixpoint spec_guard_free (st : spec_counter) (bs : list box_id) : bool :=
  match bs with
  | [] => true
  | b :: bs' =>
      negb (cross_arm (zone_of st (bi_id b)) (band_of (center_y b))) &&
      match spec_observe b st with Ok st' => spec_guard_free st' bs' | Err _ => true end
  end.

(** A set-based counter state and a spec state agree: same pending flags
    for every identity, same count lists. *)
Definition spec_rel (a : abs_counter) (st : spec_counter) : Prop :=
  (∀ j, flags a j = embed (zone_of st j)) ∧ ups a = sups st ∧ downs a = sdowns st.

Lemma id_step_embed z y :
  cross_arm z y = false →
  id_step (embed z) y = (embed (fst (spec_step z y)), snd (spec_step z y)).
Proof. by destruct z, y. Qed.

(** On every trace of one identity in which the spec's guard is never
    exercised, the per-identity machine of the code follows the
    three-state machine of spec.md section 4.2 step by step and counts the
    same crossings. *)
Theorem id_run_refines_spec z ys :
  guard_free z ys = true →
  id_run (embed z) ys = (embed (fst (spec_run z ys)), snd (spec_run z ys)).
Proof.
  revert z. induction ys as [|y ys IH]; intros z Hg; [done|].
  simpl in Hg. apply andb_true_iff in Hg as [Hc Hg]. apply negb_true_iff in Hc.
  simpl. rewrite id_step_embed by done.
  destruct (spec_step z y) as [z1 e]. simpl in *. rewrite (IH z1 Hg).
  by destruct (spec_run z1 ys).
Qed.

Lemma id_step_both_pending z y :
  fst (id_step (embed z) y) = (true, true) ↔ cross_arm z y = true.
Proof. by destruct z, y. Qed.

(** C9: the guard is exactly where the code departs from the spec: on
    an identity in a state of the spec's machine, [count_vehicle] leaves it
    pending on both sides at once (which the invariant of spec.md section 3
    forbids) exactly when it is seen in the near band opposite to the side
    it is pending on. *)
Theorem count_vehicle_both_pending b s s' z :
  counter_wf s → code_flags s (bi_id b) = embed z → count_vehicle b s = Ok s' →
  code_flags s' (bi_id b) = (true, true) ↔ cross_arm z (band_of (center_y b)) = true.
Proof.
  intros Hwf Hz H. destruct (count_vehicle_flags b s s' Hwf H) as [_ ->].
  rewrite Hz. apply id_step_both_pending.
Qed.

Lemma zone_of_observe b st st' :
  spec_observe b st = Ok st' →
  ∀ j, zone_of st' j = if decide (j = bi_id b)
                       then fst (spec_step (zone_of st (bi_id b)) (band_of (center_y b)))
                       else zone_of st j.
Proof.
  unfold spec_observe. destruct (spec_step _ _) as [z' e]. intros H j.
  assert (zones st' = <[bi_id b:=z']> (zones st)) as Hz.
  { destruct e as [[]|]; [apply res_bind_Ok in H as (? & _ & H)..|]; by inv_res. }
  unfold zone_of at 1. rewrite Hz. case_decide; simplify_map_eq; done.
Qed.

(** Outside the guard, one observation changes the count lists of the
    set-based counter and of the spec's counter in the same way, and
    raises in the same way. *)
Lemma spec_observe_counts b a st :
  spec_rel a st → cross_arm (zone_of st (bi_id b)) (band_of (center_y b)) = false →
  res_rel (λ a' st', ups a' = sups st' ∧ downs a' = sdowns st') (abs_observe b a) (spec_observe b st).
Proof.
  intros (Hf & Hu & Hd) Hc. pose proof (Hf (bi_id b)) as Hj. unfold flags in Hj.
  unfold abs_observe, spec_observe.
  destruct (band_of _), (zone_of st (bi_id b)); simpl in Hc, Hj |- *; try discriminate; inv_res;
    repeat match goal with
    | H : bool_decide _ = true |- _ => apply bool_decide_eq_true in H
    | H : bool_decide _ = false |- _ => apply bool_decide_eq_false in H
    end;
    repeat case_decide; try contradiction; simpl; rewrite ?Hu, ?Hd; try done;
    destruct (py_incr _ _); simpl; auto.
Qed.

Lemma spec_observe_refines b a st :
  spec_rel a st → cross_arm (zone_of st (bi_id b)) (band_of (center_y b)) = false →
  res_rel spec_rel (abs_observe b a) (spec_observe b st).
Proof.
  intros Hr Hc. pose proof (spec_observe_counts b a st Hr Hc) as Hcnt.
  destruct (abs_observe b a) as [a'|] eqn:Ha, (spec_observe b st) as [st'|] eqn:Hs;
    simpl in *; try done.
  destruct Hcnt as [Hu Hd]. split; [|done]. intros j.
  destruct (abs_observe_flags b a a' Ha) as [Hne Hid].
  rewrite (zone_of_observe b st st' Hs j). case_decide as Hjb.
  - subst j. destruct (id_step _ _) as [p e] eqn:E. destruct Hid as [-> _].
    rewrite (proj1 Hr), id_step_embed in E by done. by injection E as -> _.
  - rewrite Hne by done. apply Hr.
Qed.

Lemma abs_run_refines_spec bs a st :
  spec_rel a st → spec_guard_free st bs = true →
  res_rel spec_rel (abs_run bs a) (spec_counter_run bs st).
Proof.
  revert a st. induction bs as [|b bs IH]; intros a st Hr Hg; simpl in *; [done|].
  apply andb_true_iff in Hg as [Hc Hg]. apply negb_true_iff in Hc.
  pose proof (spec_observe_refines b a st Hr Hc) as Hstep.
  destruct (abs_observe b a) as [a'|], (spec_observe b st) as [st'|]; simpl in *; try done.
  by apply IH.
Qed.

Lemma spec_rel_init : spec_rel (abstract counter_init) spec_init.
Proof. split; [|done]. intros j. unfold flags, zone_of. simpl. by rewrite lookup_empty. Qed.

(** C8: refinement of the spec's counter by the code: on every run from
    the initial state in which no identity is observed in the near band
    opposite to the side it is pending on (where the spec's guard would
    apply), [count_boxes] raises exactly when the counter of spec.md
    section 4.2 raises, and otherwise ends with every identity pending as
    in the spec's state machine and with the same [up_list] and
    [down_list], bucket by bucket: the same crossings, in the same
    direction and class. *)
Theorem count_boxes_refines_spec bs :
  spec_guard_free spec_init bs = true →
  res_rel (λ s' st', (∀ j, code_flags s' j = embed (zone_of st' j)) ∧
                     up_list s' = sups st' ∧ down_list s' = sdowns st')
    (count_boxes bs counter_init) (spec_counter_run bs spec_init).
Proof.
  intros Hg. pose proof (abs_run_refines_spec bs _ _ spec_rel_init Hg) as Hr.
  rewrite <- (count_boxes_refines' bs counter_init counter_init_wf) in Hr.
  destruct (count_boxes bs counter_init) as [s'|], (spec_counter_run bs spec_init); simpl in *; try done.
  destruct Hr as (Hf & Hu & Hd). split_and!; [|done|done]. intros j. by rewrite <- flags_abstract.
Qed.

(** The number of near-band observations of a trace. *)
Definition near_count (ys : list band) : nat :=
  length (filter (λ y, y = NearUp ∨ y = NearDown) ys).

(** The correct form of "at most once" for the code: along the
    observations of one identity, the code counts at most one crossing per
    near-band observation (plus one per side already pending at the start);
    so an identity seen in a near band once is counted at most once. *)
Theorem id_run_counts_le_approaches p ys :
  (length (snd (id_run p ys)) <= Nat.b2n p.1 + Nat.b2n p.2 + near_count ys)%nat.
Proof.
  revert p. induction ys as [|y ys IH]; intros [u d]; [simpl; lia|].
  pose proof (proj2 (id_run_cons (u, d) y ys)) as ->.
  pose proof (IH (fst (id_step (u, d) y))) as Hr.
  unfold near_count in *. rewrite filter_cons.
  destruct y, u, d; simpl in *; repeat case_decide; simpl in *; try done; lia.
Qed.

(** One observation of identity [id] whose box centre is at height [y],
    in class bucket 0 (a 20x20 box). *)
Definition obs (id y : Z) : box_id := mk_box_id 100 (y - 10) 20 20 id 0.

(** A counterexample to "never both" (spec.md section 8): one
    identity whose centre moves 213, 228, 209, 226, 241 (near-up,
    near-down, beyond the upper line, near-down, beyond the lower line;
    every step shorter than the tracker's 25 pixels) is counted twice by
    the code, once up and once down, while the spec's machine counts it
    once. *)
Theorem count_boxes_counts_both_directions :
  count_boxes [obs 1 213; obs 1 228; obs 1 209; obs 1 226; obs 1 241] counter_init =
    Ok (mk_counter [] [1] [1; 0; 0; 0] [1; 0; 0; 0]) ∧
  spec_run UNSEEN [NearUp; NearDown; FarUp; NearDown; FarDown] = (UNSEEN, [Down]).
Proof. split; vm_compute; reflexivity. Qed.

(** The four counters with [c] at a valid bucket [k]. *)
Lemma py_incr_bucket k c :
  0 <= k < 4 → py_incr (<[Z.to_nat k := c]> [0; 0; 0; 0]) k = Ok (<[Z.to_nat k := c + 1]> [0; 0; 0; 0]).
Proof. intros Hk. assert (k = 0 ∨ k = 1 ∨ k = 2 ∨ k = 3) as [-> | [-> | [-> | ->]]] by lia; reflexivity. Qed.

(** One oscillation of an identity nothing else is pending for: near-up,
    then beyond the lower line. *)
Lemma count_boxes_oscillation_step b1 b2 bs c :
  bi_id b1 = bi_id b2 → bi_index b1 = bi_index b2 → 0 <= bi_index b1 < 4 →
  band_of (center_y b1) = NearUp → band_of (center_y b2) = FarDown →
  count_boxes (b1 :: b2 :: bs)
    (mk_counter [] [] [0; 0; 0; 0] (<[Z.to_nat (bi_index b1) := c]> [0; 0; 0; 0])) =
  count_boxes bs (mk_counter [] [] [0; 0; 0; 0] (<[Z.to_nat (bi_index b1) := c + 1]> [0; 0; 0; 0])).
Proof.
  intros Hid Hidx Hk H1 H2. cbn [count_boxes]. rewrite count_vehicle_eq, H1. cbn [temp_up_list].
  unfold py_in. rewrite bool_decide_false by set_solver. cbn [negb mbind res_bind].
  rewrite count_vehicle_eq, H2. cbn [temp_up_list temp_down_list up_list down_list py_append app].
  rewrite <- Hid. unfold py_in. rewrite bool_decide_true by set_solver. cbn [py_remove].
  rewrite decide_True by done. cbn [mbind res_bind]. rewrite <- Hidx, py_incr_bucket by done. done.
Qed.

Lemma spec_run_oscillation n :
  spec_run UNSEEN (List.concat (replicate n [NearUp; FarDown])) = (UNSEEN, replicate n Down).
Proof. induction n as [|n IH]; [done|]. simpl. by rewrite IH. Qed.

(** C10: "never twice" (spec.md section 8) does not hold, in the code as
    in the state machine of section 4.2: an identity that oscillates [n]
    times between the near-up band and beyond the lower line (with the
    same class bucket) is counted [n] times downward by [count_boxes],
    and the spec's machine re-arms in the same way and resolves [n]
    downward crossings. *)
Theorem count_boxes_oscillation b1 b2 n :
  bi_id b1 = bi_id b2 → bi_index b1 = bi_index b2 → 0 <= bi_index b1 < 4 →
  band_of (center_y b1) = NearUp → band_of (center_y b2) = FarDown →
  count_boxes (List.concat (replicate n [b1; b2])) counter_init =
    Ok (mk_counter [] [] [0; 0; 0; 0] (<[Z.to_nat (bi_index b1) := Z.of_nat n]> [0; 0; 0; 0])) ∧
  spec_run UNSEEN (List.concat (replicate n [band_of (center_y b1); band_of (center_y b2)])) =
    (UNSEEN, replicate n Down).
Proof.
  intros Hid Hidx Hk H1 H2. rewrite H1, H2, spec_run_oscillation. split; [|done].
  assert (∀ m c, count_boxes (List.concat (replicate m [b1; b2]))
            (mk_counter [] [] [0; 0; 0; 0] (<[Z.to_nat (bi_index b1) := c]> [0; 0; 0; 0])) =
          Ok (mk_counter [] [] [0; 0; 0; 0] (<[Z.to_nat (bi_index b1) := c + Z.of_nat m]> [0; 0; 0; 0])))
    as Hgen.
  { induction m as [|m IH]; intros c; [by rewrite Z.add_0_r|].
    change (List.concat (replicate (S m) [b1; b2])) with (b1 :: b2 :: List.concat (replicate m [b1; b2])).
    rewrite count_boxes_oscillation_step, IH by done. do 3 f_equal. lia. }
  specialize (Hgen n 0). rewrite list_insert_id in Hgen; [done|].
  assert (bi_index b1 = 0 ∨ bi_index b1 = 1 ∨ bi_index b1 = 2 ∨ bi_index b1 = 3) as [-> | [-> | [-> | ->]]]
    by lia; reflexivity.
Qed.

End SpecMachine.

(** ** Witnesses *)
Import AbsCounter PerId SpecMachine.

Lemma count_vehicle_refines_witness :
  abstract <$> count_vehicle (obs 1 200) (mk_counter [2] [1; 3] [0; 0; 0; 0] [0; 0; 0; 0]) =
  abs_observe (obs 1 200) (abstract (mk_counter [2] [1; 3] [0; 0; 0; 0] [0; 0; 0; 0])).
Proof. apply count_vehicle_refines; vc_decide. Defined.

Lemma count_boxes_refines_witness :
  abstract <$> count_boxes [obs 1 224; obs 2 213; obs 1 241] counter_init =
  abs_run [obs 1 224; obs 2 213; obs 1 241] (abstract counter_init).
Proof. apply count_boxes_refines. vc_decide. Defined.

Lemma count_boxes_per_id_witness :
  total_counts (mk_counter [2] [] [0; 0; 0; 0] [1; 0; 0; 0]) =
  total_counts counter_init +
  Z.of_nat (sum_list_with (λ j, length (snd (id_run (code_flags counter_init j)
                                   (id_trace j [obs 1 224; obs 2 213; obs 1 241])))) [1; 2]).
Proof.
  apply (count_boxes_per_id [obs 1 224; obs 2 213; obs 1 241] counter_init); [vc_decide| |vc_decide|vc_decide].
  vm_compute. reflexivity.
Defined.

Lemma count_vehicle_both_pending_witness :
  code_flags (mk_counter [1] [1] [0; 0; 0; 0] [0; 0; 0; 0]) (bi_id (obs 1 228)) = (true, true) ↔
  cross_arm PENDING_UP (band_of (center_y (obs 1 228))) = true.
Proof.
  apply (count_vehicle_both_pending (obs 1 228) (mk_counter [1] [] [0; 0; 0; 0] [0; 0; 0; 0]));
    [vc_decide|vm_compute; reflexivity|vm_compute; reflexivity].
Defined.

(** Two vehicles: 1 (bucket 0) crosses downward, 2 (bucket 2) upward. *)
Definition run4 : list box_id :=
  [obs 1 224; mk_box_id 100 218 20 20 2 2; obs 1 241; mk_box_id 100 195 20 20 2 2].

Lemma count_boxes_refines_spec_witness :
  spec_guard_free spec_init run4 = true ∧
  res_rel (λ s' st', (∀ j, code_flags s' j = embed (zone_of st' j)) ∧
                     up_list s' = sups st' ∧ down_list s' = sdowns st')
    (count_boxes run4 counter_init) (spec_counter_run run4 spec_init).
Proof. split; [vm_compute; reflexivity|]. apply count_boxes_refines_spec. vm_compute. reflexivity. Defined.

Lemma count_boxes_oscillation_witness :
  count_boxes (List.concat (replicate 3 [obs 1 224; obs 1 241])) counter_init =
    Ok (mk_counter [] [] [0; 0; 0; 0] (<[Z.to_nat (bi_index (obs 1 224)) := Z.of_nat 3]> [0; 0; 0; 0])) ∧
  spec_run UNSEEN (List.concat (replicate 3 [band_of (center_y (obs 1 224)); band_of (center_y (obs 1 241))])) =
    (UNSEEN, replicate 3 Down).
Proof.
  apply count_boxes_oscillation; [reflexivity|reflexivity|simpl; lia|vm_compute; reflexivity..].
Defined.

Lemma count_boxes_no_approach_id_witness :
  count_boxes [obs 1 224; obs 2 205; obs 1 241; obs 2 225] counter_init =
  count_boxes (filter (λ b, bi_id b ≠ 2) [obs 1 224; obs 2 205; obs 1 241; obs 2 225]) counter_init.
Proof.
  apply (count_boxes_no_approach_id 2); [apply counter_init_wf|vc_decide|vc_decide|].
  repeat apply List.Forall_cons; try apply List.Forall_nil;
    intros H; vm_compute in H |- *; first [discriminate H | split; discriminate].
Defined.
