(* ===== verification/Tracker.v ===== *)
(** * The identity tracker: [EuclideanDistTracker] of [tracker.py]

    [vehicle_count.py] imports the tracker ([from tracker import *],
    line 5), creates one instance (line 8) and calls
    [tracker.update(detection)] once per frame (line 137).  The file
    tracker.py is not part of the repository, so this file models it from
    spec.md section 4.1: nearest-centre matching under a 25 pixel
    threshold, ties broken by the lower identity, each object claimed at
    most once per frame in encounter order, a fresh identity from a counter
    that never goes back for an unmatched detection, and eviction of every
    object that no detection claimed.

    [TRACKER] is the interface the per-frame pipeline relies on (a class of
    tracker states with an [update] operation and its laws);
    [Euclidean] is the tracker of the spec and its instance. *)

From stdpp Require Import base list numbers sets.
From Stdlib Require Import ZArith QArith Lia.
From S2P Require Import Prelude Geometry.

Open Scope Z_scope.

(** ** The interface *)

Class Tracker (T : Type) := tracker_update : T → list detection → T * list box_id.

(** What the pipeline needs from a tracker: an invariant of its state that
    [update] preserves, the detections returned unchanged and in order
    with an identity attached, and distinct identities within one frame. *)
Class TrackerLaws (T : Type) `{Tracker T} (tracker_inv : T → Prop) := {
  update_inv t ds : tracker_inv t → tracker_inv (tracker_update t ds).1;
  update_detections t ds : box_detection <$> (tracker_update t ds).2 = ds;
  update_ids_NoDup t ds : tracker_inv t → NoDup (bi_id <$> (tracker_update t ds).2)
}.

Module Euclidean.

(** The active objects, identity and last centre, and the next identity. *)
Record tracker_state := mk_tracker {
  center_points : list (Z * (Z * Z));
  id_count : Z
}.

(** The first identity minted is 1 (spec.md section 8, scenario). *)
Definition tracker_init : tracker_state := mk_tracker [] 1.

(** Squared Euclidean distance: [hypot(dx, dy) < 25] iff
    [dx*dx + dy*dy < 625] on integers. *)
Definition dist2 (c p : Z * Z) : Z :=
  (c.1 - p.1) * (c.1 - p.1) + (c.2 - p.2) * (c.2 - p.2).

Definition threshold2 : Z := 25 * 25.

(** [(d, id)] is preferred to [(d', id')]: nearer, or as near and older. *)
Definition better (d id d' id' : Z) : bool :=
  (d <? d') || ((d =? d') && (id <? id')).

(** The candidate within the threshold that is nearest to [c], ties to
    the lower identity. *)
Fixpoint nearest (c : Z * Z) (cands : list (Z * (Z * Z))) : option (Z * (Z * Z)) :=
  match cands with
  | [] => None
  | (id, p) :: rest =>
      let best := nearest c rest in
      if dist2 c p <? threshold2 then
        match best with
        | Some (id', p') => if better (dist2 c p) id (dist2 c p') id' then Some (id, p) else best
        | None => Some (id, p)
        end
      else best
  end.

(** Drop a claimed object from the candidates of this frame. *)
Definition unclaim (id : Z) (cands : list (Z * (Z * Z))) : list (Z * (Z * Z)) :=
  filter (λ e, e.1 ≠ id) cands.

Definition det_center (d : detection) : Z * Z :=
  find_center (d_x d) (d_y d) (d_w d) (d_h d).

Definition tag (d : detection) (id : Z) : box_id :=
  mk_box_id (d_x d) (d_y d) (d_w d) (d_h d) id (d_index d).

(** The detections of one frame, in encounter order: the objects claimed
    (with their new centres), the next identity, the tagged boxes. *)
Fixpoint assign (cands : list (Z * (Z * Z))) (next : Z) (ds : list detection)
    : list (Z * (Z * Z)) * Z * list box_id :=
  match ds with
  | [] => ([], next, [])
  | d :: ds' =>
      let c := det_center d in
      match nearest c cands with
      | Some (id, _) =>
          let '(tbl, n, out) := assign (unclaim id cands) next ds' in
          ((id, c) :: tbl, n, tag d id :: out)
      | None =>
          let '(tbl, n, out) := assign cands (next + 1) ds' in
          ((next, c) :: tbl, n, tag d next :: out)
      end
  end.

(** [update(objects_rect)]: the objects not claimed this frame are
    evicted. *)
Definition update (st : tracker_state) (ds : list detection) : tracker_state * list box_id :=
  let '(tbl, n, out) := assign (center_points st) (id_count st) ds in
  (mk_tracker tbl n, out).


Definition keys (tbl : list (Z * (Z * Z))) : list Z := fst <$> tbl.

(** The tracker invariant: identities are distinct, and all of them, and
    all identities ever issued, are below the counter. *)
Definition tracker_wf (st : tracker_state) : Prop :=
  NoDup (keys (center_points st)) ∧ 0 <= id_count st ∧
  Forall (λ k, 0 <= k < id_count st) (keys (center_points st)).

#[export] Instance tracker_wf_dec st : Decision (tracker_wf st).
Proof. unfold tracker_wf. apply _. Defined.

Definition box_center (b : box_id) : Z * Z :=
  find_center (bi_x b) (bi_y b) (bi_w b) (bi_h b).

(** ** Lemmas on [nearest] *)

Lemma better_total d id d' id' :
  better d id d' id' = false → d' < d ∨ (d' = d ∧ id' <= id).
Proof. unfold better. zcmp; lia. Qed.

Lemma nearest_None c cands :
  nearest c cands = None → ∀ id p, (id, p) ∈ cands → threshold2 <= dist2 c p.
Proof.
  induction cands as [|[id0 p0] rest IH]; intros H id p Hin; [set_solver|].
  simpl in H. destruct (Z.ltb_spec (dist2 c p0) threshold2).
  - repeat case_match; simplify_eq.
  - apply elem_of_cons in Hin as [[= -> ->]|Hin]; [lia|]. eauto.
Qed.

Lemma nearest_Some c cands id p :
  nearest c cands = Some (id, p) →
  (id, p) ∈ cands ∧ dist2 c p < threshold2 ∧
  ∀ id' p', (id', p') ∈ cands → dist2 c p' < threshold2 →
    dist2 c p < dist2 c p' ∨ (dist2 c p = dist2 c p' ∧ id <= id').
Proof.
  revert id p. induction cands as [|[id0 p0] rest IH]; intros id p H; simpl in H; [done|].
  destruct (Z.ltb_spec (dist2 c p0) threshold2) as [Hlt|Hge].
  - destruct (nearest c rest) as [[id1 p1]|] eqn:Hn.
    + destruct (IH id1 p1 eq_refl) as (Hin1 & Hd1 & Hmin1).
      destruct (better _ _ _ _) eqn:Hb.
      * inv_res. split_and!; [set_solver|done|].
        intros id' p' [[= -> ->]|Hin']%elem_of_cons Hd'; [lia|].
        unfold better in Hb. specialize (Hmin1 id' p' Hin' Hd').
        apply orb_true_iff in Hb as [Hb|Hb]; [lia|].
        apply andb_true_iff in Hb as [Hb1 Hb2]. apply Z.eqb_eq in Hb1. apply Z.ltb_lt in Hb2. lia.
      * inv_res. apply better_total in Hb. split_and!; [set_solver|done|].
        intros id' p' [[= -> ->]|Hin']%elem_of_cons Hd'; [lia|]. auto.
    + inv_res. split_and!; [set_solver|done|].
      intros id' p' [[= -> ->]|Hin']%elem_of_cons Hd'; [lia|].
      pose proof (nearest_None c rest Hn id' p' Hin'). lia.
  - destruct (IH id p H) as (Hin & Hd & Hmin). split_and!; [set_solver|done|].
    intros id' p' [[= -> ->]|Hin']%elem_of_cons Hd'; [lia|]. auto.
Qed.


(** ** Lemmas on [assign] *)

Lemma elem_of_keys_unclaim k id cands :
  k ∈ keys (unclaim id cands) ↔ k ∈ keys cands ∧ k ≠ id.
Proof.
  unfold keys, unclaim. rewrite !list_elem_of_fmap. setoid_rewrite list_elem_of_filter.
  naive_solver.
Qed.

Lemma NoDup_keys_unclaim id cands : NoDup (keys cands) → NoDup (keys (unclaim id cands)).
Proof.
  intros Hnd. eapply sublist_NoDup; [exact Hnd|].
  unfold keys, unclaim. apply fmap_sublist, sublist_filter.
Qed.

Lemma elem_of_keys id p cands : (id, p) ∈ cands → id ∈ keys cands.
Proof. intros H. unfold keys. apply list_elem_of_fmap. by exists (id, p). Qed.

Lemma box_detection_tag d id : box_detection (tag d id) = d.
Proof. by destruct d. Qed.

(** What one frame's [assign] returns: the detections in order, each
    tagged; the new table holds exactly the tagged identities with the new
    centres; every identity is an old candidate or freshly minted. *)
Lemma assign_spec cands next ds tbl n out :
  assign cands next ds = (tbl, n, out) →
  box_detection <$> out = ds ∧
  tbl = (λ b, (bi_id b, box_center b)) <$> out ∧
  next <= n ∧
  Forall (λ b, bi_id b ∈ keys cands ∨ next <= bi_id b < n) out.
Proof.
  revert cands next tbl n out.
  induction ds as [|d ds IH]; intros cands next tbl n out H; simpl in H.
  - inv_res. split_and!; try done; lia.
  - destruct (nearest (det_center d) cands) as [[id p]|] eqn:Hn.
    + destruct (assign (unclaim id cands) next ds) as [[tbl' n'] out'] eqn:Ha. inv_res.
      destruct (IH _ _ _ _ _ Ha) as (Hd & Ht & Hle & Hf).
      apply nearest_Some in Hn as (Hin & _).
      rewrite !fmap_cons, box_detection_tag, Hd, Ht. split_and!; try done.
      constructor; [left; by eapply elem_of_keys|].
      eapply Forall_impl; [exact Hf|]. intros b [Hb|Hb]; [|by right].
      left. by apply elem_of_keys_unclaim in Hb as [? _].
    + destruct (assign cands (next + 1) ds) as [[tbl' n'] out'] eqn:Ha. inv_res.
      destruct (IH _ _ _ _ _ Ha) as (Hd & Ht & Hle & Hf).
      rewrite !fmap_cons, box_detection_tag, Hd, Ht. split_and!; try done; [lia|].
      constructor; [right; simpl; lia|].
      eapply Forall_impl; [exact Hf|]. intros b [Hb|Hb]; [by left|right; lia].
Qed.

Lemma assign_NoDup cands next ds tbl n out :
  NoDup (keys cands) → Forall (λ k, k < next) (keys cands) →
  assign cands next ds = (tbl, n, out) → NoDup (bi_id <$> out).
Proof.
  revert cands next tbl n out.
  induction ds as [|d ds IH]; intros cands next tbl n out Hnd Hlt H; simpl in H.
  - inv_res. constructor.
  - destruct (nearest (det_center d) cands) as [[id p]|] eqn:Hn.
    + destruct (assign (unclaim id cands) next ds) as [[tbl' n'] out'] eqn:Ha. inv_res.
      apply nearest_Some in Hn as (Hin & _). apply elem_of_keys in Hin.
      pose proof (assign_spec _ _ _ _ _ _ Ha) as (_ & _ & _ & Hf).
      simpl. constructor.
      * intros (b & Hb & Hbo)%list_elem_of_fmap.
        rewrite Forall_forall in Hf. destruct (Hf b Hbo) as [Hk|Hk].
        -- apply elem_of_keys_unclaim in Hk. simpl in Hb. naive_solver.
        -- rewrite Forall_forall in Hlt. specialize (Hlt id Hin). simpl in Hb. lia.
      * eapply IH; [by apply NoDup_keys_unclaim| |exact Ha].
        rewrite Forall_forall in Hlt |- *. intros k Hk.
        apply elem_of_keys_unclaim in Hk as [Hk _]. auto.
    + destruct (assign cands (next + 1) ds) as [[tbl' n'] out'] eqn:Ha. inv_res.
      pose proof (assign_spec _ _ _ _ _ _ Ha) as (_ & _ & _ & Hf).
      simpl. constructor.
      * intros (b & Hb & Hbo)%list_elem_of_fmap.
        rewrite Forall_forall in Hf. destruct (Hf b Hbo) as [Hk|Hk]; [|simpl in Hb; lia].
        rewrite Forall_forall in Hlt. specialize (Hlt _ Hk). simpl in Hb. lia.
      * eapply IH; [done| |exact Ha].
        eapply Forall_impl; [exact Hlt|]. simpl. intros; lia.
Qed.


(** The spec's matching rule for one detection with centre [c] among the
    candidate objects [P]: [id] is the nearest candidate within the
    threshold, ties to the lower identity ... *)
Definition nearest_among (P : Z * (Z * Z) → Prop) (c : Z * Z) (id : Z) : Prop :=
  ∃ p, P (id, p) ∧ dist2 c p < threshold2 ∧
    ∀ id' p', P (id', p') → dist2 c p' < threshold2 →
      dist2 c p < dist2 c p' ∨ (dist2 c p = dist2 c p' ∧ id <= id').

(** ... or no candidate is within the threshold. *)
Definition none_within (P : Z * (Z * Z) → Prop) (c : Z * Z) : Prop :=
  ∀ id' p', P (id', p') → threshold2 <= dist2 c p'.

Lemma nearest_among_iff (P Q : Z * (Z * Z) → Prop) c id :
  (∀ e, P e ↔ Q e) → nearest_among P c id → nearest_among Q c id.
Proof. intros HPQ (p & HP & Hd & Hmin). exists p. rewrite <- HPQ. split_and!; [done|done|]. intros ???%HPQ. auto. Qed.

Lemma none_within_iff (P Q : Z * (Z * Z) → Prop) c :
  (∀ e, P e ↔ Q e) → none_within P c → none_within Q c.
Proof. intros HPQ H id' p' HQ. apply (H id' p'), HPQ, HQ. Qed.

(** The objects of [cands] not claimed by the identities [claimed]. *)
Definition unclaimed (cands : list (Z * (Z * Z))) (claimed : list Z) (e : Z * (Z * Z)) : Prop :=
  e ∈ cands ∧ e.1 ∉ claimed.

(** The greedy assignment of one frame: the [i]-th detection is matched
    to the nearest object not claimed by an earlier detection of the
    frame, or gets a fresh identity when no such object is near enough. *)
Lemma assign_greedy cands next ds tbl n out i d b :
  NoDup (keys cands) → Forall (λ k, k < next) (keys cands) →
  assign cands next ds = (tbl, n, out) → ds !! i = Some d → out !! i = Some b →
  nearest_among (unclaimed cands (bi_id <$> take i out)) (det_center d) (bi_id b) ∨
  (next <= bi_id b ∧ none_within (unclaimed cands (bi_id <$> take i out)) (det_center d)).
Proof.
  revert cands next tbl n out i.
  induction ds as [|d0 ds IH]; intros cands next tbl n out i Hnd Hlt H Hd Hb; [done|].
  simpl in H. rewrite Forall_forall in Hlt.
  destruct (nearest (det_center d0) cands) as [[id p]|] eqn:Hn.
  - destruct (assign (unclaim id cands) next ds) as [[tbl' n'] out'] eqn:Ha. inv_res.
    apply nearest_Some in Hn as Hn'. destruct Hn' as (Hin & _).
    destruct i as [|i]; simpl in Hd, Hb; inv_res.
    + left. destruct (nearest_Some _ _ _ _ Hn) as (_ & Hdist & Hmin).
      exists p. unfold unclaimed. simpl. split_and!; [done|set_solver|done|]. intros id' p' [? _]. auto.
    + destruct (IH (unclaim id cands) next tbl' n out' i (NoDup_keys_unclaim _ _ Hnd)) as [Hm|[Hf Hw]];
        [|exact Ha|done|done| |].
      * rewrite Forall_forall. intros k [Hk _]%elem_of_keys_unclaim. auto.
      * left. eapply nearest_among_iff; [|exact Hm]. intros [k q]. unfold unclaimed, unclaim. simpl.
        rewrite list_elem_of_filter, elem_of_cons. naive_solver.
      * right. split; [done|]. eapply none_within_iff; [|exact Hw]. intros [k q]. unfold unclaimed, unclaim. simpl.
        rewrite list_elem_of_filter, elem_of_cons. naive_solver.
  - destruct (assign cands (next + 1) ds) as [[tbl' n'] out'] eqn:Ha. inv_res.
    destruct i as [|i]; simpl in Hd, Hb; inv_res.
    + right. split; [simpl; lia|]. intros id' p' [Hin _]. by eapply nearest_None.
    + assert (∀ e : Z * (Z * Z), e ∈ cands → e.1 ≠ next) as Hne.
      { intros [k q] Hk. apply elem_of_keys, Hlt in Hk. simpl. lia. }
      destruct (IH cands (next + 1) tbl' n out' i Hnd) as [Hm|[Hf Hw]]; [|exact Ha|done|done| |].
      * rewrite Forall_forall. intros k Hk. specialize (Hlt k Hk). lia.
      * left. eapply nearest_among_iff; [|exact Hm]. intros e. unfold unclaimed. simpl.
        rewrite elem_of_cons. specialize (Hne e). naive_solver.
      * right. split; [lia|]. eapply none_within_iff; [|exact Hw]. intros e. unfold unclaimed. simpl.
        rewrite elem_of_cons. specialize (Hne e). naive_solver.
Qed.


Lemma update_assign st ds :
  ∃ tbl n out, assign (center_points st) (id_count st) ds = (tbl, n, out) ∧
    update st ds = (mk_tracker tbl n, out).
Proof.
  unfold update. destruct (assign _ _ _) as [[tbl n] out]. by eexists _, _, _.
Qed.

Lemma tracker_wf_keys_lt st : tracker_wf st → Forall (λ k, k < id_count st) (keys (center_points st)).
Proof. intros (_ & _ & Hf). eapply Forall_impl; [exact Hf|]. simpl. lia. Qed.

(** ** Theorems on [update] *)

Lemma update_returns_detections' st ds :
  box_detection <$> (update st ds).2 = ds.
Proof.
  destruct (update_assign st ds) as (tbl & n & out & Ha & ->).
  apply (assign_spec _ _ _ _ _ _ Ha).
Qed.

(** [update] returns the frame's detections unchanged and in order
    (box and class bucket), each tagged with an identity. *)
Theorem update_returns_detections st ds :
  box_detection <$> (update st ds).2 = ds.
Proof. apply update_returns_detections'. Qed.

Lemma update_table' st ds :
  center_points (update st ds).1 = (λ b, (bi_id b, box_center b)) <$> (update st ds).2.
Proof.
  destruct (update_assign st ds) as (tbl & n & out & Ha & ->).
  apply (assign_spec _ _ _ _ _ _ Ha).
Qed.

(** C33: After a frame the active objects are exactly the objects tagged
    in that frame, each at the centre of its new box: a matched object has
    its centre overwritten, and every object no detection claimed is
    evicted. *)
Theorem update_table st ds :
  center_points (update st ds).1 = (λ b, (bi_id b, box_center b)) <$> (update st ds).2.
Proof. apply update_table'. Qed.

Lemma update_ids_distinct' st ds :
  tracker_wf st → NoDup (bi_id <$> (update st ds).2).
Proof.
  intros Hwf. destruct (update_assign st ds) as (tbl & n & out & Ha & ->).
  eapply assign_NoDup; [apply Hwf|by apply tracker_wf_keys_lt|exact Ha].
Qed.

(** C31: within one frame no two detections get the same identity: an
    object is claimed at most once. *)
Theorem update_ids_distinct st ds :
  tracker_wf st → NoDup (bi_id <$> (update st ds).2).
Proof. apply update_ids_distinct'. Qed.

Lemma update_fresh_ids' st ds :
  id_count st <= id_count (update st ds).1 ∧
  Forall (λ b, bi_id b ∈ keys (center_points st) ∨
               id_count st <= bi_id b < id_count (update st ds).1) (update st ds).2.
Proof.
  destruct (update_assign st ds) as (tbl & n & out & Ha & ->).
  apply (assign_spec _ _ _ _ _ _ Ha).
Qed.

(** Every identity [update] hands out is that of an active object
    or a fresh one, at least the old counter and below the new one; the
    counter never decreases. *)
Theorem update_fresh_ids st ds :
  id_count st <= id_count (update st ds).1 ∧
  Forall (λ b, bi_id b ∈ keys (center_points st) ∨
               id_count st <= bi_id b < id_count (update st ds).1) (update st ds).2.
Proof. apply update_fresh_ids'. Qed.

Lemma update_wf' st ds : tracker_wf st → tracker_wf (update st ds).1.
Proof.
  intros Hwf. pose proof (update_ids_distinct' st ds Hwf) as Hnd.
  pose proof (update_table' st ds) as Ht. pose proof (update_fresh_ids' st ds) as [Hle Hf].
  destruct Hwf as (_ & Hc & Hk).
  assert (keys (center_points (update st ds).1) = bi_id <$> (update st ds).2) as Hkeys.
  { rewrite Ht. unfold keys. rewrite <- list_fmap_compose. done. }
  split_and!; [by rewrite Hkeys|lia|]. rewrite Hkeys, Forall_fmap.
  eapply Forall_impl; [exact Hf|]. intros b [Hb|Hb]; simpl; [|lia].
  rewrite Forall_forall in Hk. specialize (Hk _ Hb). lia.
Qed.

(** C37: [update] preserves the tracker invariant: distinct active
    identities, all non-negative and below the counter. *)
Theorem update_wf st ds : tracker_wf st → tracker_wf (update st ds).1.
Proof. apply update_wf'. Qed.

Lemma update_never_reissues' st ds k :
  tracker_wf st → k < id_count st → k ∉ keys (center_points st) →
  k ∉ bi_id <$> (update st ds).2.
Proof.
  intros Hwf Hk Hn (b & -> & Hb)%list_elem_of_fmap.
  pose proof (update_fresh_ids' st ds) as [_ Hf]. rewrite Forall_forall in Hf.
  destruct (Hf b Hb) as [?|?]; [done|lia].
Qed.

(** C32: An identity that was issued before and is not active is never
    handed out again: identities are not reused. *)
Theorem update_never_reissues st ds k :
  tracker_wf st → k < id_count st → k ∉ keys (center_points st) →
  k ∉ bi_id <$> (update st ds).2.
Proof. apply update_never_reissues'. Qed.

(** C30: the greedy matching of spec.md section 4.1: the [i]-th detection
    of a frame gets the identity of the nearest active object within 25
    pixels that no earlier detection of the frame claimed, ties to the
    lower identity; and it gets a fresh identity exactly when no such
    object is within 25 pixels. *)
Theorem update_greedy st ds i d b :
  tracker_wf st → ds !! i = Some d → (update st ds).2 !! i = Some b →
  nearest_among (unclaimed (center_points st) (bi_id <$> take i (update st ds).2))
    (det_center d) (bi_id b) ∨
  (id_count st <= bi_id b ∧
   none_within (unclaimed (center_points st) (bi_id <$> take i (update st ds).2)) (det_center d)).
Proof.
  intros Hwf Hd. destruct (update_assign st ds) as (tbl & n & out & Ha & ->). simpl.
  eapply assign_greedy; [apply Hwf|by apply tracker_wf_keys_lt|exact Ha|exact Hd].
Qed.

(** Eviction (spec.md section 8): an object matched in one frame and
    absent from the next never gets its identity back, whatever the later
    detections are. *)
Theorem update_evicted_never_returns st ds1 ds2 ds3 k :
  tracker_wf st → k ∈ bi_id <$> (update st ds1).2 →
  k ∉ bi_id <$> (update (update st ds1).1 ds2).2 →
  k ∉ bi_id <$> (update (update (update st ds1).1 ds2).1 ds3).2.
Proof.
  intros Hwf Hk1 Hk2.
  pose proof (update_wf' st ds1 Hwf) as Hwf1. pose proof (update_wf' _ ds2 Hwf1) as Hwf2.
  apply update_never_reissues'; [done| |].
  - destruct (update_fresh_ids' (update st ds1).1 ds2) as [Hle _].
    apply tracker_wf_keys_lt in Hwf1. rewrite Forall_forall in Hwf1.
    assert (k < id_count (update st ds1).1); [|lia].
    apply Hwf1. unfold keys. rewrite update_table', <- list_fmap_compose. done.
  - unfold keys. rewrite update_table', <- list_fmap_compose. done.
Qed.

(** The tie-break scenario of spec.md section 8: objects 3 and 4
    are both 10 pixels from a detection; it is matched to 3, the older
    one, whatever the order of the table, and 4 is evicted. *)
Theorem update_tie_break_scenario :
  let d := mk_det 100 90 20 20 0 in
  update (mk_tracker [(3, (100, 100)); (4, (120, 100))] 5) [d] =
    (mk_tracker [(3, (110, 100))] 5, [tag d 3]) ∧
  update (mk_tracker [(4, (120, 100)); (3, (100, 100))] 5) [d] =
    (mk_tracker [(3, (110, 100))] 5, [tag d 3]).
Proof. split; vm_compute; reflexivity. Qed.

(** A frame with one detection and no active object mints the next
    identity. *)
Lemma update_single_new n d :
  update (mk_tracker [] n) [d] = (mk_tracker [(n, det_center d)] (n + 1), [tag d n]).
Proof. reflexivity. Qed.

(** A frame with one detection within the threshold of the one active
    object keeps that object's identity and moves it. *)
Lemma update_single_follow id p n d :
  dist2 (det_center d) p < threshold2 →
  update (mk_tracker [(id, p)] n) [d] = (mk_tracker [(id, det_center d)] n, [tag d id]).
Proof.
  intros Hd. unfold update. simpl. apply Z.ltb_lt in Hd. by rewrite Hd.
Qed.

Lemma tracker_init_wf : tracker_wf tracker_init.
Proof. unfold tracker_wf, tracker_init, keys. simpl. split_and!; [constructor|lia|constructor]. Qed.

#[export] Instance euclidean_tracker : Tracker tracker_state := update.

#[export] Instance euclidean_tracker_laws : TrackerLaws tracker_state tracker_wf.
Proof.
  split.
  - apply update_wf'.
  - apply update_returns_detections'.
  - apply update_ids_distinct'.
Qed.


(** ** Witnesses *)

Lemma update_ids_distinct_witness :
  NoDup (bi_id <$> (update (mk_tracker [(1, (100, 100))] 2)
                      [mk_det 95 95 10 10 0; mk_det 92 92 10 10 1; mk_det 300 300 10 10 2]).2).
Proof. apply update_ids_distinct. vc_decide. Defined.

Lemma update_wf_witness :
  tracker_wf (update (mk_tracker [(1, (100, 100)); (2, (200, 100))] 3)
                [mk_det 195 95 10 10 0; mk_det 400 400 10 10 1]).1.
Proof. apply update_wf. vc_decide. Defined.

(** Identity 1 was issued and evicted: a detection at its old place gets 3. *)
Lemma update_never_reissues_witness :
  1 ∉ bi_id <$> (update (mk_tracker [(2, (300, 300))] 3) [mk_det 95 95 10 10 0]).2.
Proof. apply update_never_reissues; [vc_decide|simpl; lia|vc_decide]. Defined.

(** The tie of spec.md section 8, as an instance of the greedy rule. *)
Lemma update_greedy_witness :
  nearest_among
    (unclaimed (center_points (mk_tracker [(3, (100, 100)); (4, (120, 100))] 5))
       (bi_id <$> take 0 (update (mk_tracker [(3, (100, 100)); (4, (120, 100))] 5) [mk_det 100 90 20 20 0]).2))
    (det_center (mk_det 100 90 20 20 0)) 3 ∨
  (id_count (mk_tracker [(3, (100, 100)); (4, (120, 100))] 5) <= 3 ∧
   none_within
    (unclaimed (center_points (mk_tracker [(3, (100, 100)); (4, (120, 100))] 5))
       (bi_id <$> take 0 (update (mk_tracker [(3, (100, 100)); (4, (120, 100))] 5) [mk_det 100 90 20 20 0]).2))
    (det_center (mk_det 100 90 20 20 0))).
Proof.
  apply (update_greedy (mk_tracker [(3, (100, 100)); (4, (120, 100))] 5) [mk_det 100 90 20 20 0] 0
           (mk_det 100 90 20 20 0) (tag (mk_det 100 90 20 20 0) 3));
    [vc_decide|reflexivity|vm_compute; reflexivity].
Defined.

(** Object 1 is seen, missed for one frame, and a detection at the same
    place then gets a new identity. *)
Lemma update_evicted_never_returns_witness :
  1 ∉ bi_id <$> (update (update (update tracker_init [mk_det 90 90 20 20 0]).1 []).1
                   [mk_det 90 90 20 20 0]).2.
Proof.
  apply (update_evicted_never_returns tracker_init [mk_det 90 90 20 20 0] [] [mk_det 90 90 20 20 0] 1);
    vc_decide.
Defined.

End Euclidean.
