(* ===== verification/Pipeline.v ===== *)
(** * The per-frame pipeline: [postProcess]

    [postProcess] (lines 99-139 of [src/vehicle_count.py]) turns the
    network outputs of one frame into detections: [np.argmax] of the class
    scores, the class and confidence filter, the box in pixels, non-max
    suppression (an OpenCV call, a parameter of the section) and
    [indices.flatten()] on the value the Python binding returns (an array,
    or the empty tuple when nothing is kept), the class name appended to the global [detected_classNames], the class bucket
    [required_class_index.index(classId)] (together [detect]); then it
    calls the tracker and [count_vehicle] on every tracked box.  The
    counts of class names that [from_static_image] reports are related
    here to the detections ([frequency_bucket]); the script itself is in
    Script.v.

    The tracker is used through the [Tracker]/[TrackerLaws] interface of
    Tracker.v, so every theorem here holds for any tracker that satisfies
    the laws; the last section instantiates the suppression with OpenCV's
    [NMSBoxes] (Nms.v): a frame crashes exactly when it has no vehicle
    candidate, and the detections handed on are pairwise separated and
    cover every candidate.  Floats are modelled by exact rationals: the comparisons and
    truncations are those of the code, without rounding. *)

From stdpp Require Import base list numbers sets strings.
From Stdlib Require Import ZArith QArith Lia.
From S2P Require Import Prelude Geometry Counter Tracker Nms.

Open Scope Z_scope.

(** [confThreshold = 0.2], [nmsThreshold = 0.2] (lines 15-16). *)
Definition confThreshold : Q := 1 # 5.
Definition nmsThreshold : Q := 1 # 5.

(** ** [np.argmax]: the index of the first maximum; [ValueError] on an
    empty array. *)
Fixpoint argmax_aux (xs : list Q) (i best : nat) (m : Q) : nat :=
  match xs with
  | [] => best
  | x :: xs' => if Qgtb x m then argmax_aux xs' (S i) i x else argmax_aux xs' (S i) best m
  end.

Definition np_argmax (l : list Q) : res Z :=
  match l with
  | [] => Err ValueError
  | x :: xs => Ok (Z.of_nat (argmax_aux xs 1 0 x))
  end.

(** The three parallel lists [boxes], [classIds], [confidence_scores]. *)
Definition candidates : Type := list (list Z) * list Z * list Q.

(** The body of the inner loop, lines 108-117, for one row [det] of a
    network output ([cx, cy, w, h, objectness, class scores...] as
    fractions of the image size). *)
Definition collect_det (width height : Z) (acc : candidates) (det : list Q) : res candidates :=
  let '(boxes, classIds, confidence_scores) := acc in
  let scores := drop 5 det in
  classId ← np_argmax scores;
  confidence ← scores.[classId];
  if bool_decide (classId ∈ required_class_index) then
    if Qgtb confidence confThreshold then
      d2 ← det.[2]; d3 ← det.[3];
      let w := py_int (d2 * inject_Z width) in
      let h := py_int (d3 * inject_Z height) in
      d0 ← det.[0]; d1 ← det.[1];
      let x := py_int (d0 * inject_Z width - inject_Z w / 2) in
      let y := py_int (d1 * inject_Z height - inject_Z h / 2) in
      Ok (boxes ++ [[x; y; w; h]], classIds ++ [classId], confidence_scores ++ [confidence])
    else Ok acc
  else Ok acc.

(** The two nested loops of lines 106-107, over the rows of all outputs. *)
Fixpoint collect (width height : Z) (dets : list (list Q)) (acc : candidates) : res candidates :=
  match dets with
  | [] => Ok acc
  | det :: dets' => acc' ← collect_det width height acc det; collect width height dets' acc'
  end.

(** The Python value the OpenCV bindings return for the [std::vector<int>]
    of kept indices: a NumPy array (of shape [N x 1]), but the empty tuple
    [()] when the vector is empty. *)
Inductive py_indices := NdArray (l : list Z) | EmptyTuple.

Definition cv_indices (v : list Z) : py_indices :=
  match v with [] => EmptyTuple | _ => NdArray v end.

(** [indices.flatten()] (line 121): a tuple has no [flatten] method. *)
Definition py_flatten (o : py_indices) : res (list Z) :=
  match o with NdArray l => Ok l | EmptyTuple => Err AttributeError end.

(** The state the script keeps across frames: the global
    [detected_classNames] (line 36), the tracker (line 8) and the counter
    lists (lines 64-67). *)
Record app_state (T : Type) := mk_app {
  detected_classNames : list string;
  tracker : T;
  counters : counter_state
}.
Arguments mk_app {T} _ _ _.
Arguments detected_classNames {T} _.
Arguments tracker {T} _.
Arguments counters {T} _.

Section PostProcess.

(** The contents of coco.names (line 29) and OpenCV's [NMSBoxes]
    (line 120), which returns the indices of the boxes it keeps. *)
Context (classNames : list string).
Context (NMSBoxes : list (list Z) → list Q → Q → Q → list Z).
Context {T : Type} `{Tracker T}.

(** [colors] (line 51) has one random row per class name; only its length
    matters, for the [IndexError] of line 124. *)
Definition colors : list unit := replicate (length classNames) ().

(** The loop of lines 121-134 over the kept indices. *)
Fixpoint emit (boxes : list (list Z)) (classIds : list Z) (confidence_scores : list Q)
    (indices : list Z) (names : list string) (detection : list Geometry.detection)
    : res (list string * list Geometry.detection) :=
  match indices with
  | [] => Ok (names, detection)
  | i :: indices' =>
      bx ← boxes.[i]; x ← bx.[0]; y ← bx.[1]; w ← bx.[2]; h ← bx.[3];
      cid ← classIds.[i];
      _ ← colors.[cid];
      name ← classNames.[cid];
      _ ← confidence_scores.[i];
      index ← py_index required_class_index cid;
      emit boxes classIds confidence_scores indices'
        (names ++ [name]) (detection ++ [mk_det x y w h index])
  end.

(** Lines 137-139: [boxes_ids = tracker.update(detection)], then
    [count_vehicle] on every tracked box. *)
Definition track_and_count (tr : T) (c : counter_state) (detection : list Geometry.detection)
    : res (T * counter_state) :=
  let '(tr', boxes_ids) := tracker_update tr detection in
  c' ← count_boxes boxes_ids c;
  Ok (tr', c').

(** Lines 100-134: the candidates, non-max suppression, and the loop over
    the kept boxes, from the global [detected_classNames]. *)
Definition detect (outputs : list (list (list Q))) (width height : Z) (names0 : list string)
    : res (list string * list Geometry.detection) :=
  '(boxes, classIds, confidence_scores) ← collect width height (concat outputs) ([], [], []);
  let indices := cv_indices (NMSBoxes boxes confidence_scores confThreshold nmsThreshold) in
  flat ← py_flatten indices;
  emit boxes classIds confidence_scores flat names0 [].

(** [postProcess(outputs, img)] for an image of [width] x [height]. *)
Definition postProcess (outputs : list (list (list Q))) (width height : Z)
    (st : app_state T) : res (app_state T) :=
  '(names, detection) ← detect outputs width height (detected_classNames st);
  '(tr, c) ← track_and_count (tracker st) (counters st) detection;
  Ok (mk_app names tr c).

(** [collections.Counter(detected_classNames)[name]]. *)
Definition frequency (names : list string) (name : string) : Z :=
  Z.of_nat (length (filter (λ n, n = name) names)).

(** The label of a class bucket (spec.md section 6): bucket [k] is the
    class [required_class_index[k]] of coco.names. *)
Definition bucket_name (k : Z) : string :=
  if k =? 0 then "car" else if k =? 1 then "motorbike" else if k =? 2 then "bus" else "truck".

(** The number of detections of class bucket [k]. *)
Definition bucket_count (ds : list Geometry.detection) (k : Z) : Z :=
  Z.of_nat (length (filter (λ d, d_index d = k) ds)).

End PostProcess.

(** ** [np.argmax] is the index of the first maximum *)

(** [k] is the index of the first maximum of [l]. *)
Definition is_first_max (l : list Q) (k : nat) : Prop :=
  ∃ m, l !! k = Some m ∧ (∀ j y, l !! j = Some y → (y <= m)%Q) ∧
       (∀ j y, (j < k)%nat → l !! j = Some y → (y < m)%Q).

Lemma Qgtb_true x m : Qgtb x m = true ↔ (m < x)%Q.
Proof. unfold Qgtb. rewrite negb_true_iff, <- not_true_iff_false, Qle_bool_iff. split; [apply Qnot_le_lt|apply Qlt_not_le]. Qed.

Lemma Qgtb_false x m : Qgtb x m = false ↔ (x <= m)%Q.
Proof. unfold Qgtb. rewrite negb_false_iff. apply Qle_bool_iff. Qed.

Lemma argmax_aux_first_max p xs best m :
  p !! best = Some m → (∀ j y, p !! j = Some y → (y <= m)%Q) →
  (∀ j y, (j < best)%nat → p !! j = Some y → (y < m)%Q) →
  is_first_max (p ++ xs) (argmax_aux xs (length p) best m).
Proof.
  revert p best m. induction xs as [|x xs IH]; intros p best m Hb Hle Hlt; simpl.
  - rewrite app_nil_r. by exists m.
  - replace (p ++ x :: xs) with ((p ++ [x]) ++ xs) by (by rewrite <- app_assoc).
    replace (S (length p)) with (length (p ++ [x])) by (rewrite length_app; simpl; lia).
    destruct (Qgtb x m) eqn:Hx; [apply Qgtb_true in Hx|apply Qgtb_false in Hx]; apply IH.
    + by rewrite lookup_app_r, Nat.sub_diag by lia.
    + intros j y [Hj|(Hj & Hj')]%lookup_app_Some.
      * apply Qle_trans with m; [by eapply Hle|by apply Qlt_le_weak].
      * apply list_lookup_singleton_Some in Hj' as [_ ->]. apply Qle_refl.
    + intros j y Hj Hy. rewrite lookup_app_l in Hy by done.
      eapply Qle_lt_trans; [by eapply Hle|done].
    + rewrite lookup_app_l; [done|]. by eapply lookup_lt_Some.
    + intros j y [Hj|(Hj & Hj')]%lookup_app_Some; [by eapply Hle|].
      by apply list_lookup_singleton_Some in Hj' as [_ ->].
    + intros j y Hj Hy. apply lookup_app_Some in Hy as [Hy|(Hj2 & _)].
      * by eapply Hlt.
      * apply lookup_lt_Some in Hb. lia.
Qed.

Lemma np_argmax_spec' l :
  (l = [] ∧ np_argmax l = Err ValueError) ∨
  (∃ k, np_argmax l = Ok (Z.of_nat k) ∧ is_first_max l k).
Proof.
  destruct l as [|x xs]; [by left|right]. simpl.
  eexists. split; [done|].
  apply (argmax_aux_first_max [x] xs 0 x); [done| |lia].
  intros j y [-> ->]%list_lookup_singleton_Some. apply Qle_refl.
Qed.


(** ** The candidates of one frame *)

(** The row is kept: its best class is one of the four vehicle classes and
    its score is above [confThreshold] (lines 111-112). *)
Definition keeps (k : Z) (c : Q) : bool :=
  bool_decide (k ∈ required_class_index) && Qgtb c confThreshold.

Lemma collect_det_spec' width height acc det :
  (6 <= length det)%nat →
  ∃ k c, np_argmax (drop 5 det) = Ok (Z.of_nat k) ∧ is_first_max (drop 5 det) k ∧
    drop 5 det !! k = Some c ∧
    if keeps (Z.of_nat k) c then
      ∃ bx, length bx = 4%nat ∧
        collect_det width height acc det = Ok (acc.1.1 ++ [bx], acc.1.2 ++ [Z.of_nat k], acc.2 ++ [c])
    else collect_det width height acc det = Ok acc.
Proof.
  intros Hlen. destruct (np_argmax_spec' (drop 5 det)) as [[Hnil _]|(k & Hk & Hmax)].
  { apply (f_equal length) in Hnil. rewrite length_drop in Hnil. simpl in Hnil. lia. }
  destruct Hmax as (c & Hc & Hle & Hlt). exists k, c. split_and!; [done|by exists c|done|].
  destruct acc as [[boxes classIds] confs]. unfold collect_det, keeps.
  rewrite Hk. simpl. rewrite (py_getitem_lookup _ _ _ Hc). simpl.
  destruct (bool_decide _); [|done]. destruct (Qgtb c confThreshold); [|done]. simpl.
  destruct (py_getitem_nonneg det 2) as (d2 & _ & ->); [lia|].
  destruct (py_getitem_nonneg det 3) as (d3 & _ & ->); [lia|].
  destruct (py_getitem_nonneg det 0) as (d0 & _ & ->); [lia|].
  destruct (py_getitem_nonneg det 1) as (d1 & _ & ->); [lia|].
  simpl. eexists. split; [|reflexivity]. done.
Qed.

(** C24: The filter of lines 108-117: a row with at least one class score
    never raises; it is appended to the candidates, as a four-number box
    with its best class and that class's score, exactly when the class is
    car, motorbike, bus or truck and the score exceeds 0.2; otherwise the
    candidates are unchanged. *)
Theorem collect_det_spec width height acc det :
  (6 <= length det)%nat →
  ∃ k c, np_argmax (drop 5 det) = Ok (Z.of_nat k) ∧ is_first_max (drop 5 det) k ∧
    drop 5 det !! k = Some c ∧
    if keeps (Z.of_nat k) c then
      ∃ bx, length bx = 4%nat ∧
        collect_det width height acc det = Ok (acc.1.1 ++ [bx], acc.1.2 ++ [Z.of_nat k], acc.2 ++ [c])
    else collect_det width height acc det = Ok acc.
Proof. apply collect_det_spec'. Qed.

(** The parallel lists stay aligned, every box has four numbers and every
    kept class is a vehicle class. *)
Definition cand_wf (acc : candidates) : Prop :=
  let '(boxes, classIds, confidence_scores) := acc in
  length boxes = length classIds ∧ length confidence_scores = length classIds ∧
  Forall (λ b, length b = 4%nat) boxes ∧ Forall (λ k, k ∈ required_class_index) classIds.

Lemma collect_det_wf width height acc det :
  (6 <= length det)%nat → cand_wf acc →
  ∃ acc', collect_det width height acc det = Ok acc' ∧ cand_wf acc'.
Proof.
  intros Hlen Hwf. destruct (collect_det_spec' width height acc det Hlen) as (k & c & _ & _ & _ & Hk).
  destruct (keeps _ _) eqn:Hkeep; [|by eauto].
  destruct Hk as (bx & Hbx & ->). eexists. split; [done|].
  destruct acc as [[boxes classIds] confs]. destruct Hwf as (H1 & H2 & H3 & H4). simpl.
  unfold keeps in Hkeep. apply andb_true_iff in Hkeep as [Hin _]. apply bool_decide_eq_true in Hin.
  rewrite !length_app, !Forall_app. simpl. split_and!; try lia; auto.
Qed.

Lemma collect_wf' width height dets acc :
  Forall (λ det, 6 <= length det)%nat dets → cand_wf acc →
  ∃ acc', collect width height dets acc = Ok acc' ∧ cand_wf acc'.
Proof.
  revert acc. induction dets as [|det dets IH]; intros acc Hdets Hwf; simpl; [by eauto|].
  apply Forall_cons in Hdets as [Hd Hdets].
  destruct (collect_det_wf width height acc det Hd Hwf) as (acc1 & -> & Hwf1). simpl.
  by apply IH.
Qed.

(** The two loops of lines 106-117 never raise when every row has at
    least one class score, and the candidates they collect are aligned
    lists of four-number boxes of vehicle classes. *)
Theorem collect_wf width height dets acc :
  Forall (λ det, 6 <= length det)%nat dets → cand_wf acc →
  ∃ acc', collect width height dets acc = Ok acc' ∧ cand_wf acc'.
Proof. apply collect_wf'. Qed.

(** ** The size of the boxes in pixels *)

(** The four box numbers of a network row are fractions of the image size. *)
Definition row_in_unit (det : list Q) : bool :=
  forallb (λ q, Qle_bool 0 q && Qle_bool q 1) (take 4 det).

(** A box [[x, y, w, h]] no larger than the image. *)
Definition box_within (width height : Z) (b : list Z) : bool :=
  match b with
  | [_; _; w; h] => (0 <=? w) && (w <=? width) && (0 <=? h) && (h <=? height)
  | _ => false
  end.

Lemma row_in_unit_lookup det i q :
  row_in_unit det = true → (i < 4)%nat → det !! i = Some q → (0 <= q <= 1)%Q.
Proof.
  intros Hr Hi Hq. unfold row_in_unit in Hr. rewrite forallb_forall in Hr.
  assert (Hin : q ∈ take 4 det) by (apply list_elem_of_lookup_2 with i; by rewrite lookup_take_lt).
  apply list_elem_of_In, Hr, andb_true_iff in Hin as [H0 H1].
  split; by apply Qle_bool_iff.
Qed.

Lemma collect_det_box_within width height boxes classIds confs det acc' :
  (0 <= width) → (0 <= height) → row_in_unit det = true →
  collect_det width height (boxes, classIds, confs) det = Ok acc' →
  Forall (λ b, box_within width height b = true) boxes →
  Forall (λ b, box_within width height b = true) acc'.1.1.
Proof.
  intros Hw Hh Hr Hc Hb. unfold collect_det in Hc.
  apply res_bind_Ok in Hc as (k & _ & Hc). apply res_bind_Ok in Hc as (c & _ & Hc).
  destruct (bool_decide _); [|by inv_res]. destruct (Qgtb _ _); [|by inv_res].
  apply res_bind_Ok in Hc as (d2 & H2%py_getitem_nonneg_inv & Hc); [|lia].
  apply res_bind_Ok in Hc as (d3 & H3%py_getitem_nonneg_inv & Hc); [|lia].
  repeat (apply res_bind_Ok in Hc as (? & _ & Hc)). inv_res. simpl.
  apply Forall_app. split; [done|]. apply Forall_singleton. simpl.
  pose proof (py_int_scale_bound d2 width (row_in_unit_lookup det 2 d2 Hr ltac:(lia) H2) Hw).
  pose proof (py_int_scale_bound d3 height (row_in_unit_lookup det 3 d3 Hr ltac:(lia) H3) Hh).
  repeat rewrite andb_true_iff. rewrite !Z.leb_le. lia.
Qed.

(** When the network gives the box as fractions of the image, every
    box the loops of lines 106-117 collect is [[x, y, w, h]] with
    [0 <= w <= width] and [0 <= h <= height]; [w] or [h] may be 0. *)
Theorem collect_box_bounds width height dets boxes classIds confs acc' :
  0 <= width → 0 <= height → Forall (λ det, row_in_unit det = true) dets →
  Forall (λ b, box_within width height b = true) boxes →
  collect width height dets (boxes, classIds, confs) = Ok acc' →
  Forall (λ b, box_within width height b = true) acc'.1.1.
Proof.
  intros Hw Hh Hdets. revert boxes classIds confs.
  induction Hdets as [|det dets Hd Hdets IH]; intros boxes classIds confs Hb Hc; simpl in Hc.
  - by inv_res.
  - apply res_bind_Ok in Hc as ([[boxes1 classIds1] confs1] & Hc1 & Hc).
    apply (IH boxes1 classIds1 confs1); [|done].
    apply (collect_det_box_within width height boxes classIds confs det _ Hw Hh Hd Hc1 Hb).
Qed.

(** A row whose box is 1/1000 of the image: the car is kept with a box
    of width and height 0. *)
Definition speck_row : list Q := [1#2; 1#2; 1#1000; 1#1000; 9#10; 0; 0; 9#10; 0]%Q.

(** ** The loop over the kept boxes, and the whole frame *)

Section PipelineProofs.
Context (classNames : list string).
Context (NMSBoxes : list (list Z) → list Q → Q → Q → list Z).
Context {T : Type} `{Tracker T} (tracker_inv : T → Prop) `{!TrackerLaws T tracker_inv}.

Lemma emit_ok boxes classIds confs indices names dets :
  (8 <= length classNames)%nat → cand_wf (boxes, classIds, confs) →
  Forall (λ i, 0 <= i < Z.of_nat (length boxes)) indices →
  ∃ names' dets', emit classNames boxes classIds confs indices names dets = Ok (names ++ names', dets ++ dets') ∧
    length names' = length indices ∧ length dets' = length indices ∧
    Forall (λ d, 0 <= d_index d < 4) dets'.
Proof.
  intros Hn (Hl1 & Hl2 & Hbx & Hcl). revert names dets.
  induction indices as [|i indices IH]; intros names dets Hidx; cbn -[py_index colors].
  { exists [], []. by rewrite !app_nil_r. }
  apply Forall_cons in Hidx as [Hi Hidx].
  destruct (py_getitem_nonneg boxes i Hi) as (bx & Hbxi & ->). cbn -[py_index colors].
  rewrite Forall_lookup in Hbx. specialize (Hbx _ _ Hbxi).
  destruct (py_getitem_nonneg bx 0) as (x & _ & ->); [lia|].
  destruct (py_getitem_nonneg bx 1) as (y & _ & ->); [lia|].
  destruct (py_getitem_nonneg bx 2) as (w & _ & ->); [lia|].
  destruct (py_getitem_nonneg bx 3) as (h & _ & ->); [lia|]. cbn -[py_index colors].
  destruct (py_getitem_nonneg classIds i) as (cid & Hcid & ->); [lia|]. cbn -[py_index colors].
  rewrite Forall_lookup in Hcl. specialize (Hcl _ _ Hcid).
  pose proof (required_class_index_bound _ Hcl) as Hb.
  destruct (py_getitem_nonneg (colors classNames) cid) as (? & _ & ->);
    [unfold colors; rewrite length_replicate; lia|]. cbn -[py_index colors].
  destruct (py_getitem_nonneg classNames cid) as (name & _ & ->); [lia|]. cbn -[py_index colors].
  destruct (py_getitem_nonneg confs i) as (? & _ & ->); [lia|]. cbn -[py_index colors].
  destruct (py_index_required cid Hcl) as (k & -> & Hk). cbn -[py_index colors].
  destruct (IH (names ++ [name]) (dets ++ [mk_det x y w h k]) Hidx) as (n' & d' & -> & Hn' & Hd' & Hf).
  exists (name :: n'), (mk_det x y w h k :: d'). rewrite <- !app_assoc. cbn -[py_index colors].
  split_and!; [done|lia|lia|]. constructor; [simpl; lia|done].
Qed.

Lemma emit_cons boxes classIds confs i indices names dets :
  emit classNames boxes classIds confs (i :: indices) names dets =
    (bx ← boxes.[i]; x ← bx.[0]; y ← bx.[1]; w ← bx.[2]; h ← bx.[3];
     cid ← classIds.[i]; _ ← (colors classNames).[cid]; name ← classNames.[cid];
     _ ← confs.[i]; index ← py_index required_class_index cid;
     emit classNames boxes classIds confs indices (names ++ [name]) (dets ++ [mk_det x y w h index])).
Proof. reflexivity. Qed.

(** One kept index: the lookups of lines 122-134 succeed, except
    [colors[classIds[i]]] and [classNames[classIds[i]]], which raise
    [IndexError] exactly when the class id is beyond the end of
    coco.names. *)
Lemma emit_cons_valid boxes classIds confs i indices names dets :
  cand_wf (boxes, classIds, confs) → 0 <= i < Z.of_nat (length boxes) →
  ∃ x y w h cid k, classIds !! Z.to_nat i = Some cid ∧ 0 <= k < 4 ∧
    emit classNames boxes classIds confs (i :: indices) names dets =
      match classNames !! Z.to_nat cid with
      | Some name => emit classNames boxes classIds confs indices (names ++ [name]) (dets ++ [mk_det x y w h k])
      | None => Err IndexError
      end.
Proof.
  intros (Hl1 & Hl2 & Hbx & Hcl) Hi. rewrite emit_cons.
  destruct (py_getitem_nonneg boxes i Hi) as (bx & Hbxi & ->). cbn -[py_index colors].
  rewrite Forall_lookup in Hbx. specialize (Hbx _ _ Hbxi).
  destruct (py_getitem_nonneg bx 0) as (x & _ & ->); [lia|].
  destruct (py_getitem_nonneg bx 1) as (y & _ & ->); [lia|].
  destruct (py_getitem_nonneg bx 2) as (w & _ & ->); [lia|].
  destruct (py_getitem_nonneg bx 3) as (h & _ & ->); [lia|]. cbn -[py_index colors].
  destruct (py_getitem_nonneg classIds i) as (cid & Hcid & ->); [lia|]. cbn -[py_index colors].
  rewrite Forall_lookup in Hcl. specialize (Hcl _ _ Hcid).
  pose proof (required_class_index_bound _ Hcl) as Hb.
  destruct (py_index_required cid Hcl) as (k & Hk & Hk4).
  exists x, y, w, h, cid, k. split; [done|]. split; [lia|].
  destruct (classNames !! Z.to_nat cid) as [name|] eqn:Hn.
  - pose proof (lookup_lt_Some _ _ _ Hn) as Hlt.
    destruct (py_getitem_nonneg (colors classNames) cid) as (? & _ & ->);
      [unfold colors; rewrite length_replicate; lia|]. cbn -[py_index colors].
    destruct (py_getitem_nonneg classNames cid) as (name' & Hn' & ->); [lia|]. cbn -[py_index colors].
    destruct (py_getitem_nonneg confs i) as (? & _ & ->); [lia|]. cbn -[py_index colors].
    rewrite Hk. cbn -[py_index colors]. congruence.
  - apply lookup_ge_None in Hn. rewrite (py_getitem_out (colors classNames) cid); [reflexivity|].
    unfold colors. rewrite length_replicate. lia.
Qed.

(** The loop over the kept indices succeeds exactly when every kept class
    id names a line of coco.names, and raises [IndexError] otherwise. *)
Lemma emit_cases boxes classIds confs indices names dets :
  cand_wf (boxes, classIds, confs) → Forall (λ i, 0 <= i < Z.of_nat (length boxes)) indices →
  (∃ names' dets', emit classNames boxes classIds confs indices names dets = Ok (names', dets')) ∧
    (∀ i cid, i ∈ indices → classIds !! Z.to_nat i = Some cid → (Z.to_nat cid < length classNames)%nat) ∨
  emit classNames boxes classIds confs indices names dets = Err IndexError ∧
    ∃ i cid, i ∈ indices ∧ classIds !! Z.to_nat i = Some cid ∧ (length classNames <= Z.to_nat cid)%nat.
Proof.
  intros Hwf. revert names dets. induction indices as [|i indices IH]; intros names dets Hidx.
  { left. split; [by eexists _, _|]. intros ?? Hx. by apply not_elem_of_nil in Hx. }
  apply Forall_cons in Hidx as [Hi Hidx].
  destruct (emit_cons_valid boxes classIds confs i indices names dets Hwf Hi) as (x & y & w & h & cid & k & Hcid & _ & ->).
  destruct (classNames !! Z.to_nat cid) as [name|] eqn:Hn.
  - destruct (IH (names ++ [name]) (dets ++ [mk_det x y w h k]) Hidx) as [[Hok Hall]|[Herr (j & cj & Hj & Hcj & Hge)]].
    + left. split; [done|]. intros j cj [->|Hj]%elem_of_cons Hcj.
      * rewrite Hcid in Hcj. injection Hcj as <-. by apply lookup_lt_Some in Hn.
      * by apply (Hall j).
    + right. split; [done|]. exists j, cj. split_and!; [by right|done|done].
  - right. split; [done|]. exists i, cid. split_and!; [by left|done|]. by apply lookup_ge_None in Hn.
Qed.

(** The loop of lines 121-134 appends one name and one detection per
    kept index, the detection's class bucket in [0, 4). *)
Lemma emit_shape boxes classIds confs indices names dets names' dets' :
  emit classNames boxes classIds confs indices names dets = Ok (names', dets') →
  ∃ n' d', names' = names ++ n' ∧ dets' = dets ++ d' ∧ length n' = length d' ∧
    Forall (λ d, 0 <= d_index d < 4) d'.
Proof.
  revert names dets. induction indices as [|i indices IH]; intros names dets He.
  { simpl in He. inv_res. exists [], []. by rewrite !app_nil_r. }
  rewrite emit_cons in He.
  repeat match goal with H : _ ≫= _ = Ok _ |- _ => apply res_bind_Ok in H as (? & ? & H) end.
  match goal with Hi : py_index _ _ = Ok ?k |- _ => apply py_index_Ok in Hi as [Hk0 Hk] end.
  apply lookup_lt_Some in Hk. simpl in Hk.
  apply IH in He as (n' & d' & -> & -> & Hl & Hf).
  eexists (_ :: n'), (_ :: d'). rewrite <- !app_assoc.
  split_and!; [done|done|simpl; lia|constructor; [simpl; lia|done]].
Qed.

(** The loop only appends to the names and detections it is given, so
    its result does not depend on them otherwise. *)
Lemma emit_shift boxes classIds confs indices names dets N D :
  emit classNames boxes classIds confs indices names dets = Ok (N, D) →
  ∃ n' d', N = names ++ n' ∧ D = dets ++ d' ∧
    ∀ names1 dets1, emit classNames boxes classIds confs indices names1 dets1 = Ok (names1 ++ n', dets1 ++ d').
Proof.
  revert names dets. induction indices as [|i indices IH]; intros names dets He.
  { cbn -[py_index colors] in He. inv_res. exists [], []. rewrite !app_nil_r. split_and!; [done|done|].
    intros. by rewrite !app_nil_r. }
  rewrite emit_cons in He.
  destruct (boxes.[i]) as [bx|] eqn:E1; [|done]; cbn -[py_index colors] in He.
  destruct (bx.[0]) as [x|] eqn:E2; [|done]; cbn -[py_index colors] in He.
  destruct (bx.[1]) as [y|] eqn:E3; [|done]; cbn -[py_index colors] in He.
  destruct (bx.[2]) as [w|] eqn:E4; [|done]; cbn -[py_index colors] in He.
  destruct (bx.[3]) as [h|] eqn:E5; [|done]; cbn -[py_index colors] in He.
  destruct (classIds.[i]) as [cid|] eqn:E6; [|done]; cbn -[py_index colors] in He.
  destruct ((colors classNames).[cid]) as [u|] eqn:E7; [|done]; cbn -[py_index colors] in He.
  destruct (classNames.[cid]) as [name|] eqn:E8; [|done]; cbn -[py_index colors] in He.
  destruct (confs.[i]) as [c|] eqn:E9; [|done]; cbn -[py_index colors] in He.
  destruct (py_index required_class_index cid) as [k|] eqn:E10; [|done]; cbn -[py_index colors] in He.
  apply IH in He as (n' & d' & -> & -> & Hall).
  exists (name :: n'), (mk_det x y w h k :: d'). rewrite <- !app_assoc. split_and!; [done|done|].
  intros names1 dets1. rewrite emit_cons, E1. cbn -[py_index colors]. rewrite E2, E3, E4, E5.
  cbn -[py_index colors]. rewrite E6. cbn -[py_index colors]. rewrite E7. cbn -[py_index colors].
  rewrite E8. cbn -[py_index colors]. rewrite E9. cbn -[py_index colors]. rewrite E10. cbn -[py_index colors].
  rewrite Hall. by rewrite <- !app_assoc.
Qed.

Lemma detect_shift outputs width height names0 N dets :
  detect classNames NMSBoxes outputs width height names0 = Ok (N, dets) →
  ∃ n', N = names0 ++ n' ∧ ∀ names1, detect classNames NMSBoxes outputs width height names1 = Ok (names1 ++ n', dets).
Proof.
  unfold detect. intros Hd. apply res_bind_Ok in Hd as ([[boxes classIds] confs] & Hcol & Hd).
  apply res_bind_Ok in Hd as (flat & Hf & Hd).
  apply emit_shift in Hd as (n' & d' & -> & -> & Hall). exists n'. split; [done|].
  intros names1. rewrite Hcol. simpl. rewrite Hf. simpl. by rewrite Hall.
Qed.

(** The rectangle of a detection, as OpenCV's [Rect]. *)
Definition det_rect (d : detection) : rect := mk_rect (d_x d) (d_y d) (d_w d) (d_h d).

(** The detection the loop appends for a kept index [i >= 0] has the box
    [boxes[i]]. *)
Lemma emit_boxes boxes classIds confs indices names dets names' dets' :
  emit classNames boxes classIds confs indices names dets = Ok (names', dets') →
  ∃ d', dets' = dets ++ d' ∧
    Forall2 (λ i d, 0 <= i → rect_of (boxes !!! Z.to_nat i) = det_rect d) indices d'.
Proof.
  revert names dets. induction indices as [|i indices IH]; intros names dets He.
  { simpl in He. inv_res. exists []. by rewrite app_nil_r. }
  rewrite emit_cons in He.
  apply res_bind_Ok in He as (bx & Hbx & He). apply res_bind_Ok in He as (x & Hx & He).
  apply res_bind_Ok in He as (y & Hy & He). apply res_bind_Ok in He as (w & Hw & He).
  apply res_bind_Ok in He as (h & Hh & He).
  repeat (apply res_bind_Ok in He as (? & _ & He)).
  apply IH in He as (d' & -> & Hf). eexists (_ :: d'). split; [by rewrite <- app_assoc|].
  constructor; [|done]. intros Hi.
  apply py_getitem_nonneg_inv in Hbx, Hx, Hy, Hw, Hh; try lia.
  rewrite (list_lookup_total_correct _ _ _ Hbx). unfold rect_of, det_rect. simpl.
  by rewrite (list_lookup_total_correct _ _ _ Hx), (list_lookup_total_correct _ _ _ Hy),
    (list_lookup_total_correct _ _ _ Hw), (list_lookup_total_correct _ _ _ Hh).
Qed.

(** C23: the detections [detect] hands to the tracker have the shape of
    spec.md section 6: each carries a class bucket in [0, 4), an index
    into the four tracked classes, and one class name is appended to
    [detected_classNames] per detection. *)
Theorem detect_well_typed outputs width height names0 names dets :
  detect classNames NMSBoxes outputs width height names0 = Ok (names, dets) →
  Forall (λ d, 0 <= d_index d < 4) dets ∧ length names = (length names0 + length dets)%nat.
Proof.
  unfold detect. intros Hd. apply res_bind_Ok in Hd as ([[boxes classIds] confs] & _ & Hd).
  apply res_bind_Ok in Hd as (flat & _ & Hd).
  apply emit_shape in Hd as (n' & d' & -> & -> & Hl & Hf).
  rewrite length_app. simpl. split; [done|lia].
Qed.

Section Coco.
(** coco.names lists car, motorbike, bus and truck at lines 3, 4, 6, 8. *)
Hypothesis Hcar : classNames !! 2%nat = Some "car"%string.
Hypothesis Hmotorbike : classNames !! 3%nat = Some "motorbike"%string.
Hypothesis Hbus : classNames !! 5%nat = Some "bus"%string.
Hypothesis Htruck : classNames !! 7%nat = Some "truck"%string.

(** The name appended at line 128 is the label of the bucket appended at
    line 134. *)
Lemma emit_name_bucket cid name index :
  classNames.[cid] = Ok name → py_index required_class_index cid = Ok index →
  name = bucket_name index ∧ 0 <= index < 4.
Proof.
  intros Hn (Hi0 & Hl)%py_index_Ok.
  destruct (Z.to_nat index) as [|[|[|[|n]]]] eqn:E; simpl in Hl; inv_res;
    [..|by rewrite lookup_nil in Hl];
    apply py_getitem_nonneg_inv in Hn; try lia;
    [pose proof (eq_trans (eq_sym Hn) Hcar) | pose proof (eq_trans (eq_sym Hn) Hmotorbike)
    |pose proof (eq_trans (eq_sym Hn) Hbus) | pose proof (eq_trans (eq_sym Hn) Htruck)];
    inv_res; (replace index with (Z.of_nat (Z.to_nat index)) by lia); rewrite E; done.
Qed.

(** The names [emit] appends are the labels of the buckets it appends. *)
Lemma emit_names boxes classIds confs indices names dets names' dets' :
  emit classNames boxes classIds confs indices names dets = Ok (names', dets') →
  ∃ d', dets' = dets ++ d' ∧ names' = names ++ (bucket_name ∘ d_index <$> d') ∧
    Forall (λ d, 0 <= d_index d < 4) d'.
Proof.
  revert names dets. induction indices as [|i indices IH]; intros names dets He.
  { simpl in He. inv_res. exists []. by rewrite !app_nil_r. }
  rewrite emit_cons in He.
  repeat match goal with H : _ ≫= _ = Ok _ |- _ => apply res_bind_Ok in H as (? & ? & H) end.
  match goal with
  | Hn : classNames.[?c] = Ok ?nm, Hi : py_index _ ?c = Ok ?k |- _ =>
      destruct (emit_name_bucket _ _ _ Hn Hi) as [-> Hk]
  end.
  apply IH in He as (d' & -> & -> & Hf).
  eexists (_ :: d'). rewrite <- !app_assoc. split_and!; [done|done|by constructor].
Qed.

(** The names [detect] appends to [detected_classNames] are the labels
    of the detections it returns. *)
Lemma detect_names outputs width height names0 names dets :
  detect classNames NMSBoxes outputs width height names0 = Ok (names, dets) →
  names = names0 ++ (bucket_name ∘ d_index <$> dets) ∧ Forall (λ d, 0 <= d_index d < 4) dets.
Proof.
  unfold detect. intros Hd. apply res_bind_Ok in Hd as ([[boxes classIds] confs] & _ & Hd).
  apply res_bind_Ok in Hd as (flat & _ & Hd).
  by apply emit_names in Hd as (d' & -> & -> & Hf).
Qed.

Lemma bucket_name_inj a b :
  0 <= a < 4 → 0 <= b < 4 → bucket_name a = bucket_name b → a = b.
Proof.
  intros Ha Hb. unfold bucket_name.
  destruct (Z.eqb_spec a 0), (Z.eqb_spec a 1), (Z.eqb_spec a 2),
           (Z.eqb_spec b 0), (Z.eqb_spec b 1), (Z.eqb_spec b 2); done || lia.
Qed.

(** [Counter(names)[bucket_name k]] is the number of detections in bucket [k]. *)
Lemma frequency_bucket ds k :
  Forall (λ d, 0 <= d_index d < 4) ds → 0 <= k < 4 →
  frequency (bucket_name ∘ d_index <$> ds) (bucket_name k) = bucket_count ds k.
Proof.
  intros Hds Hk. unfold frequency, bucket_count. f_equal.
  induction Hds as [|d ds Hd Hds IH]; [done|]. rewrite fmap_cons, !filter_cons.
  destruct (decide ((bucket_name ∘ d_index) d = bucket_name k)) as [E|E],
           (decide (d_index d = k)) as [E'|E']; simpl.
  - by rewrite IH.
  - exfalso. apply E'. by apply bucket_name_inj.
  - exfalso. apply E. simpl. by rewrite E'.
  - done.
Qed.
End Coco.

Lemma frequency_app a b name : frequency (a ++ b) name = frequency a name + frequency b name.
Proof. unfold frequency. rewrite filter_app, length_app. lia. Qed.

Lemma Forall_tracked_index (ds : list detection) (bs : list box_id) :
  box_detection <$> bs = ds → Forall (λ d, 0 <= d_index d < 4) ds →
  Forall (λ b, -4 <= bi_index b < 4) bs.
Proof.
  intros <- Hf. rewrite Forall_fmap in Hf. eapply Forall_impl; [exact Hf|]. simpl. lia.
Qed.

(** Lines 137-139 never raise on detections with class buckets, and keep
    both invariants. *)
Lemma track_and_count_safe t c ds :
  tracker_inv t → counter_wf c → Forall (λ d, 0 <= d_index d < 4) ds →
  ∃ t' c', track_and_count t c ds = Ok (t', c') ∧ tracker_inv t' ∧ counter_wf c' ∧ counts_le c c'.
Proof.
  intros Ht Hc Hds. unfold track_and_count.
  pose proof (update_inv t ds Ht) as Ht'. pose proof (update_detections t ds) as Hdet.
  destruct (tracker_update t ds) as [t' bs]. simpl in *.
  destruct (count_boxes_safe' bs c Hc (Forall_tracked_index ds bs Hdet Hds)) as (c' & Hr & Hc').
  rewrite Hr. simpl. exists t', c'. split_and!; try done. by eapply count_boxes_monotone'.
Qed.

(** One frame from its collected candidates: when NMS keeps none,
    [indices.flatten()] raises [AttributeError]; otherwise the frame is
    processed and the invariants are kept. *)
Lemma postProcess_cases outputs width height st boxes classIds confs :
  (8 <= length classNames)%nat →
  collect width height (concat outputs) ([], [], []) = Ok (boxes, classIds, confs) →
  cand_wf (boxes, classIds, confs) →
  Forall (λ i, 0 <= i < Z.of_nat (length boxes)) (NMSBoxes boxes confs confThreshold nmsThreshold) →
  tracker_inv (tracker st) → counter_wf (counters st) →
  match NMSBoxes boxes confs confThreshold nmsThreshold with
  | [] => postProcess classNames NMSBoxes outputs width height st = Err AttributeError
  | _ => ∃ st', postProcess classNames NMSBoxes outputs width height st = Ok st' ∧
      tracker_inv (tracker st') ∧ counter_wf (counters st') ∧ counts_le (counters st) (counters st')
  end.
Proof.
  intros Hn Hcol Hacc Hv Ht Hc. unfold postProcess, detect. rewrite Hcol. simpl.
  destruct (NMSBoxes boxes confs confThreshold nmsThreshold) as [|i idx] eqn:Hk; [done|].
  change (py_flatten (cv_indices (i :: idx)) ≫= ?k) with (k (i :: idx)). cbv beta.
  destruct (emit_ok boxes classIds confs (i :: idx) (detected_classNames st) [] Hn Hacc Hv)
    as (names' & dets' & -> & _ & _ & Hd).
  simpl. destruct (track_and_count_safe (tracker st) (counters st) dets' Ht Hc Hd)
    as (t' & c' & -> & Ht' & Hc' & Hle).
  simpl. by eexists.
Qed.

(** C17: [postProcess] raises no [IndexError] and no [ValueError] when
    coco.names has the eight first COCO classes, every network row has a
    class score and NMS returns indices of the boxes it was given: the
    candidates are collected, and when NMS keeps none of them
    [indices.flatten()] raises [AttributeError] (the binding returns an
    empty tuple), otherwise the frame is processed, keeping the tracker and
    counter invariants, and the counters only grow. *)
Theorem postProcess_safe outputs width height st :
  (8 <= length classNames)%nat →
  (∀ boxes confs, Forall (λ i, 0 <= i < Z.of_nat (length boxes))
                    (NMSBoxes boxes confs confThreshold nmsThreshold)) →
  Forall (λ det, 6 <= length det)%nat (concat outputs) →
  tracker_inv (tracker st) → counter_wf (counters st) →
  ∃ boxes classIds confs,
    collect width height (concat outputs) ([], [], []) = Ok (boxes, classIds, confs) ∧
    match NMSBoxes boxes confs confThreshold nmsThreshold with
    | [] => postProcess classNames NMSBoxes outputs width height st = Err AttributeError
    | _ => ∃ st', postProcess classNames NMSBoxes outputs width height st = Ok st' ∧
        tracker_inv (tracker st') ∧ counter_wf (counters st') ∧ counts_le (counters st) (counters st')
    end.
Proof.
  intros Hn Hnms Hrows Ht Hc.
  destruct (collect_wf' width height (concat outputs) ([], [], [])) as ([[boxes classIds] confs] & Hcol & Hacc);
    [done|repeat split; constructor|].
  exists boxes, classIds, confs. split; [done|]. by apply (postProcess_cases outputs width height st boxes classIds confs).
Qed.

(** C18: [postProcess] raises [IndexError] exactly when NMS keeps a box
    whose class id is beyond the end of coco.names: [colors] (line 51) has
    one row per name, so [colors[classIds[i]]] (line 124) raises first;
    every other lookup of the loop is within bounds, for any NMS returning
    indices of the boxes it was given and any rows with a class score. *)
Theorem postProcess_index_error outputs width height st :
  (∀ boxes confs, Forall (λ i, 0 <= i < Z.of_nat (length boxes))
                    (NMSBoxes boxes confs confThreshold nmsThreshold)) →
  Forall (λ det, 6 <= length det)%nat (concat outputs) →
  tracker_inv (tracker st) → counter_wf (counters st) →
  ∃ boxes classIds confs,
    collect width height (concat outputs) ([], [], []) = Ok (boxes, classIds, confs) ∧
    (postProcess classNames NMSBoxes outputs width height st = Err IndexError ↔
     ∃ i cid, i ∈ NMSBoxes boxes confs confThreshold nmsThreshold ∧ classIds !! Z.to_nat i = Some cid ∧
       (length classNames <= Z.to_nat cid)%nat).
Proof.
  intros Hnms Hrows Ht Hc.
  destruct (collect_wf' width height (concat outputs) ([], [], [])) as ([[boxes classIds] confs] & Hcol & Hacc);
    [done|repeat split; constructor|].
  exists boxes, classIds, confs. split; [done|]. unfold postProcess, detect. rewrite Hcol. simpl.
  pose proof (Hnms boxes confs) as Hv.
  destruct (NMSBoxes boxes confs confThreshold nmsThreshold) as [|i idx] eqn:Hk.
  { split; [done|]. intros (? & ? & Hx & _). by apply not_elem_of_nil in Hx. }
  change (py_flatten (cv_indices (i :: idx)) ≫= ?k) with (k (i :: idx)). cbv beta.
  destruct (emit_cases boxes classIds confs (i :: idx) (detected_classNames st) [] Hacc Hv)
    as [[(names' & dets' & He) Hall]|[He Hex]]; rewrite He; simpl; [|done].
  split; [|intros (j & cj & Hj & Hcj & Hge); specialize (Hall j cj Hj Hcj); lia].
  apply emit_shape in He as (n' & d' & _ & -> & _ & Hd). simpl.
  destruct (track_and_count_safe (tracker st) (counters st) d' Ht Hc Hd) as (t' & c' & -> & _).
  done.
Qed.

(** What [postProcess] does, when it returns: [detect], then the tracker
    and the counter on the detections. *)
Lemma postProcess_Ok outputs width height st st' :
  postProcess classNames NMSBoxes outputs width height st = Ok st' →
  ∃ dets t' c', detect classNames NMSBoxes outputs width height (detected_classNames st) =
                  Ok (detected_classNames st', dets) ∧
    track_and_count (tracker st) (counters st) dets = Ok (t', c') ∧
    tracker st' = t' ∧ counters st' = c'.
Proof.
  unfold postProcess. intros Hp.
  apply res_bind_Ok in Hp as ([names dets] & Hd & Hp). simpl in Hp.
  apply res_bind_Ok in Hp as ([t' c'] & Htc & Hp). inv_res. by exists dets, t', c'.
Qed.

(** From fresh counters one frame counts nothing: the tracker gives
    distinct identities, none of them pending. *)
Lemma track_and_count_fresh t ds t' c' :
  tracker_inv t → track_and_count t counter_init ds = Ok (t', c') →
  up_list c' = [0; 0; 0; 0] ∧ down_list c' = [0; 0; 0; 0].
Proof.
  intros Ht Htc. unfold track_and_count in Htc.
  pose proof (update_ids_NoDup t ds Ht) as Hnd.
  destruct (tracker_update t ds) as [t1 bs]. simpl in Hnd.
  apply res_bind_Ok in Htc as (c1 & Hc & Htc). inv_res.
  apply (count_boxes_fresh_ids bs counter_init c' Hc Hnd).
  apply Forall_forall. intros b _. simpl. split; apply not_elem_of_nil.
Qed.

End PipelineProofs.


(** ** Frame after frame

    The frame loop of spec.md section 5: the tracker, then the counter, on
    each frame's detections in order.  [vehicle_count.py] itself processes
    a single image ([from_static_image]); the video capture of line 11 is
    opened but never read. *)
Fixpoint track_frames {T : Type} `{Tracker T} (frames : list (list detection))
    (t : T) (c : counter_state) : res (T * counter_state) :=
  match frames with
  | [] => Ok (t, c)
  | ds :: frames' => '(t', c') ← track_and_count t c ds; track_frames frames' t' c'
  end.

Import Euclidean.

(** ** With OpenCV's [NMSBoxes]

    [postProcess] composed with the model of [cv2.dnn.NMSBoxes] (Nms.v). *)

(** The collected boxes and scores are aligned, and every collected
    score is above [confThreshold]. *)
Definition scored (acc : candidates) : Prop :=
  length acc.1.1 = length acc.2 ∧ Forall (λ c, Qgtb c confThreshold = true) acc.2.

Lemma collect_det_scored width height acc det acc' :
  collect_det width height acc det = Ok acc' → scored acc → scored acc'.
Proof.
  destruct acc as [[boxes classIds] confs]. unfold collect_det. intros H [Hl Hc].
  apply res_bind_Ok in H as (cid & _ & H). apply res_bind_Ok in H as (conf & _ & H).
  destruct (bool_decide _); [|by injection H as <-].
  destruct (Qgtb conf confThreshold) eqn:Hg; [|by injection H as <-].
  repeat (apply res_bind_Ok in H as (? & _ & H)). injection H as <-. simpl in *.
  unfold scored. simpl. split; [rewrite !length_app; simpl; lia|apply Forall_app; by split; [|constructor]].
Qed.

Lemma collect_scored width height dets acc acc' :
  collect width height dets acc = Ok acc' → scored acc → scored acc'.
Proof.
  revert acc. induction dets as [|det dets IH]; intros acc H Hc; simpl in H; [by injection H as <-|].
  apply res_bind_Ok in H as (acc1 & H1 & H). eauto using collect_det_scored.
Qed.

(** With OpenCV's suppression, which keeps the best candidate, NMS keeps
    none of the collected candidates exactly when there are none. *)
Lemma opencv_nms_nil width height dets boxes classIds confs :
  collect width height dets ([], [], []) = Ok (boxes, classIds, confs) →
  NMSBoxes boxes confs confThreshold nmsThreshold = [] ↔ confs = [].
Proof.
  intros Hcol. destruct (collect_scored _ _ _ _ _ Hcol (conj eq_refl (Forall_nil_2 _))) as [_ Hc].
  rewrite NMSBoxes_nil_iff'. split; [|intros ->; constructor].
  intros Hf. destruct confs as [|c confs]; [done|].
  apply Forall_cons in Hc as [Hc _]. apply Forall_cons in Hf as [Hf _]. congruence.
Qed.

(** The indices OpenCV's suppression returns on collected candidates are
    indices of the collected boxes. *)
Lemma opencv_nms_valid boxes classIds confs :
  cand_wf (boxes, classIds, confs) →
  Forall (λ i, 0 <= i < Z.of_nat (length boxes)) (NMSBoxes boxes confs confThreshold nmsThreshold).
Proof.
  intros (H1 & H2 & _). destruct (NMSBoxes_valid_indices' boxes confs confThreshold nmsThreshold) as [_ Hv].
  eapply Forall_impl; [exact Hv|]. intros i [Hi _]. lia.
Qed.

Lemma py_flatten_cv v l : py_flatten (cv_indices v) = Ok l → l = v.
Proof. destruct v; simpl; intros H; by inv_res. Qed.

(** [detect] with OpenCV's suppression: the candidates, and the loop over
    the indices [NMSBoxes] keeps. *)
Lemma detect_opencv classNames outputs width height names0 names dets :
  detect classNames NMSBoxes outputs width height names0 = Ok (names, dets) →
  ∃ boxes classIds confs, collect width height (concat outputs) ([], [], []) = Ok (boxes, classIds, confs) ∧
    emit classNames boxes classIds confs (NMSBoxes boxes confs confThreshold nmsThreshold) names0 [] =
      Ok (names, dets).
Proof.
  unfold detect. intros Hd. apply res_bind_Ok in Hd as ([[boxes classIds] confs] & Hcol & Hd).
  apply res_bind_Ok in Hd as (flat & Hf & Hd). apply py_flatten_cv in Hf as ->. eauto.
Qed.

(** C19: with OpenCV's [NMSBoxes], no two detections a frame hands to the
    tracker overlap by more than [nmsThreshold] = 0.2 (intersection over
    union of their boxes). *)
Theorem detect_separated classNames outputs width height names0 names dets :
  detect classNames NMSBoxes outputs width height names0 = Ok (names, dets) →
  ∀ k1 k2 d1 d2, dets !! k1 = Some d1 → dets !! k2 = Some d2 → k1 ≠ k2 →
    (rect_overlap (det_rect d1) (det_rect d2) <= nmsThreshold)%Q.
Proof.
  intros Hd k1 k2 d1 d2 H1 H2 Hne.
  destruct (detect_opencv _ _ _ _ _ _ _ Hd) as (boxes & classIds & confs & _ & He).
  apply emit_boxes in He as (d' & -> & Hall).
  destruct (NMSBoxes_valid_indices' boxes confs confThreshold nmsThreshold) as [Hnd Hv].
  destruct (Forall2_lookup_r _ _ _ _ _ Hall H1) as (i1 & Hi1 & Hr1).
  destruct (Forall2_lookup_r _ _ _ _ _ Hall H2) as (i2 & Hi2 & Hr2).
  rewrite Forall_lookup in Hv. destruct (Hv _ _ Hi1) as [Hb1 _], (Hv _ _ Hi2) as [Hb2 _].
  rewrite <- Hr1, <- Hr2 by lia.
  apply (NMSBoxes_separated boxes confs confThreshold nmsThreshold); [by eapply list_elem_of_lookup_2|by eapply list_elem_of_lookup_2|].
  intros ->. apply Hne. by eapply NoDup_lookup.
Qed.

(** C20: with OpenCV's [NMSBoxes], every vehicle candidate of a frame (a
    row of class car, motorbike, bus or truck scored above 0.2) is handed
    to the tracker, or overlaps a detection that is by more than
    [nmsThreshold]. *)
Theorem detect_covers classNames outputs width height names0 names dets boxes classIds confs b :
  detect classNames NMSBoxes outputs width height names0 = Ok (names, dets) →
  collect width height (concat outputs) ([], [], []) = Ok (boxes, classIds, confs) →
  b ∈ boxes →
  ∃ d, d ∈ dets ∧ (rect_of b = det_rect d ∨ (nmsThreshold < rect_overlap (rect_of b) (det_rect d))%Q).
Proof.
  intros Hd Hcol (i & Hb)%list_elem_of_lookup.
  destruct (detect_opencv _ _ _ _ _ _ _ Hd) as (boxes' & classIds' & confs' & Hcol' & He).
  rewrite Hcol in Hcol'. injection Hcol' as <- <- <-.
  apply emit_boxes in He as (d' & -> & Hall). simpl.
  destruct (collect_scored _ _ _ _ _ Hcol (conj eq_refl (Forall_nil_2 _))) as [Hl Hc]. simpl in Hl, Hc.
  destruct (lookup_lt_is_Some_2 confs i) as (s & Hs); [apply lookup_lt_Some in Hb; lia|].
  destruct (NMSBoxes_valid_indices' boxes confs confThreshold nmsThreshold) as [_ Hv].
  rewrite Forall_lookup in Hv.
  destruct (decide (Z.of_nat i ∈ NMSBoxes boxes confs confThreshold nmsThreshold)) as [Hin|Hout].
  - apply list_elem_of_lookup in Hin as (k & Hk).
    destruct (Forall2_lookup_l _ _ _ _ _ Hall Hk) as (d & Hdk & Hr).
    exists d. split; [by eapply list_elem_of_lookup_2|left].
    rewrite <- Hr by lia. by rewrite Nat2Z.id, (list_lookup_total_correct _ _ _ Hb).
  - rewrite Forall_lookup in Hc.
    destruct (NMSBoxes_suppressed boxes confs confThreshold nmsThreshold i s Hs (Hc _ _ Hs) Hout)
      as (kk & Hkk & Hov).
    apply list_elem_of_lookup in Hkk as (k & Hk).
    destruct (Forall2_lookup_l _ _ _ _ _ Hall Hk) as (d & Hdk & Hr).
    exists d. split; [by eapply list_elem_of_lookup_2|right].
    destruct (Hv _ _ Hk) as [Hk0 _]. rewrite <- Hr by lia.
    by rewrite (list_lookup_total_correct _ _ _ Hb) in Hov.
Qed.

(** C16: with OpenCV's [NMSBoxes], coco.names holding the eight first
    COCO classes and every network row holding a class score, a frame is
    collected; it raises [AttributeError] at [indices.flatten()] exactly
    when no row is a vehicle scored above 0.2, and is otherwise processed
    without error, keeping the tracker and counter invariants, the
    counters only growing. *)
Theorem postProcess_opencv classNames outputs width height st :
  (8 <= length classNames)%nat →
  Forall (λ det, 6 <= length det)%nat (concat outputs) →
  tracker_wf (tracker st) → counter_wf (counters st) →
  ∃ boxes classIds confs,
    collect width height (concat outputs) ([], [], []) = Ok (boxes, classIds, confs) ∧
    (confs = [] → postProcess classNames NMSBoxes outputs width height st = Err AttributeError) ∧
    (confs ≠ [] → ∃ st', postProcess classNames NMSBoxes outputs width height st = Ok st' ∧
       tracker_wf (tracker st') ∧ counter_wf (counters st') ∧ counts_le (counters st) (counters st')).
Proof.
  intros Hn Hrows Ht Hc.
  destruct (collect_wf' width height (concat outputs) ([], [], [])) as ([[boxes classIds] confs] & Hcol & Hacc);
    [done|repeat split; constructor|].
  exists boxes, classIds, confs. split; [done|].
  pose proof (postProcess_cases classNames NMSBoxes tracker_wf outputs width height st boxes classIds confs
                Hn Hcol Hacc (opencv_nms_valid _ _ _ Hacc) Ht Hc) as Hcase.
  pose proof (opencv_nms_nil _ _ _ _ _ _ Hcol) as Hnil.
  destruct (NMSBoxes boxes confs confThreshold nmsThreshold); split; intros Hconf.
  - done.
  - by destruct Hconf; apply Hnil.
  - by assert (z :: l = []) by (by apply Hnil).
  - done.
Qed.

(** A 20x20 detection of class bucket 0 whose centre is [(cx, cy)]. *)
Definition det_at (cx cy : Z) : detection := mk_det (cx - 10) (cy - 10) 20 20 0.

(** The three-frame scenario of spec.md section 8 (centre at
    up-line + 3 = 213, then at down-line + 3 = 243, then a far-away
    detection in the near-down band) does not count the vehicle: the
    centre moved 30 pixels, more than the 25 pixel threshold, so the
    second detection is a new object; the spec expects [downCounts[0] = 1]. *)
Theorem spec_scenario_not_counted :
  track_frames [[det_at 100 213]; [det_at 100 243]; [det_at 310 228]] tracker_init counter_init =
    Ok (mk_tracker [(3, (310, 228))] 4, mk_counter [1] [3] [0; 0; 0; 0] [0; 0; 0; 0]).
Proof. vm_compute. reflexivity. Qed.

(** A vehicle whose centre moves from 224 (near-up band) to 241
    (beyond the lower line), 17 pixels, keeps its identity and is counted
    once as a downward crossing in its class bucket. *)
Theorem two_frames_count_down :
  track_frames [[det_at 100 224]; [det_at 100 241]] tracker_init counter_init =
    Ok (mk_tracker [(1, (100, 241))] 2, mk_counter [] [] [0; 0; 0; 0] [1; 0; 0; 0]).
Proof. vm_compute. reflexivity. Qed.

(** ** Witnesses *)

(** The first eight lines of coco.names. *)
Definition coco8 : list string :=
  ["person"; "bicycle"; "car"; "motorbike"; "aeroplane"; "bus"; "train"; "truck"]%string.

(** A suppression that keeps every box. *)
Definition nms_all (boxes : list (list Z)) (confs : list Q) (t1 t2 : Q) : list Z :=
  seqZ 0 (Z.of_nat (length boxes)).

(** A row: a car box at the image centre, 10% of its size, score 0.9. *)
Definition car_row : list Q := [1#2; 1#2; 1#10; 1#10; 9#10; 0; 0; 9#10; 0]%Q.

Lemma nms_all_valid boxes confs :
  Forall (λ i, 0 <= i < Z.of_nat (length boxes)) (nms_all boxes confs confThreshold nmsThreshold).
Proof. unfold nms_all. apply Forall_forall. intros i Hi%elem_of_seqZ. lia. Qed.

Lemma collect_det_spec_witness :
  ∃ k c, np_argmax (drop 5 car_row) = Ok (Z.of_nat k) ∧ is_first_max (drop 5 car_row) k ∧
    drop 5 car_row !! k = Some c ∧
    if keeps (Z.of_nat k) c then
      ∃ bx, length bx = 4%nat ∧
        collect_det 320 320 ([], [], []) car_row = Ok ([] ++ [bx], [] ++ [Z.of_nat k], [] ++ [c])
    else collect_det 320 320 ([], [], []) car_row = Ok ([], [], []).
Proof. apply collect_det_spec. simpl. lia. Defined.

Lemma collect_wf_witness :
  ∃ acc', collect 320 320 [car_row; [0; 0; 0; 0; 0; 1#2]%Q] ([], [], []) = Ok acc' ∧ cand_wf acc'.
Proof. apply collect_wf; [vc_decide|vm_compute; split_and!; constructor]. Defined.

Lemma postProcess_safe_witness :
  ∃ boxes classIds confs,
    collect 320 320 (concat [[car_row]; [car_row]]) ([], [], []) = Ok (boxes, classIds, confs) ∧
    match nms_all boxes confs confThreshold nmsThreshold with
    | [] => postProcess coco8 nms_all [[car_row]; [car_row]] 320 320 (mk_app [] tracker_init counter_init) = Err AttributeError
    | _ => ∃ st', postProcess coco8 nms_all [[car_row]; [car_row]] 320 320 (mk_app [] tracker_init counter_init) = Ok st' ∧
        tracker_wf (tracker st') ∧ counter_wf (counters st') ∧ counts_le counter_init (counters st')
    end.
Proof.
  apply (postProcess_safe coco8 nms_all tracker_wf);
    [simpl; lia|apply nms_all_valid|vc_decide|apply tracker_init_wf|apply counter_init_wf].
Defined.

(** A row: a bus box in the upper-left quarter, score 0.8. *)
Definition bus_row : list Q := [1#4; 1#4; 1#10; 1#5; 7#10; 0; 0; 0; 0; 0; 4#5]%Q.

Lemma collect_box_bounds_witness :
  Forall (λ b, box_within 320 320 b = true) [[144; 144; 32; 32]; [64; 48; 32; 64]; [160; 160; 0; 0]].
Proof.
  change [[144; 144; 32; 32]; [64; 48; 32; 64]; [160; 160; 0; 0]]
    with ([[144; 144; 32; 32]; [64; 48; 32; 64]; [160; 160; 0; 0]],
          [2; 5; 2], [9#10; 4#5; 9#10]%Q).1.1.
  apply (collect_box_bounds 320 320 [car_row; bus_row; speck_row] [] [] []);
    [lia|lia|repeat constructor|constructor|vm_compute; reflexivity].
Defined.

(** A car whose box is narrower than a pixel becomes a detection of
    width and height 0 (line 113 truncates [0.32] to [0]); [postProcess]
    hands it to the tracker, which gives it an identity, where spec.md
    (sections 3 and 7) requires [w, h > 0] and asks the detection stage to
    reject such a box. *)
Theorem postProcess_tracks_zero_size_box :
  detect coco8 nms_all [[speck_row]] 320 320 [] = Ok (["car"]%string, [mk_det 160 160 0 0 0]) ∧
  postProcess coco8 nms_all [[speck_row]] 320 320 (mk_app [] tracker_init counter_init) =
    Ok (mk_app ["car"]%string (mk_tracker [(1, (160, 160))] 2) counter_init).
Proof. split; vm_compute; reflexivity. Qed.

Lemma detect_well_typed_witness :
  Forall (λ d, 0 <= d_index d < 4) [mk_det 144 144 32 32 0; mk_det 64 48 32 64 2] ∧
  length ["car"; "bus"]%string = (length (@nil string) + length [mk_det 144 144 32 32 0; mk_det 64 48 32 64 2])%nat.
Proof.
  apply (detect_well_typed coco8 nms_all [[car_row; bus_row]] 320 320 []).
  vm_compute. reflexivity.
Defined.

Lemma postProcess_opencv_witness :
  ∃ boxes classIds confs,
    collect 320 320 (concat [[car_row]]) ([], [], []) = Ok (boxes, classIds, confs) ∧
    (confs = [] → postProcess coco8 NMSBoxes [[car_row]] 320 320 (mk_app [] tracker_init counter_init) = Err AttributeError) ∧
    (confs ≠ [] → ∃ st', postProcess coco8 NMSBoxes [[car_row]] 320 320 (mk_app [] tracker_init counter_init) = Ok st' ∧
       tracker_wf (tracker st') ∧ counter_wf (counters st') ∧ counts_le counter_init (counters st')).
Proof.
  apply (postProcess_opencv coco8 [[car_row]] 320 320 (mk_app [] tracker_init counter_init));
    [simpl; lia|vc_decide|apply tracker_init_wf|apply counter_init_wf].
Defined.

(** A second car box one pixel below [car_row], score 0.8. *)
Definition car_row_below : list Q := [1#2; 161#320; 1#10; 1#10; 4#5; 0; 0; 4#5; 0]%Q.

Lemma detect_separated_witness :
  (rect_overlap (det_rect (mk_det 144 144 32 32 0)) (det_rect (mk_det 64 48 32 64 2)) <= nmsThreshold)%Q.
Proof.
  apply (detect_separated coco8 [[car_row; bus_row]] 320 320 [] ["car"; "bus"]%string
           [mk_det 144 144 32 32 0; mk_det 64 48 32 64 2] ltac:(vm_compute; reflexivity) 0%nat 1%nat);
    [reflexivity|reflexivity|lia].
Defined.

Lemma detect_covers_witness :
  ∃ d, d ∈ [mk_det 144 144 32 32 0] ∧
    (rect_of [144; 145; 32; 32] = det_rect d ∨ (nmsThreshold < rect_overlap (rect_of [144; 145; 32; 32]%Z) (det_rect d))%Q).
Proof.
  apply (detect_covers coco8 [[car_row]; [car_row_below]] 320 320 [] ["car"]%string [mk_det 144 144 32 32 0]
           [[144; 144; 32; 32]; [144; 145; 32; 32]] [2; 2] [9#10; 4#5]%Q);
    [vm_compute; reflexivity|vm_compute; reflexivity|vc_decide].
Defined.

(** The first three lines of coco.names only. *)
Definition coco3 : list string := ["person"; "bicycle"; "car"]%string.

Lemma postProcess_index_error_witness :
  ∃ boxes classIds confs,
    collect 320 320 (concat [[bus_row]]) ([], [], []) = Ok (boxes, classIds, confs) ∧
    (postProcess coco3 nms_all [[bus_row]] 320 320 (mk_app [] tracker_init counter_init) = Err IndexError ↔
     ∃ i cid, i ∈ nms_all boxes confs confThreshold nmsThreshold ∧ classIds !! Z.to_nat i = Some cid ∧
       (length coco3 <= Z.to_nat cid)%nat).
Proof.
  apply (postProcess_index_error coco3 nms_all tracker_wf);
    [apply nms_all_valid|vc_decide|apply tracker_init_wf|apply counter_init_wf].
Defined.
