(* ===== verification/Drive.v ===== *)
(** * A vehicle driving across the line is counted

    The tracker ([Euclidean], Tracker.v) and the counter ([count_vehicle],
    Counter.v) composed frame after frame by [track_frames] (Pipeline.v):
    one vehicle, alone on the road, seen once per frame.  When its centre
    moves down by at most 14 pixels per frame (never skipping the 14-pixel
    near-up band) and by less than the tracker's 25 pixels, and it starts
    above the middle line and ends below the lower line, it keeps identity
    1 throughout and is counted exactly once, as a downward crossing of
    its class bucket.

    The proof follows the vehicle through three phases (above the near-up
    band, pending up, counted), with a step lemma for one frame and the
    run by induction on the frames.  A vehicle moving faster can jump over
    the near band and is not counted
    ([vehicle_skipping_near_band_not_counted]). *)

From stdpp Require Import base list numbers sets.
From Stdlib Require Import ZArith Lia.
From S2P Require Import Prelude Geometry Counter Tracker Pipeline.
Import Euclidean.

Open Scope Z_scope.

(** The y coordinate of a detection's centre. *)
Definition cy_of (d : detection) : Z := (det_center d).2.

(** From one frame to the next the vehicle stays within the tracker's
    threshold and moves down by at most 14 pixels. *)
Definition step_down (d d' : detection) : bool :=
  (dist2 (det_center d') (det_center d) <? threshold2) &&
  (cy_of d <=? cy_of d') && (cy_of d' <=? cy_of d + 14).

Fixpoint drives_down (d : detection) (ds : list detection) : bool :=
  match ds with
  | [] => true
  | d' :: ds' => step_down d d' && drives_down d' ds'
  end.

Definition zeros : list Z := [0; 0; 0; 0].

(** Where the vehicle is in its crossing, after a frame whose detection
    is [dl]: above the near-up band with nothing recorded; pending up
    (and perhaps pending down); or counted once downward in bucket [k]. *)
Definition phase (k : Z) (dl : detection) (t : tracker_state) (c : counter_state) : Prop :=
  t = mk_tracker [(1, det_center dl)] 2 ∧
  ((cy_of dl <= up_line_position ∧ c = counter_init) ∨
   (up_line_position < cy_of dl <= down_line_position ∧
      ∃ tdl, (tdl = [] ∨ tdl = [1]) ∧ c = mk_counter [1] tdl zeros zeros) ∨
   (down_line_position < cy_of dl ∧
      ∃ tdl, (tdl = [] ∨ tdl = [1]) ∧ c = mk_counter [] tdl zeros (<[Z.to_nat k := 1]> zeros))).

(** ** Lemmas *)

Lemma zeros_lookup n : (n < 4)%nat → zeros !!! n = 0.
Proof. intros Hn. unfold zeros. destruct n as [|[|[|[|n]]]]; done || lia. Qed.

Lemma py_incr_zeros k :
  0 <= k < 4 → py_incr zeros k = Ok (<[Z.to_nat k := 1]> zeros).
Proof. intros Hk. rewrite py_incr_nonneg by (simpl; lia). by rewrite zeros_lookup by lia. Qed.

Ltac py_in_simpl :=
  repeat match goal with
  | |- context [py_in ?x ?l] =>
      first [rewrite (proj2 (py_in_true x l)) by set_solver
            |rewrite (proj2 (py_in_false x l)) by set_solver]
  end.

(** The band of the centre, as bounds on it. *)
Ltac band_bounds Hb :=
  first [apply band_of_NearUp in Hb | apply band_of_NearDown in Hb | apply band_of_FarUp in Hb
        |apply band_of_FarDown in Hb | apply band_of_OnLine in Hb]; unfold_lines; unfold counter_init.

(** One frame of the single vehicle: the identity is kept and the
    counter is [count_vehicle] on it. *)
Lemma track_and_count_follow p c d :
  dist2 (det_center d) p < threshold2 →
  track_and_count (mk_tracker [(1, p)] 2) c [d] =
    (λ c', (mk_tracker [(1, det_center d)] 2, c')) <$> count_vehicle (tag d 1) c.
Proof.
  intros Hd. unfold track_and_count. cbn [tracker_update euclidean_tracker].
  rewrite update_single_follow by done. rewrite count_boxes_single.
  by destruct (count_vehicle (tag d 1) c).
Qed.

(** The first frame. *)
Lemma drive_start k d :
  d_index d = k → cy_of d < middle_line_position →
  ∃ t c, track_and_count tracker_init counter_init [d] = Ok (t, c) ∧ phase k d t c.
Proof.
  intros Hi Hy. unfold track_and_count. cbn [tracker_update euclidean_tracker].
  unfold tracker_init. rewrite update_single_new, count_boxes_single, count_vehicle_eq.
  change (center_y (tag d 1)) with (cy_of d).
  unfold phase. destruct (band_of (cy_of d)) eqn:Hb; band_bounds Hb; try lia;
    py_in_simpl; simpl; eexists _, _; (split; [done|]); (split; [done|]).
  - right; left. split; [lia|]. exists []. split; [by left|reflexivity].
  - left. split; [lia|done].
  - left. split; [lia|done].
Qed.

Ltac close_phase :=
  eexists _, _; split; [reflexivity|]; split; [reflexivity|];
  first [ left; split; [lia|reflexivity]
        | right; left; split; [lia|]; eexists; split; [|reflexivity]; (by left) || (by right)
        | right; right; split; [lia|]; eexists; split; [|reflexivity]; (by left) || (by right) ].

(** One frame: the vehicle moves down by at most 14 pixels, within the
    tracker's threshold, and stays in a phase. *)
Lemma drive_step k dl d t c :
  0 <= k < 4 → d_index d = k → step_down dl d = true → phase k dl t c →
  ∃ t' c', track_and_count t c [d] = Ok (t', c') ∧ phase k d t' c'.
Proof.
  intros Hk Hi Hs (-> & Hph). unfold step_down in Hs.
  rewrite !andb_true_iff, Z.ltb_lt, !Z.leb_le in Hs. destruct Hs as [[Hd Hy1] Hy2].
  rewrite track_and_count_follow by done. rewrite count_vehicle_eq.
  change (center_y (tag d 1)) with (cy_of d).
  cbn [temp_up_list temp_down_list up_list down_list bi_id bi_index tag]. rewrite Hi.
  unfold phase. destruct (band_of (cy_of d)) eqn:Hb; band_bounds Hb;
    destruct Hph as [(Hy & ->)|[(Hy & tdl & Htdl & ->)|(Hy & tdl & Htdl & ->)]]; try lia;
    cbn [temp_up_list temp_down_list up_list down_list];
    try (destruct Htdl as [-> | ->]); py_in_simpl;
    rewrite ?py_incr_zeros by done; rewrite ?(_ : py_remove [1] 1 = Ok []) by reflexivity;
    simpl; close_phase.
Qed.

(** The frames after the first. *)
Lemma drive_run k dl ds t c :
  0 <= k < 4 → Forall (λ x, d_index x = k) ds → drives_down dl ds = true → phase k dl t c →
  ∃ t' c', track_frames ((λ x, [x]) <$> ds) t c = Ok (t', c') ∧ phase k (default dl (last ds)) t' c'.
Proof.
  intros Hk Hds. revert dl t c. induction Hds as [|d ds Hd Hds IH]; intros dl t c Hdr Hph.
  { by exists t, c. }
  simpl in Hdr. apply andb_true_iff in Hdr as [Hs Hdr].
  destruct (drive_step k dl d t c Hk Hd Hs Hph) as (t1 & c1 & Htc & Hph1).
  destruct (IH d t1 c1 Hdr Hph1) as (t' & c' & Hrun & Hph').
  exists t', c'. rewrite fmap_cons. simpl. rewrite Htc. simpl. split; [done|].
  rewrite last_cons. by destruct (last ds).
Qed.

(** The run of the single vehicle driving down, by the phases. *)
Lemma drive_counted_down k d ds :
  0 <= k < 4 → Forall (λ x, d_index x = k) (d :: ds) → drives_down d ds = true →
  cy_of d < middle_line_position → down_line_position < cy_of (default d (last ds)) →
  ∃ t c, track_frames ((λ x, [x]) <$> d :: ds) tracker_init counter_init = Ok (t, c) ∧
    up_list c = [0; 0; 0; 0] ∧ down_list c = <[Z.to_nat k := 1]> [0; 0; 0; 0].
Proof.
  intros Hk Hds Hdr Hy0 Hyn. apply Forall_cons in Hds as [Hd Hds].
  destruct (drive_start k d Hd Hy0) as (t1 & c1 & Htc & Hph1).
  destruct (drive_run k d ds t1 c1 Hk Hds Hdr Hph1) as (t & c & Hrun & _ & Hph).
  exists t, c. rewrite fmap_cons. simpl. rewrite Htc. simpl. split; [done|].
  unfold_lines.
  destruct Hph as [(Hy & _)|[(Hy & _)|(_ & tdl & _ & ->)]]; [lia|lia|done].
Qed.

(** C3: a vehicle alone on the road, seen once per frame, that starts
    above the middle line, moves down by at most 14 pixels and less than
    25 pixels from frame to frame, and ends below the lower line, is
    counted exactly once: one downward crossing in its class bucket, no
    upward crossing. *)
Theorem vehicle_driving_down_counted k d ds :
  0 <= k < 4 → Forall (λ x, d_index x = k) (d :: ds) → drives_down d ds = true →
  cy_of d < middle_line_position → down_line_position < cy_of (default d (last ds)) →
  ∃ t c, track_frames ((λ x, [x]) <$> d :: ds) tracker_init counter_init = Ok (t, c) ∧
    up_list c = [0; 0; 0; 0] ∧ down_list c = <[Z.to_nat k := 1]> [0; 0; 0; 0].
Proof. apply drive_counted_down. Qed.

(** A car seen at y = 200, 212, 224, 236 and 248. *)
Lemma vehicle_driving_down_counted_witness :
  ∃ t c, track_frames ((λ x, [x]) <$> det_at 100 200 :: [det_at 100 212; det_at 100 224;
                                                          det_at 100 236; det_at 100 248])
           tracker_init counter_init = Ok (t, c) ∧
    up_list c = [0; 0; 0; 0] ∧ down_list c = <[Z.to_nat 0 := 1]> [0; 0; 0; 0].
Proof.
  apply (vehicle_driving_down_counted 0 (det_at 100 200)
           [det_at 100 212; det_at 100 224; det_at 100 236; det_at 100 248]);
    [lia|repeat constructor|vm_compute; reflexivity..].
Defined.

(** The bound of 14 pixels per frame is needed: a car seen at
    y = 205, 226 and 245, moving 21 and 19 pixels per frame (within the
    tracker's 25 pixels, so it keeps identity 1), jumps over the near-up
    band, is only ever pending down, and is not counted when it leaves
    below the lower line. *)
Theorem vehicle_skipping_near_band_not_counted :
  track_frames [[det_at 100 205]; [det_at 100 226]; [det_at 100 245]] tracker_init counter_init =
    Ok (mk_tracker [(1, (100, 245))] 2, mk_counter [] [1] [0; 0; 0; 0] [0; 0; 0; 0]).
Proof. vm_compute. reflexivity. Qed.
