(* ===== verification/Mirror.v ===== *)
(** * The counter is symmetric about the middle line

    Reflecting every detection about the line y = 225 ([mirror_det]: the
    centre [(cx, cy)] goes to [(cx, 450 - cy)], the size is kept) turns a
    run of the tracker and the counter ([track_frames]) into the reflected
    run: the tracker holds the reflected centres under the same
    identities, and the counter has its up and down sides exchanged
    ([swap]).  [count_vehicle] tests the four bands in the order near-up,
    near-down, far-up, far-down, and the bands are disjoint, so the order
    does not break the symmetry.

    As a consequence, a vehicle driving up across the line is counted once
    upward ([vehicle_driving_up_counted]), from the downward case of
    Drive.v. *)

From Stdlib Require Import ZArith Lia.
From S2P Require Import Prelude Geometry Counter Tracker Pipeline Drive.
From stdpp Require Import base list numbers sets.
Import Euclidean.

Open Scope Z_scope.

(** The top of a box of height [h] whose centre is reflected about the
    middle line. *)
Definition mirror_top (y h : Z) : Z := 2 * middle_line_position - y - 2 * Z.quot h 2.

Definition mirror_det (d : detection) : detection :=
  mk_det (d_x d) (mirror_top (d_y d) (d_h d)) (d_w d) (d_h d) (d_index d).

Definition mirror_box (b : box_id) : box_id :=
  mk_box_id (bi_x b) (mirror_top (bi_y b) (bi_h b)) (bi_w b) (bi_h b) (bi_id b) (bi_index b).

Definition mirror_pt (p : Z * Z) : Z * Z := (p.1, 2 * middle_line_position - p.2).

Definition mirror_tbl (tbl : list (Z * (Z * Z))) : list (Z * (Z * Z)) :=
  (λ e, (e.1, mirror_pt e.2)) <$> tbl.

Definition mirror_tracker (t : tracker_state) : tracker_state :=
  mk_tracker (mirror_tbl (center_points t)) (id_count t).

(** The counter with its up and down sides exchanged. *)
Definition swap (s : counter_state) : counter_state :=
  mk_counter (temp_down_list s) (temp_up_list s) (down_list s) (up_list s).

Definition mirror_band (bd : band) : band :=
  match bd with
  | NearUp => NearDown | NearDown => NearUp | FarUp => FarDown | FarDown => FarUp | OnLine => OnLine
  end.

(** ** The counter *)

Lemma center_y_mirror b : center_y (mirror_box b) = 2 * middle_line_position - center_y b.
Proof. unfold center_y, mirror_box, mirror_top. rewrite !find_center_eq. simpl. lia. Qed.

Lemma band_of_mirror y : band_of (2 * middle_line_position - y) = mirror_band (band_of y).
Proof. unfold band_of. unfold_lines. zcmp; simpl; done || lia. Qed.

Lemma count_vehicle_mirror b s :
  count_vehicle (mirror_box b) (swap s) = swap <$> count_vehicle b s.
Proof.
  rewrite !count_vehicle_eq, center_y_mirror, band_of_mirror.
  destruct (band_of (center_y b)), s as [tul tdl ul dl]; simpl;
    repeat case_match; simpl; try done;
    destruct (py_remove _ _), (py_incr _ _); done.
Qed.

Lemma count_boxes_mirror bs s :
  count_boxes (mirror_box <$> bs) (swap s) = swap <$> count_boxes bs s.
Proof.
  revert s. induction bs as [|b bs IH]; intros s; [done|].
  rewrite fmap_cons. simpl. rewrite count_vehicle_mirror.
  destruct (count_vehicle b s); simpl; [apply IH|done].
Qed.

(** ** The tracker *)

Lemma det_center_mirror d : det_center (mirror_det d) = mirror_pt (det_center d).
Proof.
  unfold det_center, mirror_det, mirror_pt, mirror_top. rewrite !find_center_eq. simpl.
  f_equal. lia.
Qed.

Lemma dist2_mirror p q : dist2 (mirror_pt p) (mirror_pt q) = dist2 p q.
Proof. unfold dist2, mirror_pt. simpl. ring. Qed.

Lemma tag_mirror d id : tag (mirror_det d) id = mirror_box (tag d id).
Proof. reflexivity. Qed.

Lemma nearest_mirror c cands :
  nearest (mirror_pt c) (mirror_tbl cands) = (λ e, (e.1, mirror_pt e.2)) <$> nearest c cands.
Proof.
  induction cands as [|[id p] cands IH]; [done|]. simpl.
  rewrite IH, dist2_mirror. destruct (nearest c cands) as [[id' p']|]; simpl;
    rewrite ?dist2_mirror; repeat case_match; done.
Qed.

Lemma unclaim_mirror id cands : unclaim id (mirror_tbl cands) = mirror_tbl (unclaim id cands).
Proof.
  induction cands as [|[id' p] cands IH]; [done|]. unfold unclaim in *. simpl.
  rewrite !filter_cons. simpl. case_decide; simpl; by rewrite IH.
Qed.

Lemma assign_mirror cands next ds :
  assign (mirror_tbl cands) next (mirror_det <$> ds) =
    (λ '(tbl, n, out), (mirror_tbl tbl, n, mirror_box <$> out)) (assign cands next ds).
Proof.
  revert cands next. induction ds as [|d ds IH]; intros cands next; [done|].
  rewrite fmap_cons. simpl. rewrite det_center_mirror, nearest_mirror.
  destruct (nearest (det_center d) cands) as [[id p]|]; simpl.
  - rewrite unclaim_mirror, IH. by destruct (assign (unclaim id cands) next ds) as [[tbl n] out].
  - rewrite IH. by destruct (assign cands (next + 1) ds) as [[tbl n] out].
Qed.

Lemma update_mirror t ds :
  update (mirror_tracker t) (mirror_det <$> ds) =
    (λ '(t', out), (mirror_tracker t', mirror_box <$> out)) (update t ds).
Proof.
  unfold update, mirror_tracker. simpl. rewrite assign_mirror.
  by destruct (assign (center_points t) (id_count t) ds) as [[tbl n] out].
Qed.

(** ** The tracker and the counter, frame after frame *)

(** The run on reflected frames. *)
Lemma track_frames_mirror_eq (frames : list (list detection)) t c :
  track_frames ((λ ds : list detection, mirror_det <$> ds) <$> frames) (mirror_tracker t) (swap c) =
    (λ '(t', c'), (mirror_tracker t', swap c')) <$> track_frames frames t c.
Proof.
  revert t c. induction frames as [|ds frames IH]; intros t c; [done|].
  rewrite fmap_cons. simpl. unfold track_and_count. cbn [tracker_update euclidean_tracker].
  change (tracker_update t ds) with (update t ds).
  rewrite update_mirror. destruct (update t ds) as [t1 bs]. simpl.
  rewrite count_boxes_mirror. destruct (count_boxes bs c); simpl; [apply IH|done].
Qed.

(** C29: the tracker and the counter are symmetric about the middle line:
    on the frames reflected about y = 225 the run gives the same result
    with every centre reflected and the counter's up and down sides (the
    two pending lists and the two count lists) exchanged; this holds for
    every sequence of frames and every state, errors included. *)
Theorem track_frames_mirror (frames : list (list detection)) t c :
  track_frames ((λ ds : list detection, mirror_det <$> ds) <$> frames) (mirror_tracker t) (swap c) =
    (λ '(t', c'), (mirror_tracker t', swap c')) <$> track_frames frames t c.
Proof. apply track_frames_mirror_eq. Qed.

(** The vehicle moves up by at most 14 pixels, within the threshold. *)
Definition step_up (d d' : detection) : bool :=
  (dist2 (det_center d') (det_center d) <? threshold2) &&
  (cy_of d' <=? cy_of d) && (cy_of d <=? cy_of d' + 14).

Fixpoint drives_up (d : detection) (ds : list detection) : bool :=
  match ds with
  | [] => true
  | d' :: ds' => step_up d d' && drives_up d' ds'
  end.

Lemma mirror_det_involutive d : mirror_det (mirror_det d) = d.
Proof. destruct d as [x y w h i]. unfold mirror_det, mirror_top. simpl. f_equal. lia. Qed.

Lemma cy_of_mirror d : cy_of (mirror_det d) = 2 * middle_line_position - cy_of d.
Proof. unfold cy_of. by rewrite det_center_mirror. Qed.

Lemma Zleb_mirror a b : (2 * middle_line_position - a <=? 2 * middle_line_position - b) = (b <=? a).
Proof. apply Bool.eq_iff_eq_true. rewrite !Z.leb_le. lia. Qed.

Lemma drives_up_mirror d (ds : list detection) : drives_up d ds = drives_down (mirror_det d) (mirror_det <$> ds).
Proof.
  revert d. induction ds as [|d' ds IH]; intros d; [done|]. rewrite fmap_cons. simpl.
  rewrite IH. f_equal. unfold step_up, step_down.
  rewrite !cy_of_mirror, !det_center_mirror, dist2_mirror, !Zleb_mirror.
  replace (2 * middle_line_position - cy_of d + 14) with (2 * middle_line_position - (cy_of d - 14)) by lia.
  rewrite Zleb_mirror. f_equal. apply Bool.eq_iff_eq_true. rewrite !Z.leb_le. lia.
Qed.

Lemma frames_mirror_involutive (ds : list detection) :
  (λ ds : list detection, mirror_det <$> ds) <$> ((λ x, [x]) <$> (mirror_det <$> ds)) =
    (λ x, [x]) <$> ds.
Proof. induction ds as [|d ds IH]; [done|]. rewrite !fmap_cons, IH. simpl. by rewrite mirror_det_involutive. Qed.

(** C4: a vehicle alone on the road, seen once per frame, that starts
    below the middle line, moves up by at most 14 pixels and less than 25
    pixels from frame to frame, and ends above the upper line, is counted
    exactly once: one upward crossing in its class bucket, no downward
    crossing. *)
Theorem vehicle_driving_up_counted k d ds :
  0 <= k < 4 → Forall (λ x, d_index x = k) (d :: ds) → drives_up d ds = true →
  middle_line_position < cy_of d → cy_of (default d (last ds)) < up_line_position →
  ∃ t c, track_frames ((λ x, [x]) <$> d :: ds) tracker_init counter_init = Ok (t, c) ∧
    up_list c = <[Z.to_nat k := 1]> [0; 0; 0; 0] ∧ down_list c = [0; 0; 0; 0].
Proof.
  intros Hk Hds Hdr Hy0 Hyn.
  destruct (drive_counted_down k (mirror_det d) (mirror_det <$> ds)) as (t & c & Hrun & Hu & Hd).
  - done.
  - rewrite <- fmap_cons, Forall_fmap. eapply Forall_impl; [exact Hds|]. done.
  - by rewrite <- drives_up_mirror.
  - rewrite cy_of_mirror. unfold_lines. lia.
  - rewrite last_fmap. destruct (last ds) as [dl|]; simpl in *; rewrite cy_of_mirror; unfold_lines; lia.
  - exists (mirror_tracker t), (swap c).
    rewrite <- (frames_mirror_involutive (d :: ds)), (fmap_cons mirror_det).
    change tracker_init with (mirror_tracker tracker_init).
    change counter_init with (swap counter_init).
    by rewrite track_frames_mirror_eq, Hrun.
Qed.

(** A car seen at y = 250, 238, 226, 214 and 202. *)
Lemma vehicle_driving_up_counted_witness :
  ∃ t c, track_frames ((λ x, [x]) <$> det_at 100 250 :: [det_at 100 238; det_at 100 226;
                                                          det_at 100 214; det_at 100 202])
           tracker_init counter_init = Ok (t, c) ∧
    up_list c = <[Z.to_nat 0 := 1]> [0; 0; 0; 0] ∧ down_list c = [0; 0; 0; 0].
Proof.
  apply (vehicle_driving_up_counted 0 (det_at 100 250)
           [det_at 100 238; det_at 100 226; det_at 100 214; det_at 100 202]);
    [lia|repeat constructor|vm_compute; reflexivity..].
Defined.
