(* ===== verification/Video.v ===== *)
(** * A video: [postProcess] frame after frame

    The script opens a [VideoCapture] (line 11 of [src/vehicle_count.py])
    but processes a single image; spec.md section 5 describes the loop the
    counter is meant for: the network outputs of each frame through
    [postProcess], in order, on the same module globals.
    [postProcess_frames] is that loop (modelled from the spec).

    The theorem: a car the network sees as one row per frame, which the
    class and score filter keeps, goes through OpenCV's suppression (a
    single candidate is kept), [indices.flatten()] and the loop over the
    kept indices ([detect_one_row]) as one detection per frame, and
    which drives down in steps of at most 14
    pixels within the tracker's 25 pixels, is counted exactly once: the
    liveness of Drive.v through the whole per-frame pipeline.  A frame is
    processed by the same [postProcess] as in the script, whatever the
    names detected before. *)

From stdpp Require Import base list numbers sets strings.
From Stdlib Require Import ZArith QArith Lia.
From S2P Require Import Prelude Nms Geometry Counter Tracker Pipeline Drive.

Section Video.
Context (classNames : list string).
Context (NMSBoxes : list (list Z) → list Q → Q → Q → list Z).
Context {T : Type} `{Tracker T}.

(** The frames of a video through [postProcess], in order (spec.md
    section 5). *)
Fixpoint postProcess_frames (frames : list (list (list (list Q)))) (width height : Z)
    (st : app_state T) : res (app_state T) :=
  match frames with
  | [] => Ok st
  | outputs :: frames' =>
      st' ← postProcess classNames NMSBoxes outputs width height st;
      postProcess_frames frames' width height st'
  end.

End Video.

Section VideoProofs.
Context (classNames : list string).
Context (NMSBoxes : list (list Z) → list Q → Q → Q → list Z).
Context {T : Type} `{Tracker T}.

(** When each frame's detection stage gives the detections [ds], the
    video runs as the tracker and the counter on these detections. *)
Lemma postProcess_frames_track frames dss width height st t' c' :
  Forall2 (λ outputs ds, ∃ n, detect classNames NMSBoxes outputs width height [] = Ok (n, ds)) frames dss →
  track_frames dss (tracker st) (counters st) = Ok (t', c') →
  ∃ names, postProcess_frames classNames NMSBoxes frames width height st = Ok (mk_app names t' c').
Proof.
  intros Hf. revert st. induction Hf as [|outputs ds frames dss (n & Hd) Hf IH]; intros st Ht.
  { simpl in Ht. inv_res. exists (detected_classNames st). by destruct st. }
  simpl in Ht. apply res_bind_Ok in Ht as ([t1 c1] & Htc & Ht).
  destruct (detect_shift classNames NMSBoxes _ _ _ _ _ _ Hd) as (n' & _ & Hall).
  simpl. unfold postProcess at 1. rewrite Hall. simpl. rewrite Htc. simpl.
  by apply (IH (mk_app _ t1 c1)).
Qed.

(** A row the filter of lines 108-117 keeps is of a vehicle class and
    scored above [confThreshold]. *)
Lemma collect_det_kept width height row bx cid conf :
  collect_det width height ([], [], []) row = Ok ([bx], [cid], [conf]) →
  cid ∈ required_class_index ∧ Qgtb conf confThreshold = true.
Proof.
  unfold collect_det. intros Hc.
  apply res_bind_Ok in Hc as (c & _ & Hc). apply res_bind_Ok in Hc as (cf & _ & Hc).
  destruct (bool_decide (c ∈ required_class_index)) eqn:Hin; [|congruence].
  destruct (Qgtb cf confThreshold) eqn:Hg; [|congruence].
  repeat (apply res_bind_Ok in Hc as (? & _ & Hc)). inv_res.
  split; [by apply bool_decide_eq_true in Hin|done].
Qed.

End VideoProofs.

(** OpenCV's suppression keeps a single candidate scored above the
    threshold. *)
Lemma nms_single bx conf :
  Qgtb conf confThreshold = true → NMSBoxes [bx] [conf] confThreshold nmsThreshold = [0].
Proof.
  intros Hg. destruct (NMSBoxes_valid_indices' [bx] [conf] confThreshold nmsThreshold) as [Hnd Hv].
  assert (NMSBoxes [bx] [conf] confThreshold nmsThreshold ≠ []) as Hne.
  { rewrite NMSBoxes_nil_iff'. intros Hf. apply Forall_cons_iff in Hf as [Hf _]. congruence. }
  destruct (NMSBoxes _ _ _ _) as [|i [|i' l]]; [done| |].
  - apply Forall_cons_iff in Hv as [[Hi _] _]. simpl in Hi. by replace i with 0 by lia.
  - apply Forall_cons_iff in Hv as [[Hi _] Hv]. apply Forall_cons_iff in Hv as [[Hi' _] _].
    simpl in Hi, Hi'. apply NoDup_cons in Hnd as [Hnd _]. exfalso. apply Hnd.
    replace i with i' by lia. by left.
Qed.

(** The detection stage on a frame in which the network sees one row
    that the filter keeps: the row's box, with the class bucket of its
    class, is the one detection handed to the tracker, and its class name
    is appended to [detected_classNames]. *)
Lemma detect_one_row classNames width height row x y w h cid conf names0 :
  collect_det width height ([], [], []) row = Ok ([[x; y; w; h]], [cid], [conf]) →
  (Z.to_nat cid < length classNames)%nat →
  ∃ name k, py_index required_class_index cid = Ok k ∧
    detect classNames NMSBoxes [[row]] width height names0 = Ok (names0 ++ [name], [mk_det x y w h k]).
Proof.
  intros Hc Hlen. destruct (collect_det_kept _ _ _ _ _ _ Hc) as [Hreq Hg].
  destruct (py_index_required cid Hreq) as (k & Hk & _).
  pose proof (required_class_index_bound _ Hreq) as Hb.
  destruct (py_getitem_nonneg classNames cid) as (name & _ & Hn); [lia|].
  destruct (py_getitem_nonneg (colors classNames) cid) as (u & _ & Hu);
    [unfold colors; rewrite length_replicate; lia|].
  exists name, k. split; [done|].
  unfold detect. cbn [List.concat app collect]. rewrite Hc. cbn [mbind res_bind].
  rewrite nms_single by done. cbn [cv_indices py_flatten mbind res_bind].
  rewrite emit_cons.
  change ([[x; y; w; h]].[0]) with (Ok (A:=list Z) [x; y; w; h]). cbn [mbind res_bind].
  change ([x; y; w; h].[0]) with (Ok x). change ([x; y; w; h].[1]) with (Ok y).
  change ([x; y; w; h].[2]) with (Ok w). change ([x; y; w; h].[3]) with (Ok h).
  change ([cid].[0]) with (Ok cid). cbn [mbind res_bind].
  rewrite Hu, Hn. change ([conf].[0]) with (Ok conf). cbn [mbind res_bind].
  rewrite Hk. reflexivity.
Qed.


Import Euclidean.

(** C5: end to end, from the network's outputs, with OpenCV's
    [NMSBoxes]: a car that the network sees as one row per frame, kept by
    the class and score filter with the boxes of the detections [d :: ds]
    (the class bucket of its class), that starts above the middle line,
    moves down by at most 14 pixels and less than 25 pixels from frame to
    frame and ends below the lower line, is counted exactly once through
    [postProcess] frame after frame (argmax and filter, suppression,
    [indices.flatten()], the loop over the kept indices, the tracker and
    [count_vehicle]): one downward crossing in its class bucket, no
    upward crossing. *)
Theorem video_vehicle_counted_down classNames rows cid k d ds width height :
  (Z.to_nat cid < length classNames)%nat → py_index required_class_index cid = Ok k →
  Forall2 (λ row x, d_index x = k ∧ ∃ conf, collect_det width height ([], [], []) row =
             Ok ([[d_x x; d_y x; d_w x; d_h x]], [cid], [conf])) rows (d :: ds) →
  drives_down d ds = true →
  cy_of d < middle_line_position → down_line_position < cy_of (default d (last ds)) →
  ∃ st, postProcess_frames classNames NMSBoxes ((λ row, [[row]]) <$> rows) width height
          (mk_app [] tracker_init counter_init) = Ok st ∧
    up_list (counters st) = [0; 0; 0; 0] ∧ down_list (counters st) = <[Z.to_nat k := 1]> [0; 0; 0; 0].
Proof.
  intros Hlen Hk Hf Hdr Hy0 Hyn.
  assert (0 <= k < 4) as Hk4.
  { inversion Hf as [|row0 x0 ? ? [_ (conf & Hc)] _]; subst.
    destruct (collect_det_kept _ _ _ _ _ _ Hc) as [Hreq _].
    destruct (py_index_required cid Hreq) as (k' & Hk' & ?). congruence. }
  assert (Forall (λ x, d_index x = k) (d :: ds)) as Hi.
  { apply Forall_forall. intros x Hx%list_elem_of_In. apply list_elem_of_In in Hx.
    apply list_elem_of_lookup in Hx as [n Hn].
    destruct (Forall2_lookup_r _ _ _ _ _ Hf Hn) as (row & _ & Hx & _). done. }
  destruct (drive_counted_down k d ds Hk4 Hi Hdr Hy0 Hyn) as (t & c & Hrun & Hu & Hd).
  destruct (postProcess_frames_track classNames NMSBoxes ((λ row, [[row]]) <$> rows)
              ((λ x, [x]) <$> d :: ds) width height (mk_app [] tracker_init counter_init) t c)
    as (names & Hp); [|exact Hrun|by exists (mk_app names t c)].
  apply Forall2_fmap_l, Forall2_fmap_r. eapply Forall2_impl; [exact Hf|].
  intros row [x y w h idx] [Hidx (conf & Hc)]. cbn [d_x d_y d_w d_h d_index] in *. subst idx.
  destruct (detect_one_row classNames width height row x y w h cid conf [] Hc Hlen)
    as (name & k' & Hk' & Hdet).
  rewrite Hk in Hk'. injection Hk' as <-. eauto.
Qed.

(** ** Witness *)

(** The network row of a car 32 pixels wide centred at [(160, cy)] of a
    320 x 320 image, score 0.9. *)
Definition car_at (cy : Z) : list Q := [1#2; Qmake cy 320; 1#10; 1#10; 9#10; 0; 0; 9#10; 0]%Q.

Lemma video_vehicle_counted_down_witness :
  ∃ st, postProcess_frames coco8 NMSBoxes ((λ row, [[row]]) <$> (car_at <$> [200; 212; 224; 236; 248])) 320 320
          (mk_app [] tracker_init counter_init) = Ok st ∧
    up_list (counters st) = [0; 0; 0; 0] ∧ down_list (counters st) = <[Z.to_nat 0 := 1]> [0; 0; 0; 0].
Proof.
  apply (video_vehicle_counted_down coco8 (car_at <$> [200; 212; 224; 236; 248]) 2 0 (mk_det 144 184 32 32 0)
           [mk_det 144 196 32 32 0; mk_det 144 208 32 32 0; mk_det 144 220 32 32 0; mk_det 144 232 32 32 0]
           320 320);
    [simpl; lia|reflexivity|repeat constructor; eexists; vm_compute; reflexivity|vm_compute; reflexivity..].
Defined.
