(* ===== verification/Render.v ===== *)
(** * What the script draws on the image

    [vehicle_count.py] draws on the image [img] it reads: in the loop over
    the kept indices (lines 121-134) a label [f'{name.upper()} {int(conf
    * 100)}%'] and a rectangle per box, in [count_vehicle] (line 95) a dot
    at the centre of every tracked box, and in [from_static_image] (lines
    161-168) the four class counts, in the font of lines 18-20; then it
    shows the image (line 170).

    The drawing calls are modelled as the list [img] of the calls made,
    in order ([draw_op]).  [emit_draw] is the loop of lines 121-134 with
    its drawing, [count_and_draw] the loop of lines 138-139 with the dot
    [count_vehicle] draws, [postProcess_draw] and [from_static_image_draw]
    the functions of the code with their drawing.  The random colours of
    line 51 are a parameter [palette] with one colour per class name.

    The theorems: the drawing changes nothing else: [postProcess_draw]
    computes the same globals, and raises the same exceptions, as
    [postProcess] (Pipeline.v); every label shows the score as a
    percentage between 20 and 100.  An example draws the car of
    [car_row]: its label "CAR 90%", its rectangle, its centre and the
    four counts. *)

From stdpp Require Import base list numbers.
From Stdlib Require Import Ascii String ZArith QArith Lia.
From S2P Require Import Prelude Csv Geometry Counter Tracker Pipeline.

Local Notation "s1 +s+ s2" := (String.append s1 s2) (at level 60, right associativity).

(** A colour, as the [(b, g, r)] triple OpenCV takes. *)
Definition color : Type := Z * Z * Z.

(** The drawing calls of the script ([cv2.FONT_HERSHEY_SIMPLEX] is the
    only font it uses). *)
Inductive draw_op :=
| Circle (center : Z * Z) (radius : Z) (c : color) (thickness : Z)
| PutText (text : string) (org : Z * Z) (font_scale : Q) (c : color) (thickness : Z)
| Rectangle (pt1 pt2 : Z * Z) (c : color) (thickness : Z)
| ImShow (winname : string).

(** Lines 18-20. *)
Definition font_color : color := (0, 0, 255).
Definition font_size : Q := 1 # 2.
Definition font_thickness : Z := 2.

(** [c.upper()] for a Latin-1 character: a-z and the accented letters
    224-254 (but the division sign 247) move up by 32.  Python also maps
    the three Latin-1 letters whose capital is not in Latin-1 (sharp s,
    micro sign, y with diaeresis) to other characters; they are left
    unchanged here (coco.names is ASCII). *)
Definition upper_char (c : ascii) : ascii :=
  let n := nat_of_ascii c in
  if (Nat.leb 97 n && Nat.leb n 122) || (Nat.leb 224 n && Nat.leb n 254 && negb (Nat.eqb n 247))
  then ascii_of_nat (n - 32)%nat else c.

Fixpoint py_upper (s : string) : string :=
  match s with
  | EmptyString => EmptyString
  | String c s' => String (upper_char c) (py_upper s')
  end.

(** The label of line 129. *)
Definition label (name : string) (conf : Q) : string :=
  py_upper name +s+ " " +s+ py_str (py_int (conf * inject_Z 100)) +s+ "%".

(** Line 95: the dot at the centre of a tracked box. *)
Definition center_dot (b : box_id) : draw_op :=
  Circle (find_center (bi_x b) (bi_y b) (bi_w b) (bi_h b)) 2 (0, 0, 255) (-1).

(** Lines 161-168: the four counts. *)
Definition count_texts (frequency : string → Z) : list draw_op :=
  [PutText ("Car:        " +s+ py_str (frequency "car")) (20, 40) font_size font_color font_thickness;
   PutText ("Motorbike:  " +s+ py_str (frequency "motorbike")) (20, 60) font_size font_color font_thickness;
   PutText ("Bus:        " +s+ py_str (frequency "bus")) (20, 80) font_size font_color font_thickness;
   PutText ("Truck:      " +s+ py_str (frequency "truck")) (20, 100) font_size font_color font_thickness]%string.

Section Render.
Context (classNames : list string) (palette : list color).
Context (NMSBoxes : list (list Z) → list Q → Q → Q → list Z).
Context {T : Type} `{Tracker T}.

(** The loop of lines 121-134 with its drawing. *)
Fixpoint emit_draw (boxes : list (list Z)) (classIds : list Z) (confidence_scores : list Q)
    (indices : list Z) (names : list string) (detection : list Geometry.detection) (img : list draw_op)
    : res (list string * list Geometry.detection * list draw_op) :=
  match indices with
  | [] => Ok (names, detection, img)
  | i :: indices' =>
      bx ← boxes.[i]; x ← bx.[0]; y ← bx.[1]; w ← bx.[2]; h ← bx.[3];
      cid ← classIds.[i];
      color ← palette.[cid];
      name ← classNames.[cid];
      conf ← confidence_scores.[i];
      let img' := img ++ [PutText (label name conf) (x, y - 10) (1 # 2) color 1;
                          Rectangle (x, y) (x + w, y + h) color 1] in
      index ← py_index required_class_index cid;
      emit_draw boxes classIds confidence_scores indices'
        (names ++ [name]) (detection ++ [mk_det x y w h index]) img'
  end.

(** The loop of lines 138-139: [count_vehicle] draws the dot once the
    box is counted. *)
Fixpoint count_and_draw (bs : list box_id) (s : counter_state) (img : list draw_op)
    : res (counter_state * list draw_op) :=
  match bs with
  | [] => Ok (s, img)
  | b :: bs' => s' ← count_vehicle b s; count_and_draw bs' s' (img ++ [center_dot b])
  end.

(** [postProcess(outputs, img)] (lines 99-139) with its drawing. *)
Definition postProcess_draw (outputs : list (list (list Q))) (width height : Z)
    (st : app_state T) (img : list draw_op) : res (app_state T * list draw_op) :=
  '(boxes, classIds, confidence_scores) ← collect width height (List.concat outputs) ([], [], []);
  flat ← py_flatten (cv_indices (NMSBoxes boxes confidence_scores confThreshold nmsThreshold));
  '(names, detection, img1) ← emit_draw boxes classIds confidence_scores flat (detected_classNames st) [] img;
  let '(tr', boxes_ids) := tracker_update (tracker st) detection in
  '(c', img2) ← count_and_draw boxes_ids (counters st) img1;
  Ok (mk_app names tr' c', img2).

(** What [from_static_image] draws on the image it reads (lines 142-170):
    the drawing of [postProcess], the four counts, and [imshow]. *)
Definition from_static_image_draw (outputs : list (list (list Q))) (width height : Z)
    (st : app_state T) : res (app_state T * list draw_op) :=
  '(st', img) ← postProcess_draw outputs width height st [];
  Ok (st', img ++ count_texts (frequency (detected_classNames st')) ++ [ImShow "image"]).

End Render.

(** ** The drawing changes nothing else *)

(** What a bind of the error monad gives once its argument is known. *)
Tactic Notation "res_step" constr(t) "as" ident(x) :=
  destruct t as [x|]; cbn [mbind res_bind]; [|reflexivity].

(** ** Every label shows a percentage between 20 and 100 *)

(** Every confidence the loops of lines 106-117 collect is one of the
    class scores of a row. *)
Lemma collect_det_confs (P : Q → Prop) width height acc det acc' :
  Forall P (drop 5 det) → Forall P acc.2 → collect_det width height acc det = Ok acc' → Forall P acc'.2.
Proof.
  destruct acc as [[boxes classIds] confs]. unfold collect_det. intros Hdet Hc H.
  apply res_bind_Ok in H as (cid & _ & H). apply res_bind_Ok in H as (conf & Hconf & H).
  apply py_getitem_elem_of in Hconf.
  destruct (bool_decide _); [|by injection H as <-].
  destruct (Qgtb conf confThreshold); [|by injection H as <-].
  repeat (apply res_bind_Ok in H as (? & _ & H)). injection H as <-.
  apply Forall_app. split; [done|constructor; [|done]].
  rewrite Forall_forall in Hdet. by apply Hdet, list_elem_of_In.
Qed.

Lemma collect_confs (P : Q → Prop) width height dets acc acc' :
  Forall (λ det, Forall P (drop 5 det)) dets → Forall P acc.2 →
  collect width height dets acc = Ok acc' → Forall P acc'.2.
Proof.
  revert acc. induction dets as [|det dets IH]; intros acc Hdets Hc H; cbn [collect] in H; [by inv_res|].
  apply Forall_cons_iff in Hdets as [Hd Hdets].
  apply res_bind_Ok in H as (acc1 & H1 & H). eauto using collect_det_confs.
Qed.

(** [int(conf * 100)] of a kept score, above [confThreshold] and at most 1. *)
Lemma percent_bounds conf :
  (confThreshold < conf)%Q → (conf <= 1)%Q → (20 <= py_int (conf * inject_Z 100) <= 100)%Z.
Proof.
  unfold confThreshold. destruct conf as [n d]. intros Hlo Hhi.
  unfold Qlt, Qle in Hlo, Hhi. simpl in Hlo, Hhi.
  split; [apply py_int_lower|apply py_int_upper]; unfold Qlt, Qle; simpl; lia.
Qed.

Section RenderProofs.
Context (classNames : list string) (palette : list color).
Context (NMSBoxes : list (list Z) → list Q → Q → Q → list Z).
Context {T : Type} `{Tracker T}.
Hypothesis palette_length : List.length palette = List.length classNames.

Lemma emit_draw_emit boxes classIds confs indices names dets img :
  (λ '(n, d, _), (n, d)) <$> emit_draw classNames palette boxes classIds confs indices names dets img =
    emit classNames boxes classIds confs indices names dets.
Proof.
  revert names dets img. induction indices as [|i indices IH]; intros names dets img; [reflexivity|].
  rewrite emit_cons. cbn [emit_draw].
  res_step (boxes.[i]) as bx. res_step (bx.[0]) as x. res_step (bx.[1]) as y.
  res_step (bx.[2]) as w. res_step (bx.[3]) as h. res_step (classIds.[i]) as cid.
  destruct (palette.[cid]) as [c|e] eqn:Ep.
  - destruct (py_getitem_same_length_Ok palette (colors classNames) cid c) as [u ->];
      [by rewrite palette_length; unfold colors; rewrite length_replicate|done|].
    cbn [mbind res_bind]. res_step (classNames.[cid]) as name. res_step (confs.[i]) as conf.
    res_step (py_index required_class_index cid) as k. apply IH.
  - rewrite (py_getitem_same_length palette (colors classNames) cid e);
      [reflexivity|by rewrite palette_length; unfold colors; rewrite length_replicate|done].
Qed.

Lemma count_and_draw_eq bs s img :
  count_and_draw bs s img = (λ s', (s', img ++ (center_dot <$> bs))) <$> count_boxes bs s.
Proof.
  revert s img. induction bs as [|b bs IH]; intros s img; cbn [count_and_draw count_boxes].
  - by rewrite app_nil_r.
  - destruct (count_vehicle b s); [|reflexivity]. cbn [mbind res_bind].
    by rewrite IH, <- app_assoc.
Qed.

Lemma postProcess_draw_state' outputs width height st img :
  fst <$> postProcess_draw classNames palette NMSBoxes outputs width height st img =
    postProcess classNames NMSBoxes outputs width height st.
Proof.
  unfold postProcess_draw, postProcess, detect, track_and_count.
  res_step (collect width height (List.concat outputs) ([], [], [])) as acc.
  destruct acc as [[boxes classIds] confs]. cbv beta iota.
  res_step (py_flatten (cv_indices (NMSBoxes boxes confs confThreshold nmsThreshold))) as flat.
  rewrite <- (emit_draw_emit boxes classIds confs flat (detected_classNames st) [] img).
  destruct (emit_draw _ _ _ _ _ _ _ _ _) as [[[names dets] img1]|]; [|reflexivity].
  cbn [mbind res_bind fmap res_fmap].
  destruct (tracker_update (tracker st) dets) as [tr' bs].
  rewrite count_and_draw_eq. by destruct (count_boxes bs (counters st)).
Qed.

(** [postProcess] with its drawing (lines 99-139) computes the same
    globals as [postProcess] without it, and raises the same exceptions:
    the labels, rectangles and dots it draws have no effect on the state,
    provided the random colours of line 51 have one row per class name. *)
Theorem postProcess_draw_state outputs width height st img :
  fst <$> postProcess_draw classNames palette NMSBoxes outputs width height st img =
    postProcess classNames NMSBoxes outputs width height st.
Proof. apply postProcess_draw_state'. Qed.

(** The calls the loop of lines 121-134 adds: a label of a class name and
    a collected score in the font of line 130, and a rectangle. *)
Definition drawn_by_emit (confs : list Q) (op : draw_op) : Prop :=
  match op with
  | PutText text _ fs _ th => ∃ name conf, name ∈ classNames ∧ conf ∈ confs ∧
      text = label name conf ∧ fs = 1 # 2 ∧ th = 1
  | Rectangle _ _ _ th => th = 1
  | _ => False
  end.

Lemma emit_draw_drawn boxes classIds confs indices names dets img names' dets' img' :
  emit_draw classNames palette boxes classIds confs indices names dets img = Ok (names', dets', img') →
  ∃ added, img' = img ++ added ∧ Forall (drawn_by_emit confs) added.
Proof.
  revert names dets img. induction indices as [|i indices IH]; intros names dets img Hd; cbn [emit_draw] in Hd.
  { inv_res. exists []. by rewrite app_nil_r. }
  do 6 apply res_bind_Ok in Hd as (? & _ & Hd).
  apply res_bind_Ok in Hd as (c & _ & Hd). apply res_bind_Ok in Hd as (name & Hname & Hd).
  apply res_bind_Ok in Hd as (conf & Hconf & Hd). apply res_bind_Ok in Hd as (k & _ & Hd).
  apply IH in Hd as (added & -> & Hadded).
  eexists. rewrite <- app_assoc. split; [reflexivity|].
  apply Forall_app. split; [|done]. apply py_getitem_elem_of in Hname, Hconf.
  repeat constructor. cbn [drawn_by_emit]. eauto 10.
Qed.

Lemma postProcess_draw_labels' outputs width height st img st' img' :
  Forall (λ det, Forall (λ q, 0 <= q <= 1)%Q (drop 5 det)) (List.concat outputs) →
  postProcess_draw classNames palette NMSBoxes outputs width height st img = Ok (st', img') →
  ∃ added, img' = img ++ added ∧
    ∀ text org fs c th, PutText text org fs c th ∈ added →
      ∃ name pct, name ∈ classNames ∧ text = py_upper name +s+ " " +s+ py_str pct +s+ "%" ∧
        (20 <= pct <= 100)%Z.
Proof.
  intros Hrows Hp. unfold postProcess_draw in Hp.
  apply res_bind_Ok in Hp as ([[boxes classIds] confs] & Hc & Hp).
  apply res_bind_Ok in Hp as (flat & _ & Hp).
  apply res_bind_Ok in Hp as ([[names dets] img1] & He & Hp).
  destruct (tracker_update (tracker st) dets) as [tr' bs].
  apply res_bind_Ok in Hp as ([c' img2] & Hcd & Hp). inv_res.
  rewrite count_and_draw_eq in Hcd. apply res_fmap_Ok in Hcd as (? & _ & Hcd). inv_res.
  destruct (emit_draw_drawn _ _ _ _ _ _ _ _ _ _ He) as (added & -> & Hadded).
  exists (added ++ (center_dot <$> bs)). rewrite <- app_assoc. split; [done|].
  pose proof (collect_scored _ _ _ _ _ Hc) as [_ Hgt]; [split; [done|constructor]|].
  pose proof (collect_confs _ width height _ ([], [], []) _ Hrows ltac:(constructor) Hc) as Hle. simpl in Hgt, Hle.
  intros text org fs c th [Hin|Hin]%elem_of_app.
  - rewrite Forall_forall in Hadded.
    destruct (Hadded _ (proj1 (list_elem_of_In _ _) Hin)) as (name & conf & Hn & Hconf & -> & _).
    exists name, (py_int (conf * inject_Z 100)). do 2 (split; [done|]). rewrite Forall_forall in Hgt, Hle.
    apply percent_bounds; [apply Qgtb_true|]; [apply Hgt|apply Hle]; by apply list_elem_of_In.
  - apply list_elem_of_fmap in Hin as (b & Hb & _). discriminate Hb.
Qed.

(** C26: every text the loops of [postProcess] draw (line 129) is the label
    of a line of coco.names, upper-cased, with the score of the box as a
    whole percentage between 20 and 100: the boxes kept score above
    [confThreshold] = 0.2, and the class scores of the network, the
    outputs of a sigmoid, are at most 1. *)
Theorem postProcess_draw_labels outputs width height st img st' img' :
  Forall (λ det, Forall (λ q, 0 <= q <= 1)%Q (drop 5 det)) (List.concat outputs) →
  postProcess_draw classNames palette NMSBoxes outputs width height st img = Ok (st', img') →
  ∃ added, img' = img ++ added ∧
    ∀ text org fs c th, PutText text org fs c th ∈ added →
      ∃ name pct, name ∈ classNames ∧ text = py_upper name +s+ " " +s+ py_str pct +s+ "%" ∧
        (20 <= pct <= 100)%Z.
Proof. apply postProcess_draw_labels'. Qed.

End RenderProofs.

(** ** On one image *)

Import Euclidean.

(** One colour per line of [coco8]. *)
Definition palette8 : list color :=
  [(255, 0, 0); (0, 255, 0); (0, 0, 255); (255, 255, 0); (255, 0, 255); (0, 255, 255);
   (128, 128, 128); (255, 255, 255)].

Definition state0 : app_state tracker_state := mk_app [] tracker_init counter_init.

(** The car of [car_row] at the centre of a 320 x 320 image: its label,
    its rectangle and its centre, then the four counts. *)
Example from_static_image_draw_car :
  from_static_image_draw coco8 palette8 nms_all [[car_row]] 320 320 state0 =
    Ok (mk_app ["car"] (mk_tracker [(1, (160, 160))] 2) counter_init,
        [PutText "CAR 90%" (144, 134) (1 # 2) (0, 0, 255) 1;
         Rectangle (144, 144) (176, 176) (0, 0, 255) 1;
         Circle (160, 160) 2 (0, 0, 255) (-1);
         PutText "Car:        1" (20, 40) (1 # 2) (0, 0, 255) 2;
         PutText "Motorbike:  0" (20, 60) (1 # 2) (0, 0, 255) 2;
         PutText "Bus:        0" (20, 80) (1 # 2) (0, 0, 255) 2;
         PutText "Truck:      0" (20, 100) (1 # 2) (0, 0, 255) 2;
         ImShow "image"])%string.
Proof. vm_compute. reflexivity. Qed.

Lemma postProcess_draw_state_witness :
  List.length palette8 = List.length coco8 ∧
  fst <$> postProcess_draw coco8 palette8 nms_all [[car_row]] 320 320 state0 [] =
    postProcess coco8 nms_all [[car_row]] 320 320 state0.
Proof. split; [reflexivity|]. apply postProcess_draw_state. reflexivity. Defined.

Lemma postProcess_draw_labels_witness :
  ∃ added, [PutText "CAR 90%" (144, 134) (1 # 2) (0, 0, 255) 1;
            Rectangle (144, 144) (176, 176) (0, 0, 255) 1;
            Circle (160, 160) 2 (0, 0, 255) (-1)]%string = [] ++ added ∧
    ∀ text org fs c th, PutText text org fs c th ∈ added →
      ∃ name pct, name ∈ coco8 ∧ text = py_upper name +s+ " " +s+ py_str pct +s+ "%" ∧
        (20 <= pct <= 100)%Z.
Proof.
  apply (postProcess_draw_labels coco8 palette8 nms_all [[car_row]] 320 320 state0 []
           (mk_app ["car"] (mk_tracker [(1, (160, 160))] 2) counter_init)%string).
  - repeat constructor; vm_compute; discriminate.
  - vm_compute. reflexivity.
Defined.
