(* ===== verification/Script.v ===== *)
(** * The script: class names, [from_static_image] and [__main__]

    The module-level code of [src/vehicle_count.py]: the class names read
    from coco.names (lines 28-29), [from_static_image] (lines 142-178)
    and the call of line 182.

    [from_static_image] works on the module's globals: the tracker of
    line 8, [detected_classNames] (line 36) and the counter lists (lines
    64-67), all in [app_state], and appends one [csv.writer] record
    (Csv.v) to the text of static-data.csv, through the newline
    translation of a text file ([os.linesep], a parameter).  The image,
    the blob and the network ([cv2.imread], [img.shape],
    [cv2.dnn.blobFromImage], [net.forward]) are parameters of the section:
    OpenCV's image functions and the network are not modelled, only the
    order in which the script calls them and what it does with their
    results; the suppression is instantiated with OpenCV's [NMSBoxes]
    (Nms.v) in the theorems on concrete images.  The file reads back as
    one row per call on POSIX, and with an empty row after each on
    Windows. *)

From stdpp Require Import base list numbers strings.
From Stdlib Require Import ZArith QArith Ascii String Lia.
From S2P Require Import Prelude PyString Nms Csv Geometry Counter Tracker Pipeline.

Open Scope Z_scope.

(** [input_size = 320] (line 12). *)
Definition input_size : Z := 320.

(** [classNames = open(classesFile).read().strip().split('\n')]
    (lines 28-29), from the text of coco.names. *)
Definition load_classNames (contents : string) : list string :=
  string_of_list_ascii <$> py_split "010"%char (py_strip (list_ascii_of_string contents)).

(** A class-names file: one name per line, each line ending in a newline. *)
Definition names_file (names : list string) : string :=
  string_of_list_ascii (List.concat ((λ n, list_ascii_of_string n ++ ["010"%char]) <$> names)).

(** A name fit for such a file: no newline in it, and no whitespace at its
    ends (spaces inside, as in "traffic light", are allowed). *)
Definition name_ok (n : string) : bool :=
  let l := list_ascii_of_string n in
  bool_decide ("010"%char ∉ l) && bool_decide (l ≠ []) && trimmed l.

(** The image of line 182. *)
Definition main_image : string :=
  "C:/Users/sai/Downloads/vehicle-detection-classification-opencv/I-80_Eastshore_Fwy.jpg".

(** The row of line 177, [[image, car, motorbike, bus, truck]], as
    [csv.writer] writes it: the counts converted by [str]. *)
Definition csv_fields (image : string) (counts : list Z) : list string := image :: (py_str <$> counts).

Section Script.
Context (classNames : list string).
Context (NMSBoxes : list (list Z) → list Q → Q → Q → list Z).
Context {T : Type} `{Tracker T}.
(** [cv2.imread], [img.shape[:2]] as (height, width),
    [cv2.dnn.blobFromImage(img, scale, (size, size), ...)] and the
    forward pass of the network (lines 143-152). *)
Context {Image Blob : Type}.
Context (imread : string → Image) (img_shape : Image → Z * Z).
Context (blobFromImage : Image → Q → Z → Blob) (net_forward : Blob → list (list (list Q))).
(** [os.linesep]: the file of line 175 is opened as text without
    [newline=''], so every LF written becomes [linesep]. *)
Context (linesep : string).

(** The network outputs for an image file (lines 143-152). *)
Definition image_outputs (image : string) : list (list (list Q)) :=
  let img := imread image in
  let blob := blobFromImage img (1 # 255) input_size in
  net_forward blob.

(** [from_static_image(image)] on the globals [st], static-data.csv
    holding the text [f1]: the file is opened in append mode (line 175)
    and [writerow] adds one record (line 177). *)
Definition from_static_image (image : string) (st : app_state T) (f1 : string)
    : res (app_state T * string) :=
  let '(height, width) := img_shape (imread image) in
  st' ← postProcess classNames NMSBoxes (image_outputs image) width height st;
  let frequency := frequency (detected_classNames st') in
  Ok (st', String.append f1 (translate_newlines linesep (writerow (csv_fields image
         [frequency "car"; frequency "motorbike"; frequency "bus"; frequency "truck"]%string)))).

(** The state the module sets up before line 182: a new tracker [t0]
    (line 8), no class names (line 36), empty pending lists and zero
    counters (lines 64-67). *)
Definition script_init (t0 : T) : app_state T := mk_app [] t0 counter_init.

(** Lines 181-182: [from_static_image] on the one image of the script. *)
Definition main (t0 : T) (f0 : string) : res (app_state T * string) :=
  from_static_image main_image (script_init t0) f0.

End Script.

(** ** Reading coco.names *)

Lemma name_ok_spec n :
  name_ok n = true →
  "010"%char ∉ list_ascii_of_string n ∧ list_ascii_of_string n ≠ [] ∧
  trimmed (list_ascii_of_string n) = true.
Proof.
  unfold name_ok. rewrite !andb_true_iff, !bool_decide_eq_true. tauto.
Qed.

Lemma string_of_list_ascii_fmap (names : list string) :
  string_of_list_ascii <$> (list_ascii_of_string <$> names) = names.
Proof.
  induction names as [|n names IH]; [done|]. by rewrite !fmap_cons, string_of_list_ascii_of_string, IH.
Qed.

(** C39: line 29 reads back the class names of a file written one name per
    line: [open(f).read().strip().split('\n')] of such a file is the list
    of its names, when no name is empty, holds a newline or starts or ends
    with whitespace. *)
Theorem load_classNames_roundtrip names :
  names ≠ [] → Forall (λ n, name_ok n = true) names →
  load_classNames (names_file names) = names.
Proof.
  intros Hne Hok. unfold load_classNames, names_file.
  rewrite list_ascii_of_string_of_list_ascii.
  rewrite (list_fmap_compose list_ascii_of_string (λ w, w ++ ["010"%char])).
  rewrite concat_terminated_join by (by destruct names).
  assert (Hok' : Forall (λ n, "010"%char ∉ list_ascii_of_string n ∧ list_ascii_of_string n ≠ [] ∧
                              trimmed (list_ascii_of_string n) = true) names)
    by (eapply Forall_impl; [exact Hok|]; intros n; apply name_ok_spec).
  rewrite py_strip_trailing, py_split_join.
  - apply string_of_list_ascii_fmap.
  - by destruct names.
  - rewrite Forall_fmap. eapply Forall_impl; [exact Hok'|]. naive_solver.
  - apply trimmed_py_join. rewrite Forall_fmap. eapply Forall_impl; [exact Hok'|]. naive_solver.
  - by repeat constructor.
Qed.

(** ** [from_static_image] and the script *)

Section ScriptProofs.
Context (classNames : list string).
Context (NMSBoxes : list (list Z) → list Q → Q → Q → list Z).
Context {T : Type} `{Tracker T} (tracker_inv : T → Prop) `{!TrackerLaws T tracker_inv}.
Context {Image Blob : Type}.
Context (imread : string → Image) (img_shape : Image → Z * Z).
Context (blobFromImage : Image → Q → Z → Blob) (net_forward : Blob → list (list (list Q))).
Context (linesep : string).

(** What one call does: [postProcess] on the image's outputs, and one row
    built from all the names detected so far. *)
Lemma from_static_image_Ok image st f1 st' f' height width :
  img_shape (imread image) = (height, width) →
  from_static_image classNames NMSBoxes imread img_shape blobFromImage net_forward linesep image st f1 =
    Ok (st', f') →
  postProcess classNames NMSBoxes (image_outputs imread blobFromImage net_forward image)
    width height st = Ok st' ∧
  f' = String.append f1 (translate_newlines linesep (writerow (csv_fields image
         ((frequency (detected_classNames st')) <$> ["car"; "motorbike"; "bus"; "truck"]%string)))).
Proof.
  intros Hshape Hs. unfold from_static_image in Hs. rewrite Hshape in Hs.
  apply res_bind_Ok in Hs as (st1 & Hp & Hs). by inv_res.
Qed.

(** C34: the script processes a single image, so it can never count a
    crossing: whatever the detections, [up_list] and [down_list] are still
    all zero at the end of [main]; what it reports is how many boxes of
    each class were detected, not the crossing counters. *)
Theorem main_counts_nothing t0 f0 st f :
  tracker_inv t0 →
  main classNames NMSBoxes imread img_shape blobFromImage net_forward linesep t0 f0 = Ok (st, f) →
  up_list (counters st) = [0; 0; 0; 0] ∧ down_list (counters st) = [0; 0; 0; 0].
Proof.
  intros Ht Hs. unfold main in Hs.
  destruct (img_shape (imread main_image)) as [height width] eqn:Hshape.
  destruct (from_static_image_Ok _ _ _ _ _ _ _ Hshape Hs) as [Hp _].
  apply postProcess_Ok in Hp as (dets & t' & c' & _ & Htc & _ & ->).
  by apply (track_and_count_fresh tracker_inv (tracker (script_init t0)) dets t').
Qed.
(** The file after [main]: the text it held and the record of the row. *)
Lemma main_file t0 f0 st f :
  main classNames NMSBoxes imread img_shape blobFromImage net_forward linesep t0 f0 = Ok (st, f) →
  f = String.append f0 (translate_newlines linesep (writerow (csv_fields main_image
         ((frequency (detected_classNames st)) <$> ["car"; "motorbike"; "bus"; "truck"]%string)))).
Proof.
  intros Hs. unfold main in Hs. destruct (img_shape (imread main_image)) as [height width] eqn:Hshape.
  by destruct (from_static_image_Ok _ _ _ _ _ _ _ Hshape Hs) as [_ ->].
Qed.

Lemma csv_text_single r : csv_text [r] = writerow r.
Proof. apply string_app_nil_r. Qed.

(** On a POSIX system, static-data.csv written by [main] from an
    empty file reads back, with [csv.reader], as the one row
    [[image, car, motorbike, bus, truck]], the counts as [str] wrote them. *)
Theorem main_static_data_posix t0 st f :
  linesep = linesep_posix →
  main classNames NMSBoxes imread img_shape blobFromImage net_forward linesep t0 EmptyString = Ok (st, f) →
  read_csv f = Ok [csv_fields main_image
                     ((frequency (detected_classNames st)) <$> ["car"; "motorbike"; "bus"; "truck"]%string)].
Proof.
  intros Hl Hs. rewrite (main_file _ _ _ _ Hs), Hl, translate_posix. cbn [String.append].
  rewrite <- csv_text_single. apply read_csv_csv_text.
Qed.

(** C22: on Windows, where the text file turns the writer's CR LF into
    CR CR LF, static-data.csv written by [main] reads back as the row
    followed by an empty row. *)
Theorem main_static_data_windows t0 st f :
  linesep = linesep_windows →
  main classNames NMSBoxes imread img_shape blobFromImage net_forward linesep t0 EmptyString = Ok (st, f) →
  read_csv f = Ok [csv_fields main_image
                     ((frequency (detected_classNames st)) <$> ["car"; "motorbike"; "bus"; "truck"]%string); []].
Proof.
  intros Hl Hs. rewrite (main_file _ _ _ _ Hs), Hl, <- csv_text_single.
  change (String.append EmptyString ?x) with x. rewrite read_csv_windows; [done|].
  apply Forall_singleton. unfold csv_fields. constructor; [vm_compute; reflexivity|].
  apply Forall_fmap, Forall_forall. intros. apply py_str_no_lf.
Qed.

(** C21: on a POSIX system, [from_static_image] keeps static-data.csv a
    file of one record per call: when the file holds the records of
    [rows], it afterwards holds the records of [rows] and of the new row
    [[image, car, motorbike, bus, truck]], and [csv.reader] reads back
    exactly these rows. *)
Theorem static_data_records image st f1 st' f' rows :
  linesep = linesep_posix → f1 = csv_text rows →
  from_static_image classNames NMSBoxes imread img_shape blobFromImage net_forward linesep image st f1 =
    Ok (st', f') →
  let row := csv_fields image ((frequency (detected_classNames st')) <$> ["car"; "motorbike"; "bus"; "truck"]%string) in
  f' = csv_text (rows ++ [row]) ∧ read_csv f' = Ok (rows ++ [row]).
Proof.
  intros Hl -> Hs. destruct (img_shape (imread image)) as [height width] eqn:Hshape.
  destruct (from_static_image_Ok _ _ _ _ _ _ _ Hshape Hs) as [_ ->].
  cbv zeta. rewrite Hl, translate_posix, csv_text_app, csv_text_single. split; [done|].
  rewrite <- csv_text_single, <- csv_text_app. apply read_csv_csv_text.
Qed.

(** C35: one call of [from_static_image] appends the labels of the image's
    detections to the global [detected_classNames], and the row it writes
    counts, for car, motorbike, bus and truck in that order, the names
    detected by every call so far plus this image's detections of that
    class bucket; on the first call ([main]) the row is this image's
    detections per class. *)
Theorem from_static_image_row image st f1 st' f' height width :
  classNames !! 2%nat = Some "car"%string → classNames !! 3%nat = Some "motorbike"%string →
  classNames !! 5%nat = Some "bus"%string → classNames !! 7%nat = Some "truck"%string →
  img_shape (imread image) = (height, width) →
  from_static_image classNames NMSBoxes imread img_shape blobFromImage net_forward linesep image st f1 =
    Ok (st', f') →
  ∃ dets, detect classNames NMSBoxes (image_outputs imread blobFromImage net_forward image)
            width height (detected_classNames st) = Ok (detected_classNames st', dets) ∧
    detected_classNames st' = detected_classNames st ++ (bucket_name ∘ d_index <$> dets) ∧
    f' = String.append f1 (translate_newlines linesep (writerow (csv_fields image
           ((λ k, frequency (detected_classNames st) (bucket_name k) + bucket_count dets k) <$> [0; 1; 2; 3])))).
Proof.
  intros Hc Hm Hb Ht Hshape Hs.
  destruct (from_static_image_Ok _ _ _ _ _ _ _ Hshape Hs) as [Hp ->].
  apply postProcess_Ok in Hp as (dets & t' & c' & Hd & _ & _ & _).
  exists dets. split; [done|].
  pose proof Hd as Hd'. eapply detect_names in Hd' as [Hn Hf]; [|done..].
  split; [done|]. rewrite Hn. simpl.
  rewrite !frequency_app, <- !(frequency_bucket dets) by (done || lia). done.
Qed.
End ScriptProofs.

(** ** Two calls *)

Import Euclidean.

(** A file whose image has size 320 x 320 and is its own blob. *)
Definition shape320 (_ : string) : Z * Z := (320, 320).
Definition blob_of (img : string) (_ : Q) (_ : Z) : string := img.

(** A car 32 pixels wide whose centre is at [(160, cy)]. *)
Definition car_at (cy : Z) : list Q := [1#2; Qmake cy 320; 1#10; 1#10; 9#10; 0; 0; 9#10; 0]%Q.

(** Two images of the same road: a car at y = 220, then a car at y = 242. *)
Definition two_images (blob : string) : list (list (list Q)) :=
  if String.eqb blob "a.jpg" then [[car_at 220]] else [[car_at 242]].

(** A row: a person at the image centre, score 0.9. *)
Definition person_row : list Q := [1#2; 1#2; 1#10; 1#10; 9#10; 9#10; 0; 0; 0]%Q.

(** The network sees only a person. *)
Definition person_image (_ : string) : list (list (list Q)) := [[person_row]].

(** The network sees the same car twice, in two outputs, with scores 0.9
    and 0.8, the boxes one pixel apart. *)
Definition car_twice (_ : string) : list (list (list Q)) :=
  [[car_at 160]; [[1#2; Qmake 161 320; 1#10; 1#10; 4#5; 0; 0; 4#5; 0]%Q]].

(** With OpenCV's [NMSBoxes], the script crashes on an image with no
    vehicle: NMS returns an empty vector, which the binding hands back as
    the empty tuple, and [indices.flatten()] (line 121) raises
    [AttributeError]; no row is written to static-data.csv. *)
Theorem main_no_vehicle_crashes :
  main coco8 NMSBoxes (λ s, s) shape320 blob_of person_image linesep_posix tracker_init EmptyString = Err AttributeError.
Proof. vm_compute. reflexivity. Qed.

(** With OpenCV's [NMSBoxes], two detections of the same car (their
    boxes overlap far beyond the 0.2 threshold) are reported once: the row
    counts one car, and the tracker holds one object. *)
Theorem main_duplicate_suppressed :
  main coco8 NMSBoxes (λ s, s) shape320 blob_of car_twice linesep_posix tracker_init EmptyString =
    Ok (mk_app ["car"]%string (mk_tracker [(1, (160, 160))] 2) counter_init,
        csv_text [csv_fields main_image [1; 0; 0; 0]]).
Proof. vm_compute. reflexivity. Qed.

(** [from_static_image] never resets the globals it reads: called for
    a second image, its row counts the cars of both images ([2], though the
    second image holds one car), and the car at y = 242 in the second
    image, 22 pixels from the car at y = 220 in the first, is taken for the
    same vehicle and counted as a downward crossing, which no row reports. *)
Theorem from_static_image_accumulates :
  ('(st1, f1) ← from_static_image coco8 nms_all (λ s, s) shape320 blob_of two_images linesep_posix "a.jpg"
                   (script_init tracker_init) EmptyString;
   from_static_image coco8 nms_all (λ s, s) shape320 blob_of two_images linesep_posix "b.jpg" st1 f1) =
  Ok (mk_app ["car"; "car"]%string (mk_tracker [(1, (160, 242))] 2)
        (mk_counter [] [] [0; 0; 0; 0] [1; 0; 0; 0]),
      csv_text [csv_fields "a.jpg" [1; 0; 0; 0]; csv_fields "b.jpg" [2; 0; 0; 0]]).
Proof. vm_compute. reflexivity. Qed.

Lemma main_counts_nothing_witness :
  up_list (counters (mk_app ["car"%string] (mk_tracker [(1, (160, 242))] 2) counter_init)) = [0; 0; 0; 0] ∧
  down_list (counters (mk_app ["car"%string] (mk_tracker [(1, (160, 242))] 2) counter_init)) = [0; 0; 0; 0].
Proof.
  apply (main_counts_nothing coco8 nms_all tracker_wf (λ s, s) shape320 blob_of two_images
           linesep_posix tracker_init EmptyString _ (csv_text [csv_fields main_image [1; 0; 0; 0]]));
    [apply tracker_init_wf|vm_compute; reflexivity].
Defined.

Lemma from_static_image_row_witness :
  ∃ dets, detect coco8 nms_all (image_outputs (λ s, s) blob_of two_images "a.jpg") 320 320 [] =
            Ok (["car"]%string, dets) ∧
    ["car"]%string = [] ++ (bucket_name ∘ d_index <$> dets) ∧
    csv_text [csv_fields "a.jpg" [1; 0; 0; 0]] =
      String.append EmptyString (translate_newlines linesep_posix (writerow (csv_fields "a.jpg"
        ((λ k, frequency [] (bucket_name k) + bucket_count dets k) <$> [0; 1; 2; 3])))).
Proof.
  apply (from_static_image_row coco8 nms_all (λ s, s) shape320 blob_of two_images linesep_posix "a.jpg"
           (script_init tracker_init) EmptyString (mk_app ["car"%string] (mk_tracker [(1, (160, 220))] 2)
                                            (mk_counter [1] [] [0; 0; 0; 0] [0; 0; 0; 0])));
    [reflexivity..|vm_compute; reflexivity].
Defined.

Lemma load_classNames_roundtrip_witness : load_classNames (names_file coco8) = coco8.
Proof. apply load_classNames_roundtrip; [done|vc_decide]. Defined.

Lemma main_static_data_posix_witness :
  read_csv (csv_text [csv_fields main_image [1; 0; 0; 0]]) =
    Ok [csv_fields main_image ((frequency ["car"%string]) <$> ["car"; "motorbike"; "bus"; "truck"]%string)].
Proof.
  apply (main_static_data_posix coco8 NMSBoxes (λ s, s) shape320 blob_of car_twice linesep_posix
           tracker_init (mk_app ["car"%string] (mk_tracker [(1, (160, 160))] 2) counter_init));
    [reflexivity|vm_compute; reflexivity].
Defined.

Lemma main_static_data_windows_witness :
  read_csv (translate_newlines linesep_windows (csv_text [csv_fields main_image [1; 0; 0; 0]])) =
    Ok [csv_fields main_image ((frequency ["car"%string]) <$> ["car"; "motorbike"; "bus"; "truck"]%string); []].
Proof.
  apply (main_static_data_windows coco8 NMSBoxes (λ s, s) shape320 blob_of car_twice linesep_windows
           tracker_init (mk_app ["car"%string] (mk_tracker [(1, (160, 160))] 2) counter_init));
    [reflexivity|vm_compute; reflexivity].
Defined.

Lemma static_data_records_witness :
  let row := csv_fields "a.jpg" ((frequency ["car"%string]) <$> ["car"; "motorbike"; "bus"; "truck"]%string) in
  csv_text [csv_fields "x.jpg" [0; 0; 0; 0]; csv_fields "a.jpg" [1; 0; 0; 0]] =
    csv_text ([csv_fields "x.jpg" [0; 0; 0; 0]] ++ [row]) ∧
  read_csv (csv_text [csv_fields "x.jpg" [0; 0; 0; 0]; csv_fields "a.jpg" [1; 0; 0; 0]]) =
    Ok ([csv_fields "x.jpg" [0; 0; 0; 0]] ++ [row]).
Proof.
  apply (static_data_records coco8 nms_all (λ s, s) shape320 blob_of two_images linesep_posix "a.jpg"
           (script_init tracker_init) (csv_text [csv_fields "x.jpg" [0; 0; 0; 0]])
           (mk_app ["car"%string] (mk_tracker [(1, (160, 220))] 2) (mk_counter [1] [] [0; 0; 0; 0] [0; 0; 0; 0])));
    [reflexivity|reflexivity|vm_compute; reflexivity].
Defined.
